(** * SIPF file-download sample for nRF9160

    A shallow embedding of [src/main.c]: peripheral set-up, certificate
    provisioning, LTE attach with bounded retry, SIM authentication with
    unbounded retry, credential hand-off and the operational loop.

    Every call into Zephyr, the nRF modem libraries, the SIPF client and the
    UART broker is an [event] of a chronological [trace].  What such a call
    answers is decided by an environment [Env] that sees the whole history,
    so a statement quantified over [Env] speaks about every behaviour of the
    libraries and of the hardware.  The program itself is written in a small
    monad [M] that reads the history, threads the file-scope buffers and
    collects the events it produces. *)

From Stdlib Require Import ZArith List String Ascii Strings.Byte Bool Lia.
From Stdlib Require HexString DecimalString.
Import ListNotations.
Local Open Scope string_scope.
Local Open Scope list_scope.
Local Open Scope Z_scope.

(** String concatenation, kept apart from the [++] of traces. *)
Infix "+++" := String.append (right associativity, at level 60) : string_scope.

(** ** Constants of the source *)

Definition LED_HEARTBEAT_MS : Z := 500.
Definition TLS_SEC_TAG : Z := 42.
Definition SZ_USER_NAME : Z := 255.
Definition SZ_PASSWORD : Z := 255.
Definition REGISTER_TIMEOUT_MS : Z := 120000.
Definition REGISTER_TRY : Z := 3.

(** [uint8_t work_buff[1024]]: only its size is ever used. *)
Definition sizeof_work_buff : Z := 1024.

(** Zephyr's errno values used by the source. *)
Definition EAGAIN : Z := 11.
Definition ENODEV : Z := 19.

(** ** Data *)

(** The three [gpio_dt_spec] objects of the file. *)
Inductive gpio_dt_spec := led_boot | led_state | btn_send.

Inductive gpio_flags := GPIO_INPUT | GPIO_OUTPUT_INACTIVE.

Inductive cred_type := MODEM_KEY_MGMT_CRED_TYPE_CA_CHAIN.

Inductive pdn_fam := PDN_FAM_IPV4.

Inductive log_level := LOG_ERR | LOG_INF | LOG_DBG.

(** A file-scope [char] array: its declared size ([sizeof]) and contents. *)
Record buffer := mkBuffer { buf_size : Z; buf_data : list byte }.

(** The mutable file-scope objects: [user_name] and [password]. *)
Record globals := mkGlobals { user_name : buffer; password : buffer }.

Definition sizeof (b : buffer) : Z := buf_size b.

(** The static arrays as the image starts: zero-filled, sizes as declared. *)
Definition boot_globals : globals :=
  {| user_name := mkBuffer SZ_USER_NAME (repeat x00 (Z.to_nat SZ_USER_NAME));
     password := mkBuffer SZ_PASSWORD (repeat x00 (Z.to_nat SZ_PASSWORD)) |}.

(** Build-time inputs that are not in [main.c]: the included certificate
    file (the contents of [cert[]], terminating NUL included) and the
    Kconfig switches tested by [#ifdef]. *)
Record build := mkBuild {
  cert : list byte;
  CONFIG_LTE_LOCK_PLMN : option string;
  CONFIG_SIPF_AUTH_DISABLE_SSL : bool;
  CONFIG_SIPF_CONNECTOR_DISABLE_SSL : bool
}.

(** ** Events: one constructor per external call, with arguments and answer *)

Inductive event :=
| EvUartBrokerInit
| EvUartBrokerPrint (text : string)
| EvUartBrokerPuts (text : string)
| EvLog (lvl : log_level) (text : string)
| EvDeviceIsReady (dev : gpio_dt_spec) (ready : bool)
| EvGpioPinConfigure (dev : gpio_dt_spec) (flags : gpio_flags)
| EvGpioPinSet (dev : gpio_dt_spec) (value : Z)
| EvGpioPinToggle (dev : gpio_dt_spec)
| EvGpioPinGet (dev : gpio_dt_spec) (ret : Z)
| EvSleep (ms : Z)
| EvUptimeGet (ms : Z)
| EvSemTake (timeout_ms : Z) (ret : Z)
| EvNrfModemLibInit (ret : Z)
| EvKeyExists (tag : Z) (ty : cred_type) (err : Z) (present : bool)
| EvKeyDelete (tag : Z) (ty : cred_type) (err : Z)
| EvKeyWrite (tag : Z) (ty : cred_type) (buf : list byte) (len : Z) (err : Z)
| EvPdnCtxCreate (err : Z) (cid : Z)
| EvPdnCtxConfigure (cid : Z) (apn : string) (fam : pdn_fam) (err : Z)
| EvLteLcInit (ret : Z)
| EvLteLcModemEventsEnable
| EvLteLcConnectAsync (ret : Z)
| EvLteLcOffline
| EvLteLcDeinit
| EvLteLcPsmReq (enable : bool) (ret : Z)
| EvSipfAuthRequest (user_cap pass_cap : Z) (ret : Z) (user pass : list byte)
| EvSipfClientHttpSetAuthInfo (user pass : list byte) (ret : Z)
| EvSipfFileDownload (name : string) (cap : Z)
| EvSipfFileDownloadDone (ret : Z).

Definition trace := list event.

(** ** The environment: what each library call answers, given the history *)

Record Env := mkEnv {
  env_device_is_ready : trace -> gpio_dt_spec -> bool;
  env_gpio_pin_get_dt : trace -> gpio_dt_spec -> Z;
  env_k_uptime_get : trace -> Z;
  env_k_sem_take : trace -> Z -> Z;
  env_nrf_modem_lib_init : trace -> Z;
  env_modem_key_mgmt_exists : trace -> Z -> cred_type -> Z * bool;
  env_modem_key_mgmt_delete : trace -> Z -> cred_type -> Z;
  env_modem_key_mgmt_write : trace -> Z -> cred_type -> list byte -> Z -> Z;
  env_pdn_ctx_create : trace -> Z * Z;
  env_pdn_ctx_configure : trace -> Z -> string -> pdn_fam -> Z;
  env_lte_lc_init : trace -> Z;
  env_lte_lc_connect_async : trace -> Z;
  env_lte_lc_psm_req : trace -> bool -> Z;
  (* status, then the contents left in the two output buffers *)
  env_SipfAuthRequest : trace -> Z -> Z -> Z * list byte * list byte;
  env_SipfClientHttpSetAuthInfo : trace -> list byte -> list byte -> Z;
  (* the chunks [(buff, len)] handed to the callback, then the status *)
  env_SipfFileDownload : trace -> string -> Z -> list (list byte * Z) * Z
}.

(** ** The monad *)

Definition M (A : Type) : Type := trace -> globals -> A * globals * trace.

Definition ret {A} (a : A) : M A := fun _ g => (a, g, []).

Definition bind {A B} (m : M A) (f : A -> M B) : M B :=
  fun h g =>
    let '(a, g1, es1) := m h g in
    let '(b, g2, es2) := f a (h ++ es1) g1 in
    (b, g2, es1 ++ es2).

Notation "x <- c1 ;; c2" := (bind c1 (fun x => c2))
  (at level 61, c1 at next level, right associativity).
Notation "c1 ;; c2" := (bind c1 (fun _ => c2))
  (at level 61, right associativity).

(** A call whose answer the program does not look at. *)
Definition emit (e : event) : M unit := fun _ g => (tt, g, [e]).

(** A call whose answer [r] comes from the environment. *)
Definition ask {A} (answer : trace -> A) (ev : A -> event) : M A :=
  fun h g => let r := answer h in (r, g, [ev r]).

Definition get_globals : M globals := fun _ g => (g, g, []).
Definition put_globals (g : globals) : M unit := fun _ _ => (tt, g, []).

(** Value, final buffers and produced events of a run. *)
Definition result {A} (x : A * globals * trace) : A := fst (fst x).
Definition final {A} (x : A * globals * trace) : globals := snd (fst x).
Definition events {A} (x : A * globals * trace) : trace := snd x.

(** [for (int i = i0; i < i0 + n; i++) body], where the body may [return]
    ([Some v]) or fall through to the next round ([None]). *)
Fixpoint for_range {R} (n : nat) (i : Z) (body : Z -> M (option R))
  : M (option R) :=
  match n with
  | O => ret None
  | S n' =>
      r <- body i ;;
      match r with
      | Some v => ret (Some v)
      | None => for_range n' (i + 1) body
      end
  end.

(** [for (;;) body]: the body yields the next loop state ([inl]) or leaves
    the loop ([inr]).  [fuel] bounds the rounds that are unfolded; [inl s]
    is "still looping, in state [s]". *)
Fixpoint forever {St R} (fuel : nat) (body : St -> M (St + R)) (s : St)
  : M (St + R) :=
  match fuel with
  | O => ret (inl s)
  | S fuel' =>
      r <- body s ;;
      match r with
      | inl s' => forever fuel' body s'
      | inr v => ret (inr v)
      end
  end.

(** ** Text formatting *)

Definition CRLF : string := String (ascii_of_nat 13) (String (ascii_of_nat 10) EmptyString).

(** printf's [%x]: lowercase hexadecimal, no prefix. *)
Definition fmt_x (v : N) : string :=
  match v with
  | N0 => "0"%string
  | Npos p => HexString.Raw.of_pos p ""%string
  end.

(** Left padding with ['0'] up to [width] characters. *)
Definition zero_pad (width : nat) (s : string) : string :=
  (string_of_list_ascii (repeat "0"%char (width - String.length s)) ++ s)%string.

(** printf's [%02x] applied to a [uint8_t] (promoted, so never negative). *)
Definition fmt_02x (b : byte) : string := zero_pad 2 (fmt_x (Byte.to_N b)).

(** printf's [%d]. *)
Definition fmt_d (z : Z) : string :=
  DecimalString.NilZero.string_of_int (Z.to_int z).

(** The console text of a trace: what went through the UART broker. *)
Fixpoint console (t : trace) : string :=
  match t with
  | [] => ""%string
  | EvUartBrokerPrint s :: t' => (s ++ console t')%string
  | EvUartBrokerPuts s :: t' => (s ++ console t')%string
  | _ :: t' => console t'
  end.

(** ** Integer helpers *)

(** [if (err)] on an [int]. *)
Definition nonzero (z : Z) : bool := negb (z =? 0).

(** Two's-complement [int64_t]: the uptime arithmetic of the heartbeat. *)
Definition wrap_s64 (z : Z) : Z := (z + 2 ^ 63) mod 2 ^ 64 - 2 ^ 63.

(** [size_t] on the 32-bit target. *)
Definition wrap_size_t (z : Z) : Z := z mod 2 ^ 32.

(** [uint8_t]. *)
Definition wrap_u8 (z : Z) : Z := z mod 2 ^ 8.

(** Where [main], which never returns, is when the unfolding budget of its
    endless loops runs out. *)
Inductive phase := Authenticating | Operational | ErrorIndicator.

(** ** The program *)

Section Firmware.

Variable env : Env.
Variable bld : build.

(** *** External calls *)

Definition LOG (lvl : log_level) (text : string) : M unit :=
  emit (EvLog lvl text).

(** Modelled from the spec: the UART broker ([uart_broker.c] is not among
    the sources) exposes [init], [print] (printf-style; the text below is
    the formatted one) and [puts], all writing to the console. *)
Definition UartBrokerInit : M unit := emit EvUartBrokerInit.
Definition UartBrokerPrint (text : string) : M unit :=
  emit (EvUartBrokerPrint text).
Definition UartBrokerPuts (text : string) : M unit :=
  emit (EvUartBrokerPuts text).

Definition device_is_ready (dev : gpio_dt_spec) : M bool :=
  ask (fun h => env_device_is_ready env h dev) (EvDeviceIsReady dev).
Definition gpio_pin_configure_dt (dev : gpio_dt_spec) (flags : gpio_flags)
  : M unit := emit (EvGpioPinConfigure dev flags).
Definition gpio_pin_set_dt (dev : gpio_dt_spec) (value : Z) : M unit :=
  emit (EvGpioPinSet dev value).
Definition gpio_pin_toggle_dt (dev : gpio_dt_spec) : M unit :=
  emit (EvGpioPinToggle dev).
Definition gpio_pin_get_dt (dev : gpio_dt_spec) : M Z :=
  ask (fun h => env_gpio_pin_get_dt env h dev) (EvGpioPinGet dev).

Definition k_sleep (ms : Z) : M unit := emit (EvSleep ms).
Definition k_uptime_get : M Z := ask (env_k_uptime_get env) EvUptimeGet.

(** [k_sem_take(&lte_connected, K_MSEC(ms))].  [lte_handler] runs in the
    modem library's context; the only thing [main] sees of it is whether
    this wait ends with the permit (0) or without (-EAGAIN). *)
Definition k_sem_take (ms : Z) : M Z :=
  ask (fun h => env_k_sem_take env h ms) (EvSemTake ms).

Definition nrf_modem_lib_init : M Z :=
  ask (env_nrf_modem_lib_init env) EvNrfModemLibInit.

Definition modem_key_mgmt_exists (tag : Z) (ty : cred_type) : M (Z * bool) :=
  ask (fun h => env_modem_key_mgmt_exists env h tag ty)
      (fun r => EvKeyExists tag ty (fst r) (snd r)).
Definition modem_key_mgmt_delete (tag : Z) (ty : cred_type) : M Z :=
  ask (fun h => env_modem_key_mgmt_delete env h tag ty) (EvKeyDelete tag ty).
Definition modem_key_mgmt_write (tag : Z) (ty : cred_type)
    (buf : list byte) (len : Z) : M Z :=
  ask (fun h => env_modem_key_mgmt_write env h tag ty buf len)
      (EvKeyWrite tag ty buf len).

(** [pdn_ctx_create(&cid, NULL)] with [uint8_t cid]. *)
Definition pdn_ctx_create : M (Z * Z) :=
  ask (fun h => let r := env_pdn_ctx_create env h in (fst r, wrap_u8 (snd r)))
      (fun r => EvPdnCtxCreate (fst r) (snd r)).
Definition pdn_ctx_configure (cid : Z) (apn : string) (fam : pdn_fam) : M Z :=
  ask (fun h => env_pdn_ctx_configure env h cid apn fam)
      (EvPdnCtxConfigure cid apn fam).

Definition lte_lc_init : M Z := ask (env_lte_lc_init env) EvLteLcInit.
Definition lte_lc_modem_events_enable : M unit := emit EvLteLcModemEventsEnable.
Definition lte_lc_connect_async : M Z :=
  ask (env_lte_lc_connect_async env) EvLteLcConnectAsync.
Definition lte_lc_offline : M unit := emit EvLteLcOffline.
Definition lte_lc_deinit : M unit := emit EvLteLcDeinit.
Definition lte_lc_psm_req (enable : bool) : M Z :=
  ask (fun h => env_lte_lc_psm_req env h enable) (EvLteLcPsmReq enable).

(** [SipfAuthRequest(user_name, user_cap, password, pass_cap)]: the
    library leaves new contents in the two file-scope buffers. *)
Definition SipfAuthRequest (user_cap pass_cap : Z) : M Z :=
  fun h g =>
    let '(r, u, p) := env_SipfAuthRequest env h user_cap pass_cap in
    (r,
     {| user_name := mkBuffer (buf_size (user_name g)) u;
        password := mkBuffer (buf_size (password g)) p |},
     [EvSipfAuthRequest user_cap pass_cap r u p]).

(** [SipfClientHttpSetAuthInfo(user_name, password)]: reads the buffers. *)
Definition SipfClientHttpSetAuthInfo : M Z :=
  fun h g =>
    let u := buf_data (user_name g) in
    let p := buf_data (password g) in
    let r := env_SipfClientHttpSetAuthInfo env h u p in
    (r, g, [EvSipfClientHttpSetAuthInfo u p r]).

(** The callback is run once per chunk, in order. *)
Fixpoint deliver (cb : list byte -> Z -> M Z) (chunks : list (list byte * Z))
  : M unit :=
  match chunks with
  | [] => ret tt
  | (buff, len) :: rest => _ <- cb buff len ;; deliver cb rest
  end.

(** Modelled from the spec: [SipfFileDownload(name, NULL, cap, cb)] (the
    SIPF client is not among the sources) hands the received chunks to
    the per-chunk callback and returns the bytes received, or a negative
    status. *)
Definition SipfFileDownload (name : string) (cap : Z)
    (cb : list byte -> Z -> M Z) : M Z :=
  emit (EvSipfFileDownload name cap) ;;
  fun h g =>
    let r := env_SipfFileDownload env h name cap in
    (deliver cb (fst r) ;; emit (EvSipfFileDownloadDone (snd r)) ;; ret (snd r)) h g.

(** *** Peripherals *)

Definition button_init : M Z :=
  ready <- device_is_ready btn_send ;;
  if negb ready then ret (- ENODEV)
  else
    gpio_pin_configure_dt btn_send GPIO_INPUT ;;
    ret 0.

Definition led_init : M Z :=
  ready <- device_is_ready led_boot ;;
  if negb ready then ret (- ENODEV)
  else
    gpio_pin_configure_dt led_boot GPIO_OUTPUT_INACTIVE ;;
    ready <- device_is_ready led_state ;;
    if negb ready then ret (- ENODEV)
    else
      gpio_pin_configure_dt led_state GPIO_OUTPUT_INACTIVE ;;
      ret 0.

(** *** Certificate provisioning *)

Definition sizeof_cert : Z := Z.of_nat (List.length (cert bld)).

Definition cert_provision : M Z :=
  r <- modem_key_mgmt_exists TLS_SEC_TAG MODEM_KEY_MGMT_CRED_TYPE_CA_CHAIN ;;
  let err := fst r in
  let present := snd r in
  if nonzero err then
    LOG LOG_ERR ("Failed to check for certificates err " +++ fmt_d err) ;;
    ret err
  else
    (if present then
       err <- modem_key_mgmt_delete TLS_SEC_TAG MODEM_KEY_MGMT_CRED_TYPE_CA_CHAIN ;;
       if nonzero err then
         LOG LOG_ERR ("Failed to delete existing certificate, err " +++ fmt_d err)
       else ret tt
     else ret tt) ;;
    LOG LOG_DBG "Provisioning certificate" ;;
    err <- modem_key_mgmt_write TLS_SEC_TAG MODEM_KEY_MGMT_CRED_TYPE_CA_CHAIN
             (cert bld) (wrap_size_t (sizeof_cert - 1)) ;;
    if nonzero err then
      LOG LOG_ERR ("Failed to provision certificate, err " +++ fmt_d err) ;;
      ret err
    else ret 0.

(** *** Modem and LTE *)

(** One round of the CONNECT loop: [Some v] is [return v], [None] is
    [continue]. *)
Definition connect_attempt (i : Z) : M (option Z) :=
  LOG LOG_DBG "Initialize LTE" ;;
  err <- lte_lc_init ;;
  if nonzero err then
    LOG LOG_ERR ("Failed to initializes the modem, err " +++ fmt_d err) ;;
    ret (Some err)
  else
    LOG LOG_DBG "Initialize LTE OK" ;;
    lte_lc_modem_events_enable ;;
    LOG LOG_INF ("[" +++ fmt_d i +++ "] Trying to attach to LTE network (TIMEOUT: "
                 +++ fmt_d REGISTER_TIMEOUT_MS +++ " ms)") ;;
    UartBrokerPrint ("Trying to attach to LTE network (TIMEOUT: "
                     +++ fmt_d REGISTER_TIMEOUT_MS +++ " ms)" +++ CRLF) ;;
    err <- lte_lc_connect_async ;;
    if nonzero err then
      LOG LOG_ERR ("Failed to attatch to the LTE network, err " +++ fmt_d err) ;;
      ret (Some err)
    else
      err <- k_sem_take REGISTER_TIMEOUT_MS ;;
      if err =? - EAGAIN then
        UartBrokerPrint ("TIMEOUT" +++ CRLF) ;;
        lte_lc_offline ;;
        lte_lc_deinit ;;
        ret None
      else if err =? 0 then
        err <- lte_lc_psm_req true ;;
        (if nonzero err then
           LOG LOG_ERR ("PSM request failed, error: " +++ fmt_d err)
         else LOG LOG_DBG "PSM is enabled") ;;
        ret (Some 0)
      else ret (Some err).

Definition init_modem_and_lte : M Z :=
  err <- nrf_modem_lib_init ;;
  if nonzero err then
    LOG LOG_ERR "Failed to initialize modem library!" ;;
    ret err
  else
    err <- cert_provision ;;
    if nonzero err then
      LOG LOG_ERR ("Faild to cert_provision(): " +++ fmt_d err) ;;
      ret err
    else
      r <- pdn_ctx_create ;;
      let err := fst r in
      let cid := snd r in
      if nonzero err then
        LOG LOG_ERR ("Failed to pdn_ctx_create(), err " +++ fmt_d err) ;;
        ret err
      else
        err <- pdn_ctx_configure cid "sakura" PDN_FAM_IPV4 ;;
        if nonzero err then
          LOG LOG_ERR ("Failed to pdn_ctx_configure(), err " +++ fmt_d err) ;;
          ret err
        else
          LOG LOG_DBG "Setting APN OK" ;;
          r <- for_range (Z.to_nat REGISTER_TRY) 0 connect_attempt ;;
          match r with
          | Some v => ret v
          | None =>
              LOG LOG_ERR "Faild to attach to LTE Network" ;;
              ret (-1)
          end.

(** *** File download *)

(** [uint8_t *buff] is the list of bytes found at [buff]; reading past
    its end has no meaning in C and is never done when [len] does not
    exceed its length. *)
Definition cb_fileDownload (buff : list byte) (len : Z) : M Z :=
  for_range (R := unit) (Z.to_nat len) 0
    (fun i =>
       UartBrokerPrint (fmt_02x (nth (Z.to_nat i) buff x00)) ;;
       ret None) ;;
  (if len <? sizeof_work_buff then UartBrokerPuts CRLF else ret tt) ;;
  ret 0.

(** *** [main] *)

(** The retry loop around [SipfAuthRequest]: [inr err] is [break] with
    the accepted status. *)
Definition auth_round (_ : unit) : M (unit + Z) :=
  UartBrokerPuts ("Set AuthMode to `SIM Auth'... " +++ CRLF) ;;
  g <- get_globals ;;
  err <- SipfAuthRequest (sizeof (user_name g)) (sizeof (user_name g)) ;;
  LOG LOG_DBG ("SipfAuthRequest(): " +++ fmt_d err) ;;
  if err <? 0 then
    UartBrokerPuts ("faild(Retry after 10s)" +++ CRLF) ;;
    k_sleep 10000 ;;
    ret (inl tt)
  else
    UartBrokerPuts ("OK" +++ CRLF) ;;
    ret (inr err).

(** One round of the operational loop on [(ms_timeout, btn_prev)]. *)
Definition operate_round (s : Z * Z) : M (Z * Z + unit) :=
  let ms_timeout := fst s in
  let btn_prev := snd s in
  ms_now <- k_uptime_get ;;
  ms_timeout <-
    (if wrap_s64 (ms_timeout - ms_now) <? 0 then
       gpio_pin_toggle_dt led_state ;;
       ret (wrap_s64 (ms_now + LED_HEARTBEAT_MS))
     else ret ms_timeout) ;;
  btn_val <- gpio_pin_get_dt btn_send ;;
  btn_prev <-
    (if btn_val <? 0 then
       LOG LOG_ERR "button_read() failed." ;;
       ret btn_prev
     else
       (if (btn_prev =? 0) && (btn_val =? 1) then
          UartBrokerPuts ("File download Button Pushed" +++ CRLF) ;;
          gpio_pin_set_dt led_state 1 ;;
          recv_len <- SipfFileDownload "sipf_file_sample.txt" sizeof_work_buff
                        cb_fileDownload ;;
          (if recv_len <? 0 then UartBrokerPuts ("FAILED" +++ CRLF)
           else UartBrokerPrint ("Received: " +++ fmt_d recv_len +++ " bytes." +++ CRLF)) ;;
          gpio_pin_set_dt led_state 0
        else ret tt) ;;
       ret btn_val) ;;
  k_sleep 10 ;;
  ret (inl (ms_timeout, btn_prev)).

(** One round of the loop at the [err:] label. *)
Definition err_round (_ : unit) : M (unit + unit) :=
  gpio_pin_toggle_dt led_boot ;;
  k_sleep 100 ;;
  ret (inl tt).

(** [goto err]. *)
Definition err_label (fuel : nat) : M phase :=
  forever fuel err_round tt ;;
  ret ErrorIndicator.

Definition banner : M unit :=
  UartBrokerPrint ("*** SIPF SDK Sample for nRFConnect" +++ CRLF) ;;
  match CONFIG_LTE_LOCK_PLMN bld with
  | Some plmn => UartBrokerPuts ("* PLMN: " +++ plmn +++ CRLF)
  | None => ret tt
  end ;;
  (if CONFIG_SIPF_AUTH_DISABLE_SSL bld
   then UartBrokerPuts ("* Disable SSL, AUTH endpoint." +++ CRLF) else ret tt) ;;
  (if CONFIG_SIPF_CONNECTOR_DISABLE_SSL bld
   then UartBrokerPuts ("* Disable SSL, CONNECTOR endpoint." +++ CRLF) else ret tt).

(** Everything of [main] after [SipfClientHttpSetAuthInfo] succeeded. *)
Definition operate (fuel : nat) : M phase :=
  UartBrokerPuts ("+++ Ready +++" +++ CRLF) ;;
  gpio_pin_set_dt led_state 1 ;;
  now <- k_uptime_get ;;
  forever fuel operate_round (wrap_s64 (now + LED_HEARTBEAT_MS), 0) ;;
  ret Operational.

(** [main], with each of its endless loops unfolded [fuel] times. *)
Definition main (fuel : nat) : M phase :=
  UartBrokerInit ;;
  banner ;;
  _ <- led_init ;;
  gpio_pin_set_dt led_boot 1 ;;
  b <- button_init ;;
  if nonzero b then
    gpio_pin_set_dt led_boot 0 ;;
    err_label fuel
  else
    err <- init_modem_and_lte ;;
    if nonzero err then err_label fuel
    else
      a <- forever fuel auth_round tt ;;
      match a with
      | inl _ => ret Authenticating
      | inr _ =>
          err <- SipfClientHttpSetAuthInfo ;;
          if err <? 0 then err_label fuel
          else operate fuel
      end.

End Firmware.

(** ** Vocabulary of the properties *)

(** The sixteen lowercase hexadecimal digits. *)
Definition hex_digit (n : N) : ascii :=
  nth (N.to_nat n) (list_ascii_of_string "0123456789abcdef") "?"%char.

(** A byte as the text says it: high nibble, then low nibble. *)
Definition hex_of_byte (b : byte) : string :=
  String (hex_digit (Byte.to_N b / 16))
    (String (hex_digit (Byte.to_N b mod 16)) EmptyString).

(** A chunk as text: its bytes in order, two digits each. *)
Fixpoint hex_text (l : list byte) : string :=
  match l with
  | [] => ""
  | b :: l' => hex_of_byte b +++ hex_text l'
  end.

Definition is_lower_hex (c : ascii) : bool :=
  let n := nat_of_ascii c in
  ((48 <=? n)%nat && (n <=? 57)%nat) || ((97 <=? n)%nat && (n <=? 102)%nat).

Definition is_lte_init (e : event) : bool :=
  match e with EvLteLcInit _ => true | _ => false end.
Definition is_sem_take (e : event) : bool :=
  match e with EvSemTake _ _ => true | _ => false end.
Definition is_key_write (e : event) : bool :=
  match e with EvKeyWrite _ _ _ _ _ => true | _ => false end.
Definition is_auth_request (e : event) : bool :=
  match e with EvSipfAuthRequest _ _ _ _ _ => true | _ => false end.
Definition is_set_auth (e : event) : bool :=
  match e with EvSipfClientHttpSetAuthInfo _ _ _ => true | _ => false end.
Definition is_download (e : event) : bool :=
  match e with EvSipfFileDownload _ _ => true | _ => false end.
Definition is_button_read (e : event) : bool :=
  match e with EvGpioPinGet btn_send _ => true | _ => false end.

(** How many events of a kind a trace holds. *)
Definition count (p : event -> bool) (t : trace) : nat :=
  List.length (filter p t).

(** ** The LTE event handler *)

(** The enumerators of [lte_lc.h] that [lte_handler] names.  The header is
    not among the sources, so their numbers are left open: the handler
    compares numbers, whatever they are. *)
Record lte_lc_h := mkLteLcH {
  LTE_LC_EVT_NW_REG_STATUS : Z;
  LTE_LC_EVT_CELL_UPDATE : Z;
  LTE_LC_EVT_LTE_MODE_UPDATE : Z;
  LTE_LC_EVT_MODEM_EVENT : Z;
  LTE_LC_NW_REG_SEARCHING : Z;
  LTE_LC_NW_REG_REGISTERED_HOME : Z;
  LTE_LC_NW_REG_REGISTERED_ROAMING : Z
}.

(** [struct lte_lc_evt] as [lte_handler] reads it: the number in [type],
    and what stands in each member of the union that the handler prints
    (it reads a member only under the [case] of its own type). *)
Record lte_lc_evt := mkLteLcEvt {
  evt_type : Z;
  evt_nw_reg_status : Z;
  evt_cell_mcc : Z;
  evt_cell_mnc : Z;
  evt_lte_mode : Z;
  evt_modem_evt : Z
}.

(** What the handler does, in order.  It runs in the context that delivers
    the LTE events, so this is a list of its own. *)
Inductive handler_call :=
| HandlerLog (lvl : log_level) (text : string)
| HandlerUartBrokerPrint (text : string)
| HandlerSemGive.

Definition LF : string := String (ascii_of_nat 10) EmptyString.

(** [lte_handler].  The [switch] is the chain of comparisons of
    [evt->type] with its labels (which C wants pairwise distinct), in the
    order of the source. *)
Definition lte_handler (hdr : lte_lc_h) (evt : lte_lc_evt) : list handler_call :=
  HandlerLog LOG_DBG ("evt->type=" +++ fmt_d (evt_type evt))
  :: (if evt_type evt =? LTE_LC_EVT_NW_REG_STATUS hdr then
        HandlerLog LOG_DBG
          ("- evt->nw_reg_status=" +++ fmt_d (evt_nw_reg_status evt) +++ LF)
        :: (if evt_nw_reg_status evt =? LTE_LC_NW_REG_SEARCHING hdr then
              [HandlerUartBrokerPrint ("SEARCHING" +++ CRLF)]
            else if (evt_nw_reg_status evt =? LTE_LC_NW_REG_REGISTERED_HOME hdr)
                    || (evt_nw_reg_status evt =? LTE_LC_NW_REG_REGISTERED_ROAMING hdr)
            then
              [HandlerUartBrokerPrint ("REGISTERD" +++ CRLF); HandlerSemGive]
            else [])
      else if evt_type evt =? LTE_LC_EVT_CELL_UPDATE hdr then
        [HandlerLog LOG_DBG ("- mcc=" +++ fmt_d (evt_cell_mcc evt)
                             +++ ", mnc=" +++ fmt_d (evt_cell_mnc evt))]
      else if evt_type evt =? LTE_LC_EVT_LTE_MODE_UPDATE hdr then
        [HandlerLog LOG_DBG ("- evt->lte_mode=" +++ fmt_d (evt_lte_mode evt))]
      else if evt_type evt =? LTE_LC_EVT_MODEM_EVENT hdr then
        [HandlerLog LOG_DBG ("- evt->modem_evt=" +++ fmt_d (evt_modem_evt evt))]
      else []).

(** [at_comms_init]. *)
Definition at_comms_init : Z := 0.

(** The console text of a run of the handler. *)
Fixpoint handler_console (calls : list handler_call) : string :=
  match calls with
  | [] => ""
  | HandlerUartBrokerPrint s :: rest => s +++ handler_console rest
  | _ :: rest => handler_console rest
  end.

(** The permits the handler gives to [lte_connected]. *)
Fixpoint permits_given (calls : list handler_call) : nat :=
  match calls with
  | [] => 0%nat
  | HandlerSemGive :: rest => S (permits_given rest)
  | _ :: rest => permits_given rest
  end.

(** The events that report the searching status. *)
Definition reports_searching (hdr : lte_lc_h) (evt : lte_lc_evt) : bool :=
  (evt_type evt =? LTE_LC_EVT_NW_REG_STATUS hdr)
  && (evt_nw_reg_status evt =? LTE_LC_NW_REG_SEARCHING hdr).

(** The events that report a registration, at home or roaming (and not the
    searching status, which the handler tests first). *)
Definition reports_registration (hdr : lte_lc_h) (evt : lte_lc_evt) : bool :=
  (evt_type evt =? LTE_LC_EVT_NW_REG_STATUS hdr)
  && negb (evt_nw_reg_status evt =? LTE_LC_NW_REG_SEARCHING hdr)
  && ((evt_nw_reg_status evt =? LTE_LC_NW_REG_REGISTERED_HOME hdr)
      || (evt_nw_reg_status evt =? LTE_LC_NW_REG_REGISTERED_ROAMING hdr)).

(** The line an event brings to the console. *)
Definition handler_line (hdr : lte_lc_h) (evt : lte_lc_evt) : string :=
  if reports_searching hdr evt then "SEARCHING" +++ CRLF
  else if reports_registration hdr evt then "REGISTERD" +++ CRLF
  else "".

(** [lte_handler] over the events of a session, in order. *)
Definition handle_all (hdr : lte_lc_h) (evts : list lte_lc_evt)
  : list handler_call :=
  flat_map (lte_handler hdr) evts.

(** Numbers as a release of the SDK's [lte_lc.h] gives them. *)
Definition sdk_numbers : lte_lc_h :=
  {| LTE_LC_EVT_NW_REG_STATUS := 0;
     LTE_LC_EVT_CELL_UPDATE := 4;
     LTE_LC_EVT_LTE_MODE_UPDATE := 5;
     LTE_LC_EVT_MODEM_EVENT := 11;
     LTE_LC_NW_REG_SEARCHING := 2;
     LTE_LC_NW_REG_REGISTERED_HOME := 1;
     LTE_LC_NW_REG_REGISTERED_ROAMING := 5 |}.

(** A registration status [st], the other members zero. *)
Definition nw_reg_status_evt (hdr : lte_lc_h) (st : Z) : lte_lc_evt :=
  {| evt_type := LTE_LC_EVT_NW_REG_STATUS hdr;
     evt_nw_reg_status := st;
     evt_cell_mcc := 0; evt_cell_mnc := 0; evt_lte_mode := 0; evt_modem_evt := 0 |}.

Definition is_keystore (e : event) : bool :=
  match e with
  | EvKeyExists _ _ _ _ | EvKeyDelete _ _ _ | EvKeyWrite _ _ _ _ _ => true
  | _ => false
  end.

(** The key-store traffic of a trace, in order. *)
Definition keystore_events (t : trace) : trace := filter is_keystore t.

(** The levels the button was successfully read at, in order: a read that
    reports an error (negative) shows no level. *)
Fixpoint button_levels (t : trace) : list Z :=
  match t with
  | [] => []
  | EvGpioPinGet btn_send v :: t' =>
      if v <? 0 then button_levels t' else v :: button_levels t'
  | _ :: t' => button_levels t'
  end.

(** Rising edges (a 0 followed by a 1) in a sequence of levels that comes
    after level [prev]. *)
Fixpoint rising_edges (prev : Z) (levels : list Z) : nat :=
  match levels with
  | [] => 0%nat
  | v :: rest =>
      if (prev =? 0) && (v =? 1) then S (rising_edges v rest)
      else rising_edges v rest
  end.

(** The library calls of [init_modem_and_lte] whose status it returns to
    its caller follow the negative-errno convention: 0, or a negative
    code. *)
Definition negative_errno (env : Env) : Prop :=
  (forall h, env_nrf_modem_lib_init env h <= 0) /\
  (forall h tag ty, fst (env_modem_key_mgmt_exists env h tag ty) <= 0) /\
  (forall h tag ty buf len, env_modem_key_mgmt_write env h tag ty buf len <= 0) /\
  (forall h, fst (env_pdn_ctx_create env h) <= 0) /\
  (forall h cid apn fam, env_pdn_ctx_configure env h cid apn fam <= 0) /\
  (forall h, env_lte_lc_init env h <= 0) /\
  (forall h, env_lte_lc_connect_async env h <= 0) /\
  (forall h ms, env_k_sem_take env h ms <= 0).

(** What one failed round of the authentication loop leaves in the trace:
    the request, the retry notice, the 10 s back-off. *)
Definition auth_retry_block (cap : Z) (a : Z * list byte * list byte) : trace :=
  let '(st, u, p) := a in
  [ EvUartBrokerPuts ("Set AuthMode to `SIM Auth'... " +++ CRLF);
    EvSipfAuthRequest cap cap st u p;
    EvLog LOG_DBG ("SipfAuthRequest(): " +++ fmt_d st);
    EvUartBrokerPuts ("faild(Retry after 10s)" +++ CRLF);
    EvSleep 10000 ].

(** What the accepted round leaves. *)
Definition auth_ok_block (cap : Z) (a : Z * list byte * list byte) : trace :=
  let '(st, u, p) := a in
  [ EvUartBrokerPuts ("Set AuthMode to `SIM Auth'... " +++ CRLF);
    EvSipfAuthRequest cap cap st u p;
    EvLog LOG_DBG ("SipfAuthRequest(): " +++ fmt_d st);
    EvUartBrokerPuts ("OK" +++ CRLF) ].

(** ** Sample environments *)

(** A bench on which everything answers success, except what the
    parameters script: which devices are ready, whether the key store holds
    an entry and how its deletion ends, and, per call number, how the
    semaphore wait, the authentication request and the button read end. *)
Definition bench (ready : gpio_dt_spec -> bool) (present : bool) (del : Z)
    (sem : nat -> Z) (auth : nat -> Z) (btn : nat -> Z) : Env :=
  {| env_device_is_ready := fun _ dev => ready dev;
     env_gpio_pin_get_dt := fun h _ => btn (count is_button_read h);
     env_k_uptime_get := fun h => 10 * Z.of_nat (List.length h);
     env_k_sem_take := fun h _ => sem (count is_sem_take h);
     env_nrf_modem_lib_init := fun _ => 0;
     env_modem_key_mgmt_exists := fun _ _ _ => (0, present);
     env_modem_key_mgmt_delete := fun _ _ _ => del;
     env_modem_key_mgmt_write := fun _ _ _ _ _ => 0;
     env_pdn_ctx_create := fun _ => (0, 1);
     env_pdn_ctx_configure := fun _ _ _ _ => 0;
     env_lte_lc_init := fun _ => 0;
     env_lte_lc_connect_async := fun _ => 0;
     env_lte_lc_psm_req := fun _ _ => 0;
     env_SipfAuthRequest := fun h _ _ =>
       (auth (count is_auth_request h), [x75; x31; x00], [x70; x31; x00]);
     env_SipfClientHttpSetAuthInfo := fun _ _ _ => 0;
     env_SipfFileDownload := fun _ _ _ => ([([x68; x69], 2)], 2) |}.

Definition all_ready (_ : gpio_dt_spec) : bool := true.

(** Everything works at the first try; the button is pressed at the
    second read and held. *)
Definition happy_env : Env :=
  bench all_ready false 0 (fun _ => 0) (fun _ => 0)
        (fun k => if (k <? 1)%nat then 0 else 1).

(** The first attach attempt times out, the second one registers. *)
Definition slow_attach_env : Env :=
  bench all_ready true 0 (fun k => if (k <? 1)%nat then - EAGAIN else 0)
        (fun _ => 0) (fun _ => 0).

(** The first two authentication requests are refused. *)
Definition auth_flap_env : Env :=
  bench all_ready false 0 (fun _ => 0)
        (fun k => if (k <? 2)%nat then -1 else 0) (fun _ => 0).

(** The boot LED's port is not ready; everything else works. *)
Definition led_down_env : Env :=
  bench (fun dev => match dev with led_boot => false | _ => true end)
        false 0 (fun _ => 0) (fun _ => 0) (fun _ => 0).

(** The button is pressed, then one read fails while it is still held. *)
Definition glitch_env : Env :=
  bench all_ready false 0 (fun _ => 0) (fun _ => 0)
        (fun k => if (k <? 1)%nat then 1 else if (k <? 2)%nat then - 5 else 1).

(** A build whose certificate file holds [pem], as a string literal. *)
Definition sample_pem : list byte := [x2d; x2d; x2d; x41; x0a].
Definition sample_build : build :=
  {| cert := sample_pem ++ [x00];
     CONFIG_LTE_LOCK_PLMN := None;
     CONFIG_SIPF_AUTH_DISABLE_SSL := false;
     CONFIG_SIPF_CONNECTOR_DISABLE_SSL := false |}.

(** The modem library reports a positive status at its initialization;
    everything else works. *)
Definition modem_fault_env : Env :=
  {| env_device_is_ready := env_device_is_ready happy_env;
     env_gpio_pin_get_dt := env_gpio_pin_get_dt happy_env;
     env_k_uptime_get := env_k_uptime_get happy_env;
     env_k_sem_take := env_k_sem_take happy_env;
     env_nrf_modem_lib_init := fun _ => 7;
     env_modem_key_mgmt_exists := env_modem_key_mgmt_exists happy_env;
     env_modem_key_mgmt_delete := env_modem_key_mgmt_delete happy_env;
     env_modem_key_mgmt_write := env_modem_key_mgmt_write happy_env;
     env_pdn_ctx_create := env_pdn_ctx_create happy_env;
     env_pdn_ctx_configure := env_pdn_ctx_configure happy_env;
     env_lte_lc_init := env_lte_lc_init happy_env;
     env_lte_lc_connect_async := env_lte_lc_connect_async happy_env;
     env_lte_lc_psm_req := env_lte_lc_psm_req happy_env;
     env_SipfAuthRequest := env_SipfAuthRequest happy_env;
     env_SipfClientHttpSetAuthInfo := env_SipfClientHttpSetAuthInfo happy_env;
     env_SipfFileDownload := env_SipfFileDownload happy_env |}.

(** No attach attempt ever registers. *)
Definition no_network_env : Env :=
  bench all_ready false 0 (fun _ => - EAGAIN) (fun _ => 0) (fun _ => 0).

(** The key store holds an entry under the tag and refuses to delete it;
    everything else works. *)
Definition stuck_entry_env : Env :=
  bench all_ready true (- 5) (fun _ => 0) (fun _ => 0) (fun _ => 0).

(** Every authentication request is refused. *)
Definition refusing_env : Env :=
  bench all_ready false 0 (fun _ => 0) (fun _ => -1) (fun _ => 0).

(** A computation that produces no event of kind [p]. *)
Definition silent {A} (p : event -> bool) (m : M A) : Prop :=
  forall h g, filter p (events (m h g)) = [].

(** A computation that leaves the file-scope buffers alone. *)
Definition frame {A} (m : M A) : Prop :=
  forall h g, final (m h g) = g.

Definition is_credential (e : event) : bool :=
  is_auth_request e || is_set_auth e.

(** The credential traffic of a trace: authentication requests and the
    hand-off to the HTTP client, in order. *)
Definition credential_events (t : trace) : trace := filter is_credential t.

(** The request event of an answer [a] of the authentication service. *)
Definition auth_request_event (cap : Z) (a : Z * list byte * list byte) : event :=
  EvSipfAuthRequest cap cap (fst (fst a)) (snd (fst a)) (snd a).

(** A wait on [lte_connected] that ended without the permit. *)
Definition is_timeout (e : event) : bool :=
  match e with EvSemTake _ r => r =? - EAGAIN | _ => false end.

(** A wait on [lte_connected] that got the permit: the modem registered. *)
Definition is_granted (e : event) : bool :=
  match e with EvSemTake _ r => r =? 0 | _ => false end.

(** What round [i] of the CONNECT loop leaves in the trace up to its call
    of [lte_lc_connect_async], when [lte_lc_init] succeeds. *)
Definition attempt_prefix (i : Z) : trace :=
  [ EvLog LOG_DBG "Initialize LTE";
    EvLteLcInit 0;
    EvLog LOG_DBG "Initialize LTE OK";
    EvLteLcModemEventsEnable;
    EvLog LOG_INF ("[" +++ fmt_d i +++ "] Trying to attach to LTE network (TIMEOUT: "
                   +++ fmt_d REGISTER_TIMEOUT_MS +++ " ms)");
    EvUartBrokerPrint ("Trying to attach to LTE network (TIMEOUT: "
                       +++ fmt_d REGISTER_TIMEOUT_MS +++ " ms)" +++ CRLF) ].

(** A round that timed out. *)
Definition timeout_block (i : Z) : trace :=
  attempt_prefix i ++
  [ EvLteLcConnectAsync 0;
    EvSemTake REGISTER_TIMEOUT_MS (- EAGAIN);
    EvUartBrokerPrint ("TIMEOUT" +++ CRLF);
    EvLteLcOffline;
    EvLteLcDeinit ].

(** A round that returned [v]: how it can have ended. *)
Inductive final_block (i : Z) : Z -> trace -> Prop :=
| FbInit e :
    e <> 0 ->
    final_block i e
      [ EvLog LOG_DBG "Initialize LTE"; EvLteLcInit e;
        EvLog LOG_ERR ("Failed to initializes the modem, err " +++ fmt_d e) ]
| FbConnect e :
    e <> 0 ->
    final_block i e
      (attempt_prefix i ++
       [ EvLteLcConnectAsync e;
         EvLog LOG_ERR ("Failed to attatch to the LTE network, err " +++ fmt_d e) ])
| FbRegistered psm :
    final_block i 0
      (attempt_prefix i ++
       [ EvLteLcConnectAsync 0; EvSemTake REGISTER_TIMEOUT_MS 0;
         EvLteLcPsmReq true psm;
         if negb (psm =? 0)
         then EvLog LOG_ERR ("PSM request failed, error: " +++ fmt_d psm)
         else EvLog LOG_DBG "PSM is enabled" ])
| FbWait e :
    e <> 0 -> e <> - EAGAIN ->
    final_block i e
      (attempt_prefix i ++
       [ EvLteLcConnectAsync 0; EvSemTake REGISTER_TIMEOUT_MS e ]).

(** The rounds [i], [i + 1], ..., [i + k - 1]. *)
Definition rounds (i : Z) (k : nat) : list Z :=
  map (fun j => i + Z.of_nat j) (seq 0 k).

(** After every timed-out wait the trace goes on with the notice, then
    [lte_lc_offline], then [lte_lc_deinit]. *)
Definition timeouts_recovered (t : trace) : Prop :=
  forall pre e post,
    t = pre ++ e :: post -> is_timeout e = true ->
    exists rest,
      post = EvUartBrokerPrint ("TIMEOUT" +++ CRLF) :: EvLteLcOffline :: EvLteLcDeinit :: rest.

(** The statuses a computation can return. *)
Definition returns {A} (m : M A) (Q : A -> Prop) : Prop :=
  forall h g, Q (result (m h g)).

(** The attach traffic: [lte_lc_init] calls and waits on [lte_connected]. *)
Definition is_attach (e : event) : bool := is_lte_init e || is_sem_take e.

(** What a run of the bring-up that returned [v] shows of attach traffic:
    at most [budget] attempts and waits, and a granted wait exactly when
    [v] is 0. *)
Definition attach_summary (budget : nat) (v : Z) (t : trace) : Prop :=
  (count is_lte_init t <= budget)%nat /\
  (count is_sem_take t <= budget)%nat /\
  count is_granted t = (if v =? 0 then 1%nat else 0%nat).

(** The button traffic: reads of the button and download requests. *)
Definition is_button_traffic (e : event) : bool :=
  is_download e || is_button_read e.

(** The steps of the authentication loop that show on the console, at the
    service and on the clock: the three console lines of the loop, the
    requests, and the 10 s back-off. *)
Definition is_auth_step (e : event) : bool :=
  match e with
  | EvSipfAuthRequest _ _ _ _ _ => true
  | EvSleep ms => ms =? 10000
  | EvUartBrokerPuts s =>
      String.eqb s ("Set AuthMode to `SIM Auth'... " +++ CRLF)
      || String.eqb s ("faild(Retry after 10s)" +++ CRLF)
      || String.eqb s ("OK" +++ CRLF)
  | _ => false
  end.

Definition auth_steps (t : trace) : trace := filter is_auth_step t.

(** The steps of a refused round: the request, the retry notice and the
    back-off. *)
Definition auth_retry_steps (cap : Z) (a : Z * list byte * list byte) : trace :=
  let '(st, u, p) := a in
  [ EvUartBrokerPuts ("Set AuthMode to `SIM Auth'... " +++ CRLF);
    EvSipfAuthRequest cap cap st u p;
    EvUartBrokerPuts ("faild(Retry after 10s)" +++ CRLF);
    EvSleep 10000 ].

(** The steps of the accepted round. *)
Definition auth_ok_steps (cap : Z) (a : Z * list byte * list byte) : trace :=
  let '(st, u, p) := a in
  [ EvUartBrokerPuts ("Set AuthMode to `SIM Auth'... " +++ CRLF);
    EvSipfAuthRequest cap cap st u p;
    EvUartBrokerPuts ("OK" +++ CRLF) ].

(** The registration and the steps of the authentication loop. *)
Definition is_auth_phase (e : event) : bool := is_granted e || is_auth_step e.

(** ** More vocabulary: boot milestones, heartbeat, download reports *)

(** The line that announces the operational phase. *)
Definition ready_line : string := "+++ Ready +++" +++ CRLF.

Definition is_ready_print (e : event) : bool :=
  match e with EvUartBrokerPuts s => String.eqb s ready_line | _ => false end.

(** The milestones of a boot: the certificate write, the registration, the
    authentication requests, the credential hand-off, the Ready line and
    the download requests. *)
Definition is_milestone (e : event) : bool :=
  is_key_write e || is_granted e || is_auth_request e || is_set_auth e
  || is_ready_print e || is_download e.

Definition milestones (t : trace) : trace := filter is_milestone t.

(** The write of the certificate as [cert_provision] issues it. *)
Definition cert_write_event (bld : build) (err : Z) : event :=
  EvKeyWrite TLS_SEC_TAG MODEM_KEY_MGMT_CRED_TYPE_CA_CHAIN (cert bld)
    (wrap_size_t (sizeof_cert bld - 1)) err.

(** The wait that got the permit. *)
Definition registered_event : event := EvSemTake REGISTER_TIMEOUT_MS 0.

(** The download request of the operational loop. *)
Definition download_event : event :=
  EvSipfFileDownload "sipf_file_sample.txt" sizeof_work_buff.

(** What the milestones of a boot can be, by the phase [main] is in:
    the terminal error loop is entered with nothing, with the certificate
    write alone, or after a refused hand-off; authentication and operation
    come after a successful write and a registration. *)
Definition boot_milestones (bld : build) (cap : Z) (ph : phase) (ms : trace) : Prop :=
  match ph with
  | ErrorIndicator =>
      ms = [] \/
      (exists w, ms = [cert_write_event bld w]) \/
      (exists fails st u p sr,
          sr < 0 /\ 0 <= st /\
          ms = [cert_write_event bld 0; registered_event]
               ++ map (auth_request_event cap) fails
               ++ [EvSipfAuthRequest cap cap st u p;
                   EvSipfClientHttpSetAuthInfo u p sr])
  | Authenticating =>
      exists fails,
        ms = [cert_write_event bld 0; registered_event]
             ++ map (auth_request_event cap) fails
  | Operational =>
      exists fails st u p sr k,
        0 <= sr /\ 0 <= st /\
        ms = [cert_write_event bld 0; registered_event]
             ++ map (auth_request_event cap) fails
             ++ [EvSipfAuthRequest cap cap st u p;
                 EvSipfClientHttpSetAuthInfo u p sr;
                 EvUartBrokerPuts ready_line]
             ++ repeat download_event k
  end.

(** The milestones of the bring-up alone, by its return value. *)
Definition bringup_milestones (bld : build) (v : Z) (ms : trace) : Prop :=
  (v <> 0 /\ (ms = [] \/ exists w, ms = [cert_write_event bld w])) \/
  (v = 0 /\ ms = [cert_write_event bld 0; registered_event]).

(** [n] rounds of the loop at [err:]. *)
Definition blink (n : nat) : trace :=
  List.concat (repeat [EvGpioPinToggle led_boot; EvSleep 100] n).

(** Signs of the operational phase: the Ready line, any drive of the state
    LED, any download request. *)
Definition is_operational_sign (e : event) : bool :=
  match e with
  | EvGpioPinSet led_state _ | EvGpioPinToggle led_state => true
  | _ => is_ready_print e || is_download e
  end.

(** The button's port is not ready; everything else works. *)
Definition button_down_env : Env :=
  bench (fun dev => match dev with btn_send => false | _ => true end)
        false 0 (fun _ => 0) (fun _ => 0) (fun _ => 0).

(** The heartbeat traffic: readings of the clock and toggles of the state
    LED. *)
Definition is_heartbeat (e : event) : bool :=
  match e with
  | EvUptimeGet _ | EvGpioPinToggle led_state => true
  | _ => false
  end.

(** The clock readings at which the state LED was toggled: each toggle is
    dated by the latest reading before it ([latest] when there is none). *)
Fixpoint toggle_times (latest : Z) (t : trace) : list Z :=
  match t with
  | [] => []
  | EvUptimeGet now :: t' => toggle_times now t'
  | EvGpioPinToggle led_state :: t' => latest :: toggle_times latest t'
  | _ :: t' => toggle_times latest t'
  end.

(** Each time lies after the deadline in force, and moves the deadline to
    [LED_HEARTBEAT_MS] after itself. *)
Fixpoint spaced (deadline : Z) (times : list Z) : Prop :=
  match times with
  | [] => True
  | t :: rest => deadline < t /\ spaced (t + LED_HEARTBEAT_MS) rest
  end.

(** Every clock reading of the trace is a plausible uptime: non-negative
    and far from the end of [int64_t]. *)
Definition uptime_in_range (t : trace) : bool :=
  forallb (fun e => match e with
                    | EvUptimeGet now => (0 <=? now) && (now <? 2 ^ 62)
                    | _ => true
                    end) t.

(** A chunk as the library hands it to the callback: the bytes at [buff]
    and the length [len], which does not exceed them. *)
Definition well_formed_chunk (c : list byte * Z) : Prop :=
  0 <= snd c <= Z.of_nat (List.length (fst c)).

(** The text of one chunk: its bytes in hexadecimal, and a CR-LF when it
    is shorter than [work_buff]. *)
Definition chunk_text (c : list byte * Z) : string :=
  hex_text (firstn (Z.to_nat (snd c)) (fst c))
  +++ (if snd c <? sizeof_work_buff then CRLF else "").

Fixpoint chunks_text (cs : list (list byte * Z)) : string :=
  match cs with
  | [] => ""
  | c :: cs' => chunk_text c +++ chunks_text cs'
  end.

Definition is_console (e : event) : bool :=
  match e with
  | EvUartBrokerPrint _ | EvUartBrokerPuts _ => true
  | _ => false
  end.

(** The line that reports how a download ended. *)
Definition download_report (recv_len : Z) : event :=
  if recv_len <? 0 then EvUartBrokerPuts ("FAILED" +++ CRLF)
  else EvUartBrokerPrint ("Received: " +++ fmt_d recv_len +++ " bytes." +++ CRLF).

(** The calls into the LTE link controller and the waits for registration. *)
Definition is_lte_control (e : event) : bool :=
  match e with
  | EvLteLcInit _ | EvLteLcModemEventsEnable | EvLteLcConnectAsync _
  | EvSemTake _ _ | EvLteLcOffline | EvLteLcDeinit | EvLteLcPsmReq _ _ => true
  | _ => false
  end.

(** The LTE traffic of an attempt that timed out. *)
Definition lte_timeout_round : trace :=
  [ EvLteLcInit 0; EvLteLcModemEventsEnable; EvLteLcConnectAsync 0;
    EvSemTake REGISTER_TIMEOUT_MS (- EAGAIN); EvLteLcOffline; EvLteLcDeinit ].

(** The LTE traffic that ends a bring-up returning [v]: none (a failure
    before the loop, or the budget exhausted), or that of the attempt that
    returned. *)
Inductive lte_final : Z -> trace -> Prop :=
| LfNone v : v <> 0 -> lte_final v []
| LfInit e : e <> 0 -> lte_final e [EvLteLcInit e]
| LfConnect e :
    e <> 0 ->
    lte_final e [EvLteLcInit 0; EvLteLcModemEventsEnable; EvLteLcConnectAsync e]
| LfRegistered psm :
    lte_final 0 [ EvLteLcInit 0; EvLteLcModemEventsEnable; EvLteLcConnectAsync 0;
                  EvSemTake REGISTER_TIMEOUT_MS 0; EvLteLcPsmReq true psm ]
| LfWait e :
    e <> 0 -> e <> - EAGAIN ->
    lte_final e [ EvLteLcInit 0; EvLteLcModemEventsEnable; EvLteLcConnectAsync 0;
                  EvSemTake REGISTER_TIMEOUT_MS e ].

(** The LTE traffic of a bring-up that returned [v]: [k] timed-out attempts
    within the budget, then the final part. *)
Definition lte_protocol (budget : nat) (v : Z) (t : trace) : Prop :=
  exists k last,
    (k <= budget)%nat /\
    t = List.concat (repeat lte_timeout_round k) ++ last /\
    lte_final v last /\
    (last = [] \/ (k < budget)%nat).

Definition is_psm_req (e : event) : bool :=
  match e with EvLteLcPsmReq _ _ => true | _ => false end.

Definition is_recovery (e : event) : bool :=
  match e with EvLteLcOffline | EvLteLcDeinit => true | _ => is_timeout e end.

Definition is_connect_step (e : event) : bool :=
  match e with
  | EvLteLcInit _ | EvLteLcModemEventsEnable | EvLteLcConnectAsync _ => true
  | _ => false
  end.

(** Calls that reach the modem, the network or the cloud. *)
Definition is_network (e : event) : bool :=
  match e with
  | EvSemTake _ _ | EvNrfModemLibInit _
  | EvKeyExists _ _ _ _ | EvKeyDelete _ _ _ | EvKeyWrite _ _ _ _ _
  | EvPdnCtxCreate _ _ | EvPdnCtxConfigure _ _ _ _
  | EvLteLcInit _ | EvLteLcModemEventsEnable | EvLteLcConnectAsync _
  | EvLteLcOffline | EvLteLcDeinit | EvLteLcPsmReq _ _
  | EvSipfAuthRequest _ _ _ _ _ | EvSipfClientHttpSetAuthInfo _ _ _
  | EvSipfFileDownload _ _ | EvSipfFileDownloadDone _ => true
  | _ => false
  end.

(** The pacing traffic of the operational loop. *)
Definition is_pacing_sleep (e : event) : bool :=
  match e with EvSleep ms => ms =? 10 | _ => false end.

Definition is_uptime_read (e : event) : bool :=
  match e with EvUptimeGet _ => true | _ => false end.

(** The bench with a power-saving request that is refused. *)
Definition psm_refused_env : Env :=
  {| env_device_is_ready := env_device_is_ready happy_env;
     env_gpio_pin_get_dt := env_gpio_pin_get_dt happy_env;
     env_k_uptime_get := env_k_uptime_get happy_env;
     env_k_sem_take := env_k_sem_take happy_env;
     env_nrf_modem_lib_init := env_nrf_modem_lib_init happy_env;
     env_modem_key_mgmt_exists := env_modem_key_mgmt_exists happy_env;
     env_modem_key_mgmt_delete := env_modem_key_mgmt_delete happy_env;
     env_modem_key_mgmt_write := env_modem_key_mgmt_write happy_env;
     env_pdn_ctx_create := env_pdn_ctx_create happy_env;
     env_pdn_ctx_configure := env_pdn_ctx_configure happy_env;
     env_lte_lc_init := env_lte_lc_init happy_env;
     env_lte_lc_connect_async := env_lte_lc_connect_async happy_env;
     env_lte_lc_psm_req := fun _ _ => - 5;
     env_SipfAuthRequest := env_SipfAuthRequest happy_env;
     env_SipfClientHttpSetAuthInfo := env_SipfClientHttpSetAuthInfo happy_env;
     env_SipfFileDownload := env_SipfFileDownload happy_env |}.

(** The library calls of a trace: everything but the log lines. *)
Definition is_call (e : event) : bool :=
  match e with EvLog _ _ => false | _ => true end.

Definition calls (t : trace) : trace := filter is_call t.

(** The status a call answered with, for the calls that answer one. *)
Definition call_status (e : event) : option Z :=
  match e with
  | EvGpioPinGet _ s | EvSemTake _ s | EvNrfModemLibInit s
  | EvKeyExists _ _ s _ | EvKeyDelete _ _ s | EvKeyWrite _ _ _ _ s
  | EvPdnCtxCreate s _ | EvPdnCtxConfigure _ _ _ s
  | EvLteLcInit s | EvLteLcConnectAsync s | EvLteLcPsmReq _ s
  | EvSipfAuthRequest _ _ s _ _ | EvSipfClientHttpSetAuthInfo _ _ s
  | EvSipfFileDownloadDone s => Some s
  | _ => None
  end.

(** A run that ended with status [v] has its cause as its last call: a call
    that answered [v], or, for [-1], the [lte_lc_deinit] after the last
    timeout of the budget. *)
Definition caused_by_last_call (v : Z) (t : trace) : Prop :=
  exists pre e,
    calls t = pre ++ [e] /\
    (call_status e = Some v \/ (e = EvLteLcDeinit /\ v = -1)).

(** A computation whose non-zero status, read off its value by [st], is
    caused by its last call. *)
Definition reports_failure {A} (st : A -> Z) (m : M A) : Prop :=
  forall h g, st (result (m h g)) <> 0 ->
              caused_by_last_call (st (result (m h g))) (events (m h g)).

(** The status of the CONNECT loop: that of the round that returned, or
    the -1 that follows the loop. *)
Definition status_of_loop (o : option Z) : Z :=
  match o with Some v => v | None => -1 end.

(** The wait for the registration fails with a status of its own. *)
Definition wait_fault_env : Env :=
  bench all_ready false 0 (fun _ => -4) (fun _ => 0) (fun _ => 0).

(** Drives of the boot LED. *)
Definition is_boot_led_drive (e : event) : bool :=
  match e with
  | EvGpioPinSet led_boot _ | EvGpioPinToggle led_boot => true
  | _ => false
  end.

(** What the boot LED shows once [main] has reached a phase: lit, and in
    the loop at [err:] (entered with the LED put out when the button is
    not there) toggled once per round. *)
Definition boot_led_drives (fuel : nat) (ph : phase) (t : trace) : Prop :=
  match ph with
  | ErrorIndicator =>
      exists off,
        (off = [] \/ off = [EvGpioPinSet led_boot 0]) /\
        t = EvGpioPinSet led_boot 1 :: off ++ repeat (EvGpioPinToggle led_boot) fuel
  | _ => t = [EvGpioPinSet led_boot 1]
  end.

(** What [cert_provision] leaves in the trace before its write: the query
    of the key store, the deletion, and log lines. *)
Definition is_key_query (e : event) : bool :=
  match e with
  | EvKeyExists _ _ _ _ | EvKeyDelete _ _ _ | EvLog _ _ => true
  | _ => false
  end.

(** ** Reasoning about runs *)

Lemma bind_run {A B} (m : M A) (f : A -> M B) (h : trace) (g : globals) :
  bind m f h g =
  (result (f (result (m h g)) (h ++ events (m h g)) (final (m h g))),
   final (f (result (m h g)) (h ++ events (m h g)) (final (m h g))),
   events (m h g)
   ++ events (f (result (m h g)) (h ++ events (m h g)) (final (m h g)))).
Proof.
  unfold bind, result, final, events.
  destruct (m h g) as [[a g1] es1]. cbn [fst snd].
  destruct (f a (h ++ es1) g1) as [[b g2] es2]. reflexivity.
Qed.

Lemma bind_events {A B} (m : M A) (f : A -> M B) h g :
  events (bind m f h g) =
  events (m h g)
  ++ events (f (result (m h g)) (h ++ events (m h g)) (final (m h g))).
Proof. rewrite bind_run. reflexivity. Qed.

Lemma bind_result {A B} (m : M A) (f : A -> M B) h g :
  result (bind m f h g) =
  result (f (result (m h g)) (h ++ events (m h g)) (final (m h g))).
Proof. rewrite bind_run. reflexivity. Qed.

Lemma bind_final {A B} (m : M A) (f : A -> M B) h g :
  final (bind m f h g) =
  final (f (result (m h g)) (h ++ events (m h g)) (final (m h g))).
Proof. rewrite bind_run. reflexivity. Qed.

Lemma count_app (p : event -> bool) (t u : trace) :
  count p (t ++ u) = (count p t + count p u)%nat.
Proof. unfold count. now rewrite filter_app, length_app. Qed.

Lemma count_silent (p : event -> bool) (t : trace) :
  filter p t = [] -> count p t = 0%nat.
Proof. unfold count. now intros ->. Qed.

(** *** Silence is compositional *)

Lemma silent_ret {A} p (a : A) : silent p (ret a).
Proof. intros h g. reflexivity. Qed.

Lemma silent_emit p e : p e = false -> silent p (emit e).
Proof. intros H h g. cbn. now rewrite H. Qed.

Lemma silent_ask {A} p (answer : trace -> A) (ev : A -> event) :
  (forall r, p (ev r) = false) -> silent p (ask answer ev).
Proof. intros H h g. cbn. now rewrite H. Qed.

Lemma silent_get p : silent p get_globals.
Proof. intros h g. reflexivity. Qed.

Lemma silent_bind {A B} p (m : M A) (f : A -> M B) :
  silent p m -> (forall a, silent p (f a)) -> silent p (bind m f).
Proof.
  intros Hm Hf h g. rewrite bind_events, filter_app, Hm, Hf. reflexivity.
Qed.

Lemma silent_for_range {R} p (body : Z -> M (option R)) :
  (forall i, silent p (body i)) -> forall n i, silent p (for_range n i body).
Proof.
  intros Hb. induction n as [|n IH]; intros i; cbn [for_range].
  - apply silent_ret.
  - apply silent_bind; [apply Hb|]. intros [v|]; [apply silent_ret | apply IH].
Qed.

Lemma silent_forever {St R} p (body : St -> M (St + R)) :
  (forall s, silent p (body s)) -> forall fuel s, silent p (forever fuel body s).
Proof.
  intros Hb. induction fuel as [|n IH]; intros s; cbn [forever].
  - apply silent_ret.
  - apply silent_bind; [apply Hb|]. intros [s'|v]; [apply IH | apply silent_ret].
Qed.

Lemma silent_deliver p (cb : list byte -> Z -> M Z) :
  (forall buff len, silent p (cb buff len)) ->
  forall chunks, silent p (deliver cb chunks).
Proof.
  intros Hcb. induction chunks as [|[buff len] rest IH]; cbn [deliver].
  - apply silent_ret.
  - apply silent_bind; [apply Hcb | intros _; apply IH].
Qed.

Lemma silent_SipfAuthRequest env p ucap pcap :
  (forall st u q, p (EvSipfAuthRequest ucap pcap st u q) = false) ->
  silent p (SipfAuthRequest env ucap pcap).
Proof.
  intros H h g. unfold SipfAuthRequest.
  destruct (env_SipfAuthRequest env h ucap pcap) as [[st u] q].
  cbn. now rewrite H.
Qed.

Lemma silent_SipfClientHttpSetAuthInfo env p :
  (forall u q r, p (EvSipfClientHttpSetAuthInfo u q r) = false) ->
  silent p (SipfClientHttpSetAuthInfo env).
Proof. intros H h g. cbn. now rewrite H. Qed.

Lemma silent_SipfFileDownload env p name cap cb :
  p (EvSipfFileDownload name cap) = false ->
  (forall r, p (EvSipfFileDownloadDone r) = false) ->
  (forall buff len, silent p (cb buff len)) ->
  silent p (SipfFileDownload env name cap cb).
Proof.
  intros H1 H2 Hcb. unfold SipfFileDownload.
  apply silent_bind; [now apply silent_emit|]. intros _ h g.
  apply silent_bind; [now apply silent_deliver|]. intros _.
  apply silent_bind; [now apply silent_emit | intros _; apply silent_ret].
Qed.

(** Walks through a program and shows that it is silent for a kind of
    event that none of its calls produces. *)
Ltac silence :=
  repeat first
    [ apply silent_ret
    | apply silent_get
    | apply silent_emit; reflexivity
    | apply silent_ask; intros; reflexivity
    | apply silent_SipfAuthRequest; intros; reflexivity
    | apply silent_SipfClientHttpSetAuthInfo; intros; reflexivity
    | apply silent_SipfFileDownload; [reflexivity | intros; reflexivity | intros ]
    | apply silent_for_range; intros
    | apply silent_forever; intros
    | apply silent_bind; [ | intros ]
    | match goal with
      | |- silent _ (if ?c then _ else _) => destruct c
      | |- silent _ (match ?x with _ => _ end) => destruct x
      end
    | progress unfold LOG, UartBrokerInit, UartBrokerPrint, UartBrokerPuts,
        device_is_ready, gpio_pin_configure_dt, gpio_pin_set_dt,
        gpio_pin_toggle_dt, gpio_pin_get_dt, k_sleep, k_uptime_get, k_sem_take,
        nrf_modem_lib_init, modem_key_mgmt_exists, modem_key_mgmt_delete,
        modem_key_mgmt_write, pdn_ctx_create, pdn_ctx_configure, lte_lc_init,
        lte_lc_modem_events_enable, lte_lc_connect_async, lte_lc_offline,
        lte_lc_deinit, lte_lc_psm_req ].

Lemma silent_cb_fileDownload p buff len :
  (forall s, p (EvUartBrokerPrint s) = false) ->
  (forall s, p (EvUartBrokerPuts s) = false) ->
  silent p (cb_fileDownload buff len).
Proof.
  intros H1 H2. unfold cb_fileDownload, UartBrokerPrint, UartBrokerPuts.
  apply silent_bind; [apply silent_for_range; intros i|intros _].
  - apply silent_bind; [apply silent_emit, H1 | intros; apply silent_ret].
  - apply silent_bind; [|intros; apply silent_ret].
    destruct (len <? sizeof_work_buff); [apply silent_emit, H2 | apply silent_ret].
Qed.

Lemma silent_err_label p fuel :
  (forall d, p (EvGpioPinToggle d) = false) ->
  (forall ms, p (EvSleep ms) = false) ->
  silent p (err_label fuel).
Proof.
  intros H1 H2. unfold err_label, err_round, gpio_pin_toggle_dt, k_sleep.
  apply silent_bind; [apply silent_forever; intros s | intros; apply silent_ret].
  apply silent_bind; [apply silent_emit, H1 | intros _].
  apply silent_bind; [apply silent_emit, H2 | intros; apply silent_ret].
Qed.

Lemma filter_bind_silent {A B} p (m : M A) (f : A -> M B) h g :
  silent p m ->
  filter p (events (bind m f h g)) =
  filter p (events (f (result (m h g)) (h ++ events (m h g)) (final (m h g)))).
Proof. intros Hm. now rewrite bind_events, filter_app, Hm. Qed.

(** *** Leaving the buffers alone is compositional *)

Lemma frame_ret {A} (a : A) : frame (ret a).
Proof. intros h g. reflexivity. Qed.

Lemma frame_emit e : frame (emit e).
Proof. intros h g. reflexivity. Qed.

Lemma frame_ask {A} (answer : trace -> A) (ev : A -> event) : frame (ask answer ev).
Proof. intros h g. reflexivity. Qed.

Lemma frame_bind {A B} (m : M A) (f : A -> M B) :
  frame m -> (forall a, frame (f a)) -> frame (bind m f).
Proof. intros Hm Hf h g. rewrite bind_final, Hf, Hm. reflexivity. Qed.

Lemma frame_for_range {R} (body : Z -> M (option R)) :
  (forall i, frame (body i)) -> forall n i, frame (for_range n i body).
Proof.
  intros Hb. induction n as [|n IH]; intros i; cbn [for_range].
  - apply frame_ret.
  - apply frame_bind; [apply Hb|]. intros [v|]; [apply frame_ret | apply IH].
Qed.

Ltac framing :=
  repeat first
    [ apply frame_ret
    | apply frame_emit
    | apply frame_ask
    | apply frame_for_range; intros
    | apply frame_bind; [ | intros ]
    | match goal with
      | |- frame (if ?c then _ else _) => destruct c
      | |- frame (match ?x with _ => _ end) => destruct x
      end
    | progress unfold LOG, UartBrokerInit, UartBrokerPrint, UartBrokerPuts,
        device_is_ready, gpio_pin_configure_dt, gpio_pin_set_dt,
        gpio_pin_toggle_dt, gpio_pin_get_dt, k_sleep, k_uptime_get, k_sem_take,
        nrf_modem_lib_init, modem_key_mgmt_exists, modem_key_mgmt_delete,
        modem_key_mgmt_write, pdn_ctx_create, pdn_ctx_configure, lte_lc_init,
        lte_lc_modem_events_enable, lte_lc_connect_async, lte_lc_offline,
        lte_lc_deinit, lte_lc_psm_req ].

Lemma frame_init_modem_and_lte env bld : frame (init_modem_and_lte env bld).
Proof. unfold init_modem_and_lte, cert_provision, connect_attempt. framing. Qed.

Lemma frame_led_init env : frame (led_init env).
Proof. unfold led_init. framing. Qed.

Lemma frame_button_init env : frame (button_init env).
Proof. unfold button_init. framing. Qed.

Lemma frame_banner bld : frame (banner bld).
Proof. unfold banner. framing. Qed.

(** In a goal about [filter p (events (bind m f h g))], steps over [m] when
    it is silent for [p] and leaves the buffers alone; the history and the
    value handed to [f] become arbitrary. *)
Ltac skip_with silence_tac frame_tac :=
  match goal with
  | |- context [filter ?p (events (bind ?m ?f ?h ?g))] =>
      let Hs := fresh "Hs" in
      let Hf := fresh "Hf" in
      assert (Hs : silent p m) by silence_tac;
      assert (Hf : frame m) by frame_tac;
      rewrite (filter_bind_silent p m f h g Hs), (Hf h g);
      clear Hs Hf;
      generalize (result (m h g)); generalize (h ++ events (m h g));
      clear h; intros h ?; cbv beta
  end.

Ltac skip := skip_with ltac:(silence) ltac:(framing).

Lemma filter_bind_silent_r {A B} p (m : M A) (f : A -> M B) h g :
  (forall a, silent p (f a)) ->
  filter p (events (bind m f h g)) = filter p (events (m h g)).
Proof. intros Hf. now rewrite bind_events, filter_app, Hf, app_nil_r. Qed.

Lemma filter_filter_sub (p q : event -> bool) (t : trace) :
  (forall e, p e = true -> q e = true) ->
  filter p (filter q t) = filter p t.
Proof.
  intros Hpq. induction t as [|e t IH]; [reflexivity|]. cbn [filter].
  destruct (q e) eqn:Eq; cbn [filter]; destruct (p e) eqn:Ep; rewrite ?IH; try reflexivity.
  apply Hpq in Ep. congruence.
Qed.


(** A property of the value and of the [p]-events of [bind m f] follows
    from the same property of [f] alone when [m] shows no [p]-event and
    leaves the buffers alone. *)
Lemma skip_prefix {A B} p (m : M A) (f : A -> M B) (Q : B -> trace -> Prop) h g :
  silent p m -> frame m ->
  (forall a h', Q (result (f a h' g)) (filter p (events (f a h' g)))) ->
  Q (result (bind m f h g)) (filter p (events (bind m f h g))).
Proof.
  intros Hs Hf HQ. rewrite bind_result, (filter_bind_silent p m f h g Hs), (Hf h g).
  apply HQ.
Qed.

Lemma count_filter_sub (p q : event -> bool) (t : trace) :
  (forall e, p e = true -> q e = true) ->
  count p (filter q t) = count p t.
Proof. intros H. unfold count. now rewrite filter_filter_sub. Qed.

(** Like [skip_with], for goals that also speak of the value and of the
    final buffers of the [bind]. *)
Ltac skip_all_with silence_tac frame_tac :=
  match goal with
  | |- context [filter ?p (events (bind ?m ?f ?h ?g))] =>
      let Hs := fresh "Hs" in
      let Hf := fresh "Hf" in
      assert (Hs : silent p m) by silence_tac;
      assert (Hf : frame m) by frame_tac;
      rewrite ?(bind_result m f h g), ?(bind_final m f h g),
        (filter_bind_silent p m f h g Hs), ?(Hf h g);
      clear Hs Hf;
      generalize (result (m h g)); generalize (h ++ events (m h g));
      clear h; intros h ?; cbv beta
  end.

Ltac skip_all := skip_all_with ltac:(silence) ltac:(framing).

Lemma err_label_result fuel (h : trace) (g : globals) :
  result (err_label fuel h g) = ErrorIndicator.
Proof. unfold err_label. now rewrite bind_result. Qed.

Lemma operate_result env fuel (h : trace) (g : globals) :
  result (operate env fuel h g) = Operational.
Proof. unfold operate. now rewrite !bind_result. Qed.

Lemma skip_prefix_any {A B} p (m : M A) (f : A -> M B) (Q : B -> trace -> Prop) h g :
  silent p m ->
  (forall a h' g', Q (result (f a h' g')) (filter p (events (f a h' g')))) ->
  Q (result (bind m f h g)) (filter p (events (bind m f h g))).
Proof.
  intros Hs HQ. rewrite bind_result, (filter_bind_silent p m f h g Hs). apply HQ.
Qed.

Lemma err_label_events fuel (h : trace) (g : globals) :
  events (err_label fuel h g) = blink fuel.
Proof.
  unfold err_label. rewrite bind_events. cbn [ret events snd]. rewrite app_nil_r.
  revert h g. induction fuel as [|n IH]; intros h g; [reflexivity|].
  cbn [forever]. rewrite bind_events. unfold blink in *. cbn [repeat List.concat].
  f_equal. apply IH.
Qed.


(** ** Facts about lists and text *)

Lemma skipn_cons_inv {A} (d : A) :
  forall (k : nat) (l : list A) (b : A) (rest : list A),
    skipn k l = b :: rest -> nth k l d = b /\ skipn (S k) l = rest.
Proof.
  induction k as [|k IH]; intros [|x l] b rest E; simpl in E; try discriminate.
  - inversion E; subst; auto.
  - destruct (IH l b rest E) as [H1 H2]. split; [exact H1 | exact H2].
Qed.

Lemma fmt_02x_hex_of_byte (b : byte) : fmt_02x b = hex_of_byte b.
Proof. destruct b; reflexivity. Qed.

Lemma hex_of_byte_lower (b : byte) :
  forallb is_lower_hex (list_ascii_of_string (hex_of_byte b)) = true.
Proof. destruct b; reflexivity. Qed.

Lemma list_ascii_of_string_app (s t : string) :
  list_ascii_of_string (s +++ t) = list_ascii_of_string s ++ list_ascii_of_string t.
Proof. induction s as [|c s IH]; simpl; [reflexivity | now rewrite IH]. Qed.

Lemma string_length_app (s t : string) :
  String.length (s +++ t) = (String.length s + String.length t)%nat.
Proof. induction s as [|c s IH]; simpl; [reflexivity | now rewrite IH]. Qed.

Lemma hex_text_length (l : list byte) :
  String.length (hex_text l) = (2 * List.length l)%nat.
Proof. induction l as [|b l IH]; simpl; [reflexivity | rewrite IH; lia]. Qed.

Lemma hex_text_lower (l : list byte) :
  forallb is_lower_hex (list_ascii_of_string (hex_text l)) = true.
Proof.
  induction l as [|b l IH]; [reflexivity|].
  cbn [hex_text]. rewrite list_ascii_of_string_app, forallb_app, IH.
  now rewrite hex_of_byte_lower.
Qed.

Lemma console_app (t u : trace) : console (t ++ u) = console t +++ console u.
Proof.
  induction t as [|e t IH]; [reflexivity|].
  destruct e; simpl; rewrite IH; try reflexivity;
    induction text as [|c s IHs]; simpl; congruence.
Qed.

Lemma console_prints (l : list byte) :
  console (map (fun b => EvUartBrokerPrint (fmt_02x b)) l) = hex_text l.
Proof.
  induction l as [|b l IH]; [reflexivity|].
  cbn [map console hex_text]. now rewrite IH, fmt_02x_hex_of_byte.
Qed.

(** ** The download callback *)

Lemma for_range_print_events (buff : list byte) :
  forall (n k : nat) (h : trace) (g : globals),
    (k + n <= List.length buff)%nat ->
    for_range (R := unit) n (Z.of_nat k)
      (fun i => UartBrokerPrint (fmt_02x (nth (Z.to_nat i) buff x00)) ;; ret None)
      h g
    = (None, g, map (fun b => EvUartBrokerPrint (fmt_02x b)) (firstn n (skipn k buff))).
Proof.
  induction n as [|n IH]; intros k h g Hk.
  - reflexivity.
  - simpl for_range. unfold bind at 1.
    cbn -[for_range fmt_02x Z.add Z.of_nat Z.to_nat].
    replace (Z.of_nat k + 1) with (Z.of_nat (S k)) by lia.
    rewrite IH by lia. rewrite Nat2Z.id.
    destruct (skipn k buff) as [|b rest] eqn:E.
    + apply (f_equal (@List.length byte)) in E. rewrite length_skipn in E. simpl in E. lia.
    + destruct (skipn_cons_inv x00 k buff b rest E) as [-> ->]. reflexivity.
Qed.

Lemma cb_fileDownload_run (buff : list byte) (len : Z) (h : trace) (g : globals) :
  0 <= len <= Z.of_nat (List.length buff) ->
  cb_fileDownload buff len h g
  = (0, g,
     map (fun b => EvUartBrokerPrint (fmt_02x b)) (firstn (Z.to_nat len) buff)
     ++ (if len <? sizeof_work_buff then [EvUartBrokerPuts CRLF] else [])).
Proof.
  intros Hlen. unfold cb_fileDownload. unfold bind at 1.
  pose proof (for_range_print_events buff (Z.to_nat len) 0 h g) as E.
  cbn [Z.of_nat skipn] in E. rewrite E by (simpl; lia). destruct (len <? sizeof_work_buff); reflexivity.
Qed.

(** C8: for a chunk of [len] bytes the callback writes, byte by byte and in
    order, two lowercase hexadecimal digits each (so [2 * len] characters),
    and then a CR-LF exactly when [len < 1024], the size of [work_buff]. *)
Theorem cb_fileDownload_hex_chunk (buff : list byte) (len : Z) (h : trace) (g : globals) :
  0 <= len <= Z.of_nat (List.length buff) ->
  let r := cb_fileDownload buff len h g in
  let chunk := firstn (Z.to_nat len) buff in
  result r = 0 /\
  console (events r) = hex_text chunk +++ (if len <? 1024 then CRLF else "") /\
  Z.of_nat (String.length (hex_text chunk)) = 2 * len /\
  forallb is_lower_hex (list_ascii_of_string (hex_text chunk)) = true /\
  (In (EvUartBrokerPuts CRLF) (events r) <-> len < 1024).
Proof.
  intros Hlen r chunk. subst r. rewrite cb_fileDownload_run by exact Hlen.
  unfold result, events. cbn [fst snd]. fold chunk.
  assert (Hc : List.length chunk = Z.to_nat len).
  { unfold chunk. rewrite length_firstn. lia. }
  repeat split.
  - rewrite console_app, console_prints. unfold sizeof_work_buff.
    destruct (len <? 1024); reflexivity.
  - rewrite hex_text_length, Hc. lia.
  - apply hex_text_lower.
  - intros Hin. apply in_app_or in Hin. destruct Hin as [Hin | Hin].
    + apply in_map_iff in Hin. destruct Hin as (b & Hb & _). discriminate.
    + unfold sizeof_work_buff in Hin. destruct (Z.ltb_spec len 1024); [assumption|].
      destruct Hin.
  - intros Hlt. apply in_or_app. right. unfold sizeof_work_buff.
    destruct (Z.ltb_spec len 1024); [left; reflexivity | lia].
Qed.

Lemma cb_fileDownload_hex_chunk_witness :
  let buff := [x00; xde; xad; xbe] in
  let r := cb_fileDownload buff 3 [] boot_globals in
  console (events r) = "00dead" +++ CRLF /\ (In (EvUartBrokerPuts CRLF) (events r) <-> 3 < 1024).
Proof.
  intros buff r.
  pose proof (cb_fileDownload_hex_chunk buff 3 [] boot_globals ltac:(simpl; lia)) as H.
  cbv zeta in H. destruct H as (_ & Hc & _ & _ & Hcr).
  split; [exact Hc | exact Hcr].
Defined.

(** ** The authentication loop *)

Lemma auth_round_run env (h : trace) (g : globals) :
  let cap := sizeof (user_name g) in
  let a := env_SipfAuthRequest env
             (h ++ [EvUartBrokerPuts ("Set AuthMode to `SIM Auth'... " +++ CRLF)])
             cap cap in
  let st := fst (fst a) in
  let g' := {| user_name := mkBuffer (buf_size (user_name g)) (snd (fst a));
               password := mkBuffer (buf_size (password g)) (snd a) |} in
  auth_round env tt h g =
  if st <? 0 then (inl tt, g', auth_retry_block cap a)
  else (inr st, g', auth_ok_block cap a).
Proof.
  cbv zeta. unfold auth_round, auth_retry_block, auth_ok_block.
  unfold bind, UartBrokerPuts, LOG, k_sleep, emit, get_globals, SipfAuthRequest, ret.
  rewrite !app_nil_r.
  destruct (env_SipfAuthRequest env _ _ _) as [[st u] p]. cbn [fst snd app].
  destruct (st <? 0); reflexivity.
Qed.

Lemma auth_loop_shape env :
  forall (fuel : nat) (h : trace) (g : globals),
    let r := forever fuel (auth_round env) tt h g in
    let cap := sizeof (user_name g) in
    exists fails : list (Z * list byte * list byte),
      Forall (fun a => fst (fst a) < 0) fails /\
      sizeof (user_name (final r)) = cap /\
      ((result r = inl tt /\ List.length fails = fuel /\
        events r = List.concat (map (auth_retry_block cap) fails))
       \/
       (exists st u p,
           0 <= st /\ result r = inr st /\ (List.length fails < fuel)%nat /\
           events r = List.concat (map (auth_retry_block cap) fails)
                      ++ auth_ok_block cap (st, u, p) /\
           buf_data (user_name (final r)) = u /\
           buf_data (password (final r)) = p)).
Proof.
  induction fuel as [|fuel IH]; intros h g r cap; subst r cap; unfold sizeof.
  - exists []. cbn. repeat split; auto.
  - cbn [forever]. rewrite bind_run.
    pose proof (auth_round_run env h g) as Hr. cbv zeta in Hr. unfold sizeof in Hr.
    destruct (env_SipfAuthRequest env _ _ _) as [[st u] p] eqn:Ea.
    cbn [fst snd] in Hr. rewrite Hr. clear Hr.
    destruct (Z.ltb_spec st 0) as [Hneg | Hpos].
    + cbn [result final events fst snd].
      match goal with
      | |- context [forever fuel _ tt ?h' ?g'] =>
          destruct (IH h' g') as (fails & Hf & Hsz & Hcases)
      end.
      unfold sizeof in Hsz, Hcases. cbn [user_name buf_size] in Hsz, Hcases.
      exists ((st, u, p) :: fails). split; [constructor; [exact Hneg | exact Hf]|].
      split; [exact Hsz|].
      destruct Hcases as [(Hres & Hlen & Hev) | (st' & u' & p' & Hst & Hres & Hlen & Hev & Hu & Hp)].
      * left. repeat split; [exact Hres | cbn; lia |].
        cbn [map List.concat]. now rewrite Hev.
      * right. exists st', u', p'. repeat split; try assumption; [cbn; lia|].
        cbn [map List.concat]. rewrite Hev. now rewrite app_assoc.
    + exists []. cbn. split; [constructor|]. split; [reflexivity|].
      right. exists st, u, p. repeat split; try assumption; try reflexivity; lia.
Qed.

(** An environment that refuses every request keeps the loop going for as
    many rounds as one cares to look at. *)
Example auth_never_gives_up :
  let r := forever 50 (auth_round (bench all_ready false 0 (fun _ => 0)
                                     (fun _ => -1) (fun _ => 0)))
             tt [] boot_globals in
  result r = inl tt /\ count is_auth_request (events r) = 50%nat /\
  count (fun e => match e with EvSleep 10000 => true | _ => false end) (events r) = 50%nat.
Proof. vm_compute. auto. Qed.

(** Scenario E4: two refusals, then success. *)
Example auth_flap_console :
  console (events (forever 5 (auth_round auth_flap_env) tt [] boot_globals)) =
  "Set AuthMode to `SIM Auth'... " +++ CRLF +++ "faild(Retry after 10s)" +++ CRLF
  +++ "Set AuthMode to `SIM Auth'... " +++ CRLF +++ "faild(Retry after 10s)" +++ CRLF
  +++ "Set AuthMode to `SIM Auth'... " +++ CRLF +++ "OK" +++ CRLF.
Proof. vm_compute. reflexivity. Qed.

(** ** Credentials: from the authentication service to the HTTP client *)

Lemma credential_retry_blocks cap fails :
  credential_events (List.concat (map (auth_retry_block cap) fails))
  = map (auth_request_event cap) fails.
Proof.
  induction fails as [|[[st u] p] fails IH]; [reflexivity|].
  cbn [map List.concat]. unfold credential_events in *.
  rewrite filter_app, IH. reflexivity.
Qed.

Lemma credential_ok_block cap a :
  credential_events (auth_ok_block cap a) = [auth_request_event cap a].
Proof. destruct a as [[st u] p]. reflexivity. Qed.

Lemma auth_request_events_are_requests cap fails :
  Forall (fun e => is_auth_request e = true) (map (auth_request_event cap) fails).
Proof. apply Forall_forall. intros e He. apply in_map_iff in He. now destruct He as (a & <- & _). Qed.

Lemma silent_operate env p fuel :
  (forall e, is_credential e = false -> p e = false) ->
  silent p (operate env fuel).
Proof.
  intros Hp. unfold operate, operate_round.
  repeat first
    [ apply silent_ret
    | apply silent_emit; apply Hp; reflexivity
    | apply silent_ask; intros; apply Hp; reflexivity
    | apply silent_SipfFileDownload;
        [apply Hp; reflexivity | intros; apply Hp; reflexivity | intros ]
    | apply silent_cb_fileDownload; intros; apply Hp; reflexivity
    | apply silent_forever; intros
    | apply silent_bind; [ | intros ]
    | match goal with
      | |- silent _ (if ?c then _ else _) => destruct c
      end
    | progress unfold LOG, UartBrokerPrint, UartBrokerPuts, gpio_pin_set_dt,
        gpio_pin_toggle_dt, gpio_pin_get_dt, k_sleep, k_uptime_get ].
Qed.

(** The credential traffic of a boot: requests only, or requests closed by
    an accepted one and the hand-off of what it returned.  [cap] is what the
    requests pass as capacity. *)
Lemma main_credential_events env bld fuel h g :
  let ce := credential_events (events (main env bld fuel h g)) in
  let cap := sizeof (user_name g) in
  exists fails : list (Z * list byte * list byte),
    ce = map (auth_request_event cap) fails \/
    exists st u p r,
      0 <= st /\
      ce = map (auth_request_event cap) fails
           ++ [EvSipfAuthRequest cap cap st u p; EvSipfClientHttpSetAuthInfo u p r].
Proof.
  cbv zeta. unfold credential_events, main.
  skip. skip_with ltac:(unfold banner; silence) ltac:(unfold banner; framing).
  skip_with ltac:(unfold led_init; silence) ltac:(unfold led_init; framing).
  skip. skip_with ltac:(unfold button_init; silence) ltac:(unfold button_init; framing).
  assert (S6 : forall fuel, silent is_credential (err_label fuel))
    by (intros; apply silent_err_label; reflexivity).
  destruct (nonzero _).
  { exists []. left. skip. apply S6. }
  skip_with ltac:(unfold init_modem_and_lte, cert_provision, connect_attempt; silence)
            ltac:(apply frame_init_modem_and_lte).
  destruct (nonzero _).
  { exists []. left. apply S6. }
  rewrite bind_events, filter_app.
  destruct (auth_loop_shape env fuel h g)
    as (fails & _ & _ & [(Hres & _ & Hev) | (st & u & p & Hst & Hres & _ & Hev & Hu & Hp)]).
  - exists fails. left. rewrite Hres, Hev. cbn [events ret snd].
    rewrite app_nil_r. apply credential_retry_blocks.
  - exists fails. right. rewrite Hres, Hev.
    rewrite filter_app.
    fold (credential_events (List.concat (map (auth_retry_block (sizeof (user_name g))) fails))).
    fold (credential_events (auth_ok_block (sizeof (user_name g)) (st, u, p))).
    rewrite credential_retry_blocks, credential_ok_block.
    rewrite bind_events, filter_app.
    unfold SipfClientHttpSetAuthInfo at 1 2 3. cbn [events result final fst snd].
    rewrite Hu, Hp.
    eexists st, u, p, _. split; [exact Hst|].
    rewrite <- app_assoc. f_equal. cbn [filter is_credential is_auth_request is_set_auth orb app].
    unfold auth_request_event. cbn [fst snd]. f_equal. f_equal.
    destruct (_ <? 0).
    + apply S6.
    + apply silent_operate. auto.
Qed.

(** C5: in a boot, [SipfClientHttpSetAuthInfo] is called at most once; when
    it is, the call closes the credential traffic, comes right after an
    authentication request answered with a non-negative status, and passes
    the user name and password that this request left in the buffers. *)
Theorem set_auth_once_with_granted_pair
    (env : Env) (bld : build) (fuel : nat) (h : trace) (g : globals) :
  let es := events (main env bld fuel h g) in
  (count is_set_auth es <= 1)%nat /\
  (Forall (fun e => is_auth_request e = true) (credential_events es) \/
   exists before ucap pcap st u p r,
     credential_events es =
       before ++ [EvSipfAuthRequest ucap pcap st u p;
                  EvSipfClientHttpSetAuthInfo u p r] /\
     0 <= st /\
     Forall (fun e => is_auth_request e = true) before).
Proof.
  intros es. subst es.
  destruct (main_credential_events env bld fuel h g) as (fails & Hce).
  cbv zeta in Hce.
  assert (Hcount : forall t, count is_set_auth t = count is_set_auth (credential_events t)).
  { intros t. unfold count, credential_events. rewrite filter_filter_sub; [reflexivity|].
    intros e He. unfold is_credential. rewrite He. apply orb_true_r. }
  assert (Hnone : forall l, count is_set_auth (map (auth_request_event (sizeof (user_name g))) l) = 0%nat).
  { induction l as [|a l IH]; [reflexivity | exact IH]. }
  destruct Hce as [Hce | (st & u & p & r & Hst & Hce)].
  - split.
    + rewrite Hcount, Hce, Hnone. lia.
    + left. rewrite Hce. apply auth_request_events_are_requests.
  - split.
    + rewrite Hcount, Hce, count_app, Hnone. cbn. lia.
    + right. eexists _, _, _, st, u, p, r. split; [exact Hce|].
      split; [exact Hst | apply auth_request_events_are_requests].
Qed.



(** On the bench the request reads 255, 255, the sizes of the two arrays. *)
Example auth_request_capacities_on_the_bench :
  filter is_auth_request (events (main happy_env sample_build 1 [] boot_globals))
  = [EvSipfAuthRequest 255 255 0 [x75; x31; x00] [x70; x31; x00]] /\
  sizeof (user_name boot_globals) = 255 /\
  sizeof (password boot_globals) = 255.
Proof. vm_compute. auto. Qed.

(** Scenario E4 on the whole boot: two refused requests, the granted one,
    the hand-off of its pair. *)
Example auth_flap_credentials :
  credential_events (events (main auth_flap_env sample_build 3 [] boot_globals)) =
  [ EvSipfAuthRequest 255 255 (-1) [x75; x31; x00] [x70; x31; x00];
    EvSipfAuthRequest 255 255 (-1) [x75; x31; x00] [x70; x31; x00];
    EvSipfAuthRequest 255 255 0 [x75; x31; x00] [x70; x31; x00];
    EvSipfClientHttpSetAuthInfo [x75; x31; x00] [x70; x31; x00] 0 ].
Proof. vm_compute. reflexivity. Qed.

(** ** Certificate provisioning *)

(** The key-store traffic of one [cert_provision]: the query alone when it
    fails, otherwise the query, the deletion when an entry is present, and
    the write of [cert] with length [sizeof(cert) - 1]. *)
Lemma cert_provision_keystore env bld (h : trace) (g : globals) :
  let ks := keystore_events (events (cert_provision env bld h g)) in
  let ca := MODEM_KEY_MGMT_CRED_TYPE_CA_CHAIN in
  let len := wrap_size_t (sizeof_cert bld - 1) in
  (exists e present, e <> 0 /\ ks = [EvKeyExists 42 ca e present]) \/
  (exists w, ks = [EvKeyExists 42 ca 0 false; EvKeyWrite 42 ca (cert bld) len w]) \/
  (exists d w, ks = [EvKeyExists 42 ca 0 true; EvKeyDelete 42 ca d;
                     EvKeyWrite 42 ca (cert bld) len w]).
Proof.
  cbv zeta. unfold cert_provision, keystore_events.
  unfold bind, modem_key_mgmt_exists, modem_key_mgmt_delete, modem_key_mgmt_write,
    LOG, ask, emit, ret, nonzero, events, TLS_SEC_TAG.
  destruct (env_modem_key_mgmt_exists env h 42 MODEM_KEY_MGMT_CRED_TYPE_CA_CHAIN)
    as [e present]. cbn [fst snd].
  destruct (Z.eqb_spec e 0) as [-> | Hne]; cbn [negb].
  - destruct present; cbn [fst snd app].
    + right; right.
      destruct (env_modem_key_mgmt_delete env _ _ _ =? 0); cbn [negb fst snd app];
        destruct (env_modem_key_mgmt_write env _ _ _ _ _ =? 0); cbn;
        eexists _, _; reflexivity.
    + right; left.
      destruct (env_modem_key_mgmt_write env _ _ _ _ _ =? 0); cbn;
        eexists; reflexivity.
  - left. exists e, present. split; [exact Hne | reflexivity].
Qed.

Lemma silent_keystore_after_modem env fuel :
  silent is_keystore
    (a <- forever fuel (auth_round env) tt ;;
     match a with
     | inl _ => ret Authenticating
     | inr _ =>
         err <- SipfClientHttpSetAuthInfo env ;;
         if err <? 0 then err_label fuel else operate env fuel
     end).
Proof.
  assert (S6 : silent is_keystore (err_label fuel))
    by (apply silent_err_label; reflexivity).
  unfold auth_round. silence; exact S6.
Qed.

(** The key-store traffic of a whole boot is that of at most one
    [cert_provision]. *)
Lemma main_keystore env bld fuel (h : trace) (g : globals) :
  let ks := keystore_events (events (main env bld fuel h g)) in
  let ca := MODEM_KEY_MGMT_CRED_TYPE_CA_CHAIN in
  let len := wrap_size_t (sizeof_cert bld - 1) in
  ks = [] \/
  (exists e present, e <> 0 /\ ks = [EvKeyExists 42 ca e present]) \/
  (exists w, ks = [EvKeyExists 42 ca 0 false; EvKeyWrite 42 ca (cert bld) len w]) \/
  (exists d w, ks = [EvKeyExists 42 ca 0 true; EvKeyDelete 42 ca d;
                     EvKeyWrite 42 ca (cert bld) len w]).
Proof.
  cbv zeta. unfold keystore_events, main.
  assert (S6 : silent is_keystore (err_label fuel))
    by (apply silent_err_label; reflexivity).
  skip. skip_with ltac:(unfold banner; silence) ltac:(unfold banner; framing).
  skip_with ltac:(unfold led_init; silence) ltac:(unfold led_init; framing).
  skip. skip_with ltac:(unfold button_init; silence) ltac:(unfold button_init; framing).
  destruct (nonzero _).
  { left. skip. apply S6. }
  rewrite filter_bind_silent_r.
  2:{ intros err. destruct (nonzero err); [exact S6 | apply silent_keystore_after_modem]. }
  unfold init_modem_and_lte. skip.
  destruct (nonzero _).
  { left. skip. reflexivity. }
  rewrite filter_bind_silent_r.
  2:{ intros err. unfold connect_attempt. silence. }
  right. apply cert_provision_keystore.
Qed.

Lemma written_blob (pem : list byte) :
  (List.length (pem ++ [x00]) < 4096)%nat ->
  wrap_size_t (Z.of_nat (List.length (pem ++ [x00])) - 1) = Z.of_nat (List.length pem) /\
  firstn (List.length pem) (pem ++ [x00]) = pem.
Proof.
  intros Hsz. rewrite length_app in *. cbn [List.length] in *. split.
  - unfold wrap_size_t. rewrite Z.mod_small; lia.
  - rewrite firstn_app, Nat.sub_diag, firstn_all. cbn. apply app_nil_r.
Qed.

(** C3, as amended: in a boot the key store sees at most one write, hence
    at most one successful one.  Its traffic is the query under tag 42
    and, when the query succeeds, the call that deletes the entry if one is
    reported present, then one write under tag 42 of the embedded
    certificate without its terminating NUL.  The status [d] of the
    deletion is not looked at: the write follows a failed deletion as it
    follows a successful one.  ([cert] is [pem] followed by the NUL of the
    string literal, and smaller than 4 KiB as the build asserts.) *)
Theorem cert_written_once_after_delete
    (env : Env) (bld : build) (pem : list byte) (fuel : nat) (h : trace) (g : globals) :
  cert bld = pem ++ [x00] ->
  (List.length (cert bld) < 4096)%nat ->
  let es := events (main env bld fuel h g) in
  let ks := keystore_events es in
  let ca := MODEM_KEY_MGMT_CRED_TYPE_CA_CHAIN in
  let len := Z.of_nat (List.length pem) in
  (count is_key_write es <= 1)%nat /\
  (ks = [] \/
   (exists e present, e <> 0 /\ ks = [EvKeyExists 42 ca e present]) \/
   (exists w, ks = [EvKeyExists 42 ca 0 false; EvKeyWrite 42 ca (cert bld) len w]) \/
   (exists d w, ks = [EvKeyExists 42 ca 0 true; EvKeyDelete 42 ca d;
                      EvKeyWrite 42 ca (cert bld) len w])) /\
  firstn (Z.to_nat len) (cert bld) = pem.
Proof.
  intros Hcert Hsz es ks ca len.
  assert (Hlen : wrap_size_t (sizeof_cert bld - 1) = len
                 /\ firstn (List.length pem) (cert bld) = pem).
  { unfold sizeof_cert. rewrite Hcert in *. apply written_blob. exact Hsz. }
  destruct Hlen as [Hlen Hblob].
  pose proof (main_keystore env bld fuel h g) as Hks. cbv zeta in Hks.
  rewrite Hlen in Hks. fold es in Hks. fold ks in Hks. fold ca in Hks.
  assert (Hcount : count is_key_write es = count is_key_write ks).
  { unfold count, ks, keystore_events. rewrite filter_filter_sub; [reflexivity|].
    intros e He. destruct e; try discriminate. reflexivity. }
  split; [|split].
  - rewrite Hcount.
    destruct Hks as [-> | [(e & pr & _ & ->) | [(w & ->) | (d & w & ->)]]]; cbn; lia.
  - exact Hks.
  - unfold len. rewrite Nat2Z.id. exact Hblob.
Qed.

Lemma cert_written_once_after_delete_witness :
  let es := events (main slow_attach_env sample_build 1 [] boot_globals) in
  (count is_key_write es <= 1)%nat /\
  keystore_events es =
    [EvKeyExists 42 MODEM_KEY_MGMT_CRED_TYPE_CA_CHAIN 0 true;
     EvKeyDelete 42 MODEM_KEY_MGMT_CRED_TYPE_CA_CHAIN 0;
     EvKeyWrite 42 MODEM_KEY_MGMT_CRED_TYPE_CA_CHAIN (sample_pem ++ [x00]) 5 0].
Proof.
  intros es.
  pose proof (cert_written_once_after_delete slow_attach_env sample_build sample_pem
                1 [] boot_globals eq_refl ltac:(simpl; lia)) as H.
  cbv zeta in H. destruct H as (Hcount & _ & _).
  split; [exact Hcount | vm_compute; reflexivity].
Defined.

(** C3, as stated, at a key store that holds an entry and refuses to delete
    it (status -5): the entry is not deleted, and the write is made and
    succeeds all the same; the refusal is logged and the boot becomes
    operational. *)
Lemma write_succeeds_after_failed_delete :
  let r := main stuck_entry_env sample_build 1 [] boot_globals in
  keystore_events (events r) =
    [EvKeyExists 42 MODEM_KEY_MGMT_CRED_TYPE_CA_CHAIN 0 true;
     EvKeyDelete 42 MODEM_KEY_MGMT_CRED_TYPE_CA_CHAIN (- 5);
     EvKeyWrite 42 MODEM_KEY_MGMT_CRED_TYPE_CA_CHAIN (sample_pem ++ [x00]) 5 0] /\
  In (EvLog LOG_ERR "Failed to delete existing certificate, err -5") (events r) /\
  result r = Operational.
Proof.
  cbv zeta. split; [vm_compute; reflexivity|]. split; [|vm_compute; reflexivity].
  vm_compute. auto 20.
Qed.

(** ** Network bring-up *)

Lemma connect_attempt_shape env (i : Z) (h : trace) (g : globals) :
  let r := connect_attempt env i h g in
  (result r = None /\ events r = timeout_block i) \/
  (exists v, result r = Some v /\ final_block i v (events r)).
Proof.
  cbv zeta. unfold connect_attempt, timeout_block, attempt_prefix.
  unfold bind, LOG, UartBrokerPrint, lte_lc_init, lte_lc_modem_events_enable,
    lte_lc_connect_async, k_sem_take, lte_lc_offline, lte_lc_deinit, lte_lc_psm_req,
    ask, emit, ret, nonzero, result, events.
  cbn [fst snd app].
  match goal with
  | |- context [env_lte_lc_init env ?x =? 0] =>
      destruct (Z.eqb_spec (env_lte_lc_init env x) 0) as [E1 | E1]
  end; cbn [negb fst snd app].
  2:{ right. eexists. split; [reflexivity|]. apply FbInit. exact E1. }
  rewrite E1.
  match goal with
  | |- context [env_lte_lc_connect_async env ?x =? 0] =>
      destruct (Z.eqb_spec (env_lte_lc_connect_async env x) 0) as [E2 | E2]
  end; cbn [negb fst snd app].
  2:{ right. eexists. split; [reflexivity|]. apply (FbConnect i _ E2). }
  rewrite E2.
  match goal with
  | |- context [env_k_sem_take env ?x REGISTER_TIMEOUT_MS =? - EAGAIN] =>
      destruct (Z.eqb_spec (env_k_sem_take env x REGISTER_TIMEOUT_MS) (- EAGAIN)) as [E3 | E3];
      [|destruct (Z.eqb_spec (env_k_sem_take env x REGISTER_TIMEOUT_MS) 0) as [E4 | E4]]
  end; cbn [fst snd app].
  - left. rewrite E3. split; reflexivity.
  - right. exists 0. rewrite E4.
    destruct (env_lte_lc_psm_req env _ true =? 0) eqn:E5; cbn [negb fst snd app];
      (split; [reflexivity|]);
      match goal with
      | |- context [EvLteLcPsmReq true ?p] =>
          pose proof (FbRegistered i p) as Hfb
      end; unfold attempt_prefix in Hfb; cbn [app] in Hfb; rewrite E5 in Hfb; exact Hfb.
  - right. eexists. split; [reflexivity|]. apply (FbWait i _ E4 E3).
Qed.

Lemma rounds_S (i : Z) (k : nat) : rounds i (S k) = i :: rounds (i + 1) k.
Proof.
  unfold rounds. cbn [seq map]. rewrite Z.add_0_r. f_equal.
  rewrite <- seq_shift, map_map. apply map_ext. intros j. lia.
Qed.

(** The CONNECT loop run for at most [n] rounds from round [i]: [k] rounds
    time out, and then either the budget is used up ([k = n], no value) or
    round [i + k] returns. *)
Lemma connect_loop_shape env :
  forall (n : nat) (i : Z) (h : trace) (g : globals),
    let r := for_range n i (connect_attempt env) h g in
    exists k : nat,
      (result r = None /\ k = n /\
       events r = List.concat (map timeout_block (rounds i k)))
      \/
      (exists v last,
          (k < n)%nat /\ result r = Some v /\
          final_block (i + Z.of_nat k) v last /\
          events r = List.concat (map timeout_block (rounds i k)) ++ last).
Proof.
  induction n as [|n IH]; intros i h g r; subst r.
  - exists 0%nat. left. repeat split.
  - cbn [for_range]. rewrite bind_result, bind_events.
    destruct (connect_attempt_shape env i h g) as [(Hres & Hev) | (v & Hres & Hfb)];
      cbv zeta in *; rewrite Hres; cbv beta iota.
    + match goal with
      | |- context [for_range n (i + 1) _ ?h' ?g'] =>
          destruct (IH (i + 1) h' g') as (k & Hk)
      end.
      exists (S k). rewrite rounds_S. cbn [map List.concat].
      destruct Hk as [(Hr & Hkn & He) | (v & last & Hkn & Hr & Hfb & He)].
      * left. rewrite Hr, He, Hev, Hkn. repeat split.
      * right. exists v, last.
        rewrite Hr, He, Hev, <- app_assoc.
        replace (i + Z.of_nat (S k)) with (i + 1 + Z.of_nat k) by lia.
        repeat split; [lia | exact Hfb].
    + exists 0%nat. right. exists v, (events (connect_attempt env i h g)).
      cbn [rounds seq map List.concat app].
      rewrite Z.add_0_r. unfold ret at 1 2. cbn [result events fst snd].
      rewrite app_nil_r. repeat split; [lia | exact Hfb].
Qed.

Lemma count_timeout_blocks (p : event -> bool) (c : nat) (l : list Z) :
  (forall j, count p (timeout_block j) = c) ->
  count p (List.concat (map timeout_block l)) = (List.length l * c)%nat.
Proof.
  intros Hc. induction l as [|j l IH]; [reflexivity|].
  cbn [map List.concat List.length]. rewrite count_app, Hc, IH. lia.
Qed.

Lemma rounds_length i k : List.length (rounds i k) = k.
Proof. unfold rounds. now rewrite length_map, length_seq. Qed.

Lemma final_block_counts i v last :
  final_block i v last ->
  count is_lte_init last = 1%nat /\
  (count is_sem_take last <= 1)%nat /\
  count is_granted last = (if v =? 0 then 1%nat else 0%nat).
Proof.
  intros Hfb. destruct Hfb as [e He | e He | psm | e He1 He2];
    try destruct (psm =? 0); cbn;
    repeat split; try lia;
    try (destruct (Z.eqb_spec e 0); [contradiction | reflexivity]).
Qed.

(** The loop makes at most [n] attempts, and it returns 0 exactly when a
    wait got the permit. *)
Lemma connect_loop_counts env (n : nat) (i : Z) (h : trace) (g : globals) :
  let r := for_range n i (connect_attempt env) h g in
  (count is_lte_init (events r) <= n)%nat /\
  (count is_sem_take (events r) <= n)%nat /\
  count is_granted (events r)
  = match result r with
    | Some v => if v =? 0 then 1%nat else 0%nat
    | None => 0%nat
    end.
Proof.
  cbv zeta.
  destruct (connect_loop_shape env n i h g)
    as (k & [(Hr & Hk & He) | (v & last & Hk & Hr & Hfb & He)]); cbv zeta in *;
    rewrite Hr, He.
  - rewrite !(count_timeout_blocks _ 1), (count_timeout_blocks _ 0), rounds_length
      by (intros; reflexivity). lia.
  - destruct (final_block_counts _ _ _ Hfb) as (H1 & H2 & H3).
    rewrite !count_app, H1, H3.
    rewrite !(count_timeout_blocks _ 1), (count_timeout_blocks _ 0), rounds_length
      by (intros; reflexivity). lia.
Qed.

(** *** What [init_modem_and_lte] can return *)

Lemma returns_ret {A} (a : A) (Q : A -> Prop) : Q a -> returns (ret a) Q.
Proof. intros H h g. exact H. Qed.

Lemma returns_ask {A} (answer : trace -> A) ev (Q : A -> Prop) :
  (forall h, Q (answer h)) -> returns (ask answer ev) Q.
Proof. intros H h g. apply H. Qed.

Lemma returns_any {A} (m : M A) : returns m (fun _ => True).
Proof. intros h g. exact I. Qed.

Lemma returns_bind {A B} (m : M A) (f : A -> M B) (Q : A -> Prop) (R : B -> Prop) :
  returns m Q -> (forall a, Q a -> returns (f a) R) -> returns (bind m f) R.
Proof. intros Hm Hf h g. rewrite bind_result. apply Hf, Hm. Qed.

Lemma returns_for_range {R} (body : Z -> M (option R)) (Q : R -> Prop) :
  (forall i, returns (body i) (fun r => forall v, r = Some v -> Q v)) ->
  forall n i, returns (for_range n i body) (fun r => forall v, r = Some v -> Q v).
Proof.
  intros Hb. induction n as [|n IH]; intros i; cbn [for_range].
  - apply returns_ret. discriminate.
  - eapply returns_bind; [apply Hb|]. intros [v|] Hv.
    + apply returns_ret. exact Hv.
    + apply IH.
Qed.

(** Steps into a [bind] whose first computation returns nothing of use. *)
Ltac returns_step := eapply returns_bind; [apply returns_any | intros ? _].

Lemma cert_provision_returns env bld :
  negative_errno env -> returns (cert_provision env bld) (fun v => v <= 0).
Proof.
  intros (_ & Hex & Hwr & _). unfold cert_provision.
  eapply returns_bind.
  { apply (returns_ask _ _ (fun r => fst r <= 0)). intros h. apply Hex. }
  intros r Hr. cbv zeta. destruct (nonzero (fst r)).
  - returns_step. apply returns_ret. exact Hr.
  - returns_step. returns_step.
    eapply returns_bind.
    { apply (returns_ask _ _ (fun v => v <= 0)). intros h. apply Hwr. }
    intros w Hw. destruct (nonzero w).
    + returns_step. apply returns_ret. exact Hw.
    + apply returns_ret. lia.
Qed.

Lemma connect_attempt_returns env i :
  negative_errno env ->
  returns (connect_attempt env i) (fun r => forall v, r = Some v -> v <= 0).
Proof.
  intros (_ & _ & _ & _ & _ & Hin & Hco & Hse). unfold connect_attempt.
  returns_step.
  eapply returns_bind.
  { apply (returns_ask _ _ (fun v => v <= 0)). intros h. apply Hin. }
  intros e1 H1. destruct (nonzero e1).
  { returns_step. apply returns_ret. now intros v [= <-]. }
  do 4 returns_step.
  eapply returns_bind.
  { apply (returns_ask _ _ (fun v => v <= 0)). intros h. apply Hco. }
  intros e2 H2. destruct (nonzero e2).
  { returns_step. apply returns_ret. now intros v [= <-]. }
  eapply returns_bind.
  { apply (returns_ask _ _ (fun v => v <= 0)). intros h. apply Hse. }
  intros e3 H3. destruct (e3 =? - EAGAIN).
  { do 3 returns_step. apply returns_ret. discriminate. }
  destruct (e3 =? 0).
  - returns_step. returns_step. apply returns_ret. intros v [= <-]. lia.
  - apply returns_ret. now intros v [= <-].
Qed.

Lemma init_modem_and_lte_returns env bld :
  negative_errno env -> returns (init_modem_and_lte env bld) (fun v => v <= 0).
Proof.
  intros Herrno. pose proof Herrno as (Hmo & _ & _ & Hcr & Hcf & _).
  unfold init_modem_and_lte.
  eapply returns_bind.
  { apply (returns_ask _ _ (fun v => v <= 0)). intros h. apply Hmo. }
  intros e1 H1. destruct (nonzero e1).
  { returns_step. apply returns_ret. exact H1. }
  eapply returns_bind; [apply cert_provision_returns, Herrno|].
  intros e2 H2. destruct (nonzero e2).
  { returns_step. apply returns_ret. exact H2. }
  eapply returns_bind.
  { apply (returns_ask _ _ (fun r => fst r <= 0)). intros h. cbn. apply Hcr. }
  intros r3 H3. cbv zeta. destruct (nonzero (fst r3)).
  { returns_step. apply returns_ret. exact H3. }
  eapply returns_bind.
  { apply (returns_ask _ _ (fun v => v <= 0)). intros h. apply Hcf. }
  intros e4 H4. destruct (nonzero e4).
  { returns_step. apply returns_ret. exact H4. }
  returns_step.
  eapply returns_bind.
  { apply returns_for_range. intros i. apply connect_attempt_returns, Herrno. }
  intros [v|] Hv.
  - apply returns_ret. now apply Hv.
  - returns_step. apply returns_ret. lia.
Qed.

Lemma attach_summary_failed budget v :
  v <> 0 -> attach_summary budget v [].
Proof.
  intros Hv. unfold attach_summary. cbn.
  destruct (Z.eqb_spec v 0); [contradiction|]. repeat split; lia.
Qed.

Lemma nonzero_true v : nonzero v = true -> v <> 0.
Proof. unfold nonzero. destruct (Z.eqb_spec v 0); [discriminate | auto]. Qed.

Lemma init_modem_and_lte_attach env bld (h : trace) (g : globals) :
  let r := init_modem_and_lte env bld h g in
  attach_summary (Z.to_nat REGISTER_TRY) (result r) (filter is_attach (events r)).
Proof.
  cbv zeta. unfold init_modem_and_lte. revert h.
  assert (Hfail : forall (text : string) v h,
             nonzero v = true ->
             attach_summary (Z.to_nat REGISTER_TRY)
               (result ((LOG LOG_ERR text ;; ret v) h g))
               (filter is_attach (events ((LOG LOG_ERR text ;; ret v) h g)))).
  { intros text v h Hv. cbn. apply attach_summary_failed, nonzero_true, Hv. }
  intros h. apply skip_prefix; [silence | framing |]. intros e1 h1.
  destruct (nonzero e1) eqn:E1; [apply Hfail, E1|].
  apply skip_prefix;
    [unfold cert_provision; silence | unfold cert_provision; framing |].
  intros e2 h2.
  destruct (nonzero e2) eqn:E2; [apply Hfail, E2|].
  apply skip_prefix; [silence | framing |]. intros r3 h3. cbv zeta.
  destruct (nonzero (fst r3)) eqn:E3; [apply Hfail, E3|].
  apply skip_prefix; [silence | framing |]. intros e4 h4.
  destruct (nonzero e4) eqn:E4; [apply Hfail, E4|].
  apply skip_prefix; [silence | framing |]. intros _ h5.
  rewrite bind_result, bind_events, filter_app.
  destruct (connect_loop_counts env (Z.to_nat REGISTER_TRY) 0 h5 g) as (C1 & C2 & C3).
  unfold attach_summary.
  assert (Hsub : forall p, (forall e, p e = true -> is_attach e = true) ->
                 forall t u, count p (filter is_attach t ++ filter is_attach u)
                             = (count p t + count p u)%nat).
  { intros p Hp t u. now rewrite count_app, !count_filter_sub. }
  assert (Hp1 : forall e, is_lte_init e = true -> is_attach e = true)
    by (intros e He; unfold is_attach; now rewrite He).
  assert (Hp2 : forall e, is_sem_take e = true -> is_attach e = true)
    by (intros e He; unfold is_attach; rewrite He; apply orb_true_r).
  assert (Hp3 : forall e, is_granted e = true -> is_attach e = true)
    by (intros e He; destruct e; try discriminate; reflexivity).
  rewrite (Hsub _ Hp1), (Hsub _ Hp2), (Hsub _ Hp3).
  destruct (result (for_range _ 0 _ h5 g)) as [v|]; cbn; rewrite !Nat.add_0_r; auto.
Qed.

(** The scripted bench follows the negative-errno convention as soon as
    its semaphore waits do. *)
Lemma negative_errno_bench ready present del sem auth btn :
  (forall k, sem k <= 0) ->
  negative_errno (bench ready present del sem auth btn).
Proof.
  intros Hsem. unfold negative_errno, bench. cbn.
  repeat split; intros; try lia. apply Hsem.
Qed.

(** C1, as amended: the bring-up always returns, after at most
    [REGISTER_TRY = 3] rounds of the CONNECT loop (at most three
    [lte_lc_init] calls and three waits on [lte_connected]), with 0 when a
    wait got the permit (Attached) and with a non-zero status when none
    did (AttachFailed).  The failure status is negative when the libraries
    report their errors as negative errno values; the bring-up itself
    hands on whatever status it was given. *)
Theorem attach_settles_within_three_attempts
    (env : Env) (bld : build) (h : trace) (g : globals) :
  let r := init_modem_and_lte env bld h g in
  (count is_lte_init (events r) <= 3)%nat /\
  (count is_sem_take (events r) <= 3)%nat /\
  ((result r = 0 /\ count is_granted (events r) = 1%nat) \/
   (result r <> 0 /\ count is_granted (events r) = 0%nat /\
    (negative_errno env -> result r < 0))).
Proof.
  intros r.
  destruct (init_modem_and_lte_attach env bld h g) as (H1 & H2 & H3). fold r in H1, H2, H3.
  rewrite count_filter_sub in H1, H2, H3;
    try (intros e He; unfold is_attach; destruct e; try discriminate; reflexivity).
  repeat split; [exact H1 | exact H2 |].
  destruct (Z.eqb_spec (result r) 0) as [E | E]; [left | right]; split; auto.
  split; [exact H3|]. intros Herrno.
  pose proof (init_modem_and_lte_returns env bld Herrno h g) as Hsign.
  cbv beta in Hsign. fold r in Hsign. lia.
Qed.

Lemma attach_settles_within_three_attempts_witness :
  let r := init_modem_and_lte no_network_env sample_build [] boot_globals in
  (count is_lte_init (events r) <= 3)%nat /\ result r < 0.
Proof.
  intros r.
  pose proof (attach_settles_within_three_attempts no_network_env sample_build []
                boot_globals) as H.
  cbv zeta in H. fold r in H. destruct H as (Hinit & _ & [(H0 & _) | (_ & _ & Hneg)]).
  - exfalso. revert H0. vm_compute. discriminate.
  - split; [exact Hinit|]. apply Hneg. apply negative_errno_bench.
    intros k. unfold EAGAIN. lia.
Defined.

(** C1, as stated, at a modem library that answers 7 to its
    initialization: the bring-up returns 7 after that one call, which is
    neither 0 nor a negative status. *)
Lemma attach_failure_status_can_be_positive :
  let r := init_modem_and_lte modem_fault_env sample_build [] boot_globals in
  events r = [EvNrfModemLibInit 7; EvLog LOG_ERR "Failed to initialize modem library!"] /\
  result r = 7 /\
  ~ (result r = 0 \/ result r < 0).
Proof.
  cbv zeta. split; [vm_compute; reflexivity|]. split; [vm_compute; reflexivity|].
  intros [H | H]; revert H; vm_compute; discriminate.
Qed.

(** Scenario E3: three timeouts in a row; the bring-up gives up with -1. *)
Example attach_exhausted :
  let r := init_modem_and_lte
             (bench all_ready false 0 (fun _ => - EAGAIN) (fun _ => 0) (fun _ => 0))
             sample_build [] boot_globals in
  result r = -1 /\ count is_lte_init (events r) = 3%nat /\
  count is_timeout (events r) = 3%nat.
Proof. vm_compute. auto. Qed.

(** *** Recovery after a timeout *)

Lemma recovered_silent (t : trace) :
  filter is_timeout t = [] -> timeouts_recovered t.
Proof.
  intros Hs pre e post -> He. rewrite filter_app in Hs. cbn [filter] in Hs.
  rewrite He in Hs. now destruct (filter is_timeout pre).
Qed.

Lemma recovered_cons_other (x : event) (t : trace) :
  is_timeout x = false -> timeouts_recovered t -> timeouts_recovered (x :: t).
Proof.
  intros Hx Ht pre e post Heq He. destruct pre as [|y pre]; cbn [app] in Heq.
  - injection Heq as -> ->. congruence.
  - injection Heq as -> Heq. exact (Ht pre e post Heq He).
Qed.

Lemma recovered_cons_timeout (x : event) (rest : trace) :
  timeouts_recovered rest ->
  timeouts_recovered
    (x :: EvUartBrokerPrint ("TIMEOUT" +++ CRLF) :: EvLteLcOffline :: EvLteLcDeinit :: rest).
Proof.
  intros Ht pre e post Heq He. destruct pre as [|y pre]; cbn [app] in Heq.
  - injection Heq as -> <-. eexists. reflexivity.
  - injection Heq as -> Heq. revert pre e post Heq He.
    repeat (apply recovered_cons_other; [reflexivity|]). exact Ht.
Qed.

Lemma recovered_app (t u : trace) :
  timeouts_recovered t -> timeouts_recovered u -> timeouts_recovered (t ++ u).
Proof.
  intros Ht Hu pre e post Heq He.
  apply app_eq_app in Heq. destruct Heq as (l & [(Ht' & Hpost) | (Hpre & Hu')]).
  - destruct l as [|x l]; cbn [app] in Hpost.
    + symmetry in Hpost. exact (Hu [] e post Hpost He).
    + injection Hpost as <- ->.
      destruct (Ht pre e l Ht' He) as (rest & ->). eexists. reflexivity.
  - exact (Hu l e post Hu' He).
Qed.

Lemma recovered_timeout_block (i : Z) (rest : trace) :
  timeouts_recovered rest -> timeouts_recovered (timeout_block i ++ rest).
Proof.
  intros Hrest. unfold timeout_block, attempt_prefix. cbn [app].
  repeat (apply recovered_cons_other; [reflexivity|]).
  apply recovered_cons_timeout. exact Hrest.
Qed.

Lemma recovered_final_block i v last :
  final_block i v last -> timeouts_recovered last.
Proof.
  intros Hfb. apply recovered_silent.
  destruct Hfb as [e He | e He | psm | e He1 He2]; try destruct (psm =? 0);
    try reflexivity.
  cbn. unfold EAGAIN in He2. destruct (Z.eqb_spec e (- 11)); [contradiction | reflexivity].
Qed.

Lemma recovered_bind {A B} (m : M A) (f : A -> M B) h g :
  timeouts_recovered (events (m h g)) ->
  (forall a h' g', timeouts_recovered (events (f a h' g'))) ->
  timeouts_recovered (events (bind m f h g)).
Proof. intros Hm Hf. rewrite bind_events. apply recovered_app; [exact Hm | apply Hf]. Qed.

Lemma connect_loop_recovers env n i h g :
  timeouts_recovered (events (for_range n i (connect_attempt env) h g)).
Proof.
  destruct (connect_loop_shape env n i h g)
    as (k & [(_ & _ & He) | (v & last & _ & _ & Hfb & He)]); cbv zeta in *; rewrite He;
    clear He.
  - induction (rounds i k) as [|j l IH]; cbn [map List.concat].
    + apply recovered_silent. reflexivity.
    + apply recovered_timeout_block, IH.
  - induction (rounds i k) as [|j l IH]; cbn [map List.concat app].
    + eapply recovered_final_block, Hfb.
    + rewrite <- app_assoc. apply recovered_timeout_block, IH.
Qed.

(** Steps over a computation that never waits on the semaphore. *)
Ltac recover_step :=
  match goal with
  | |- timeouts_recovered (events (bind ?m ?f ?h ?g)) =>
      apply recovered_bind;
      [ apply recovered_silent;
        let H := fresh in assert (H : silent is_timeout m) by silence; apply H
      | intros ]
  | |- timeouts_recovered (events (ret _ _ _)) => apply recovered_silent; reflexivity
  | |- timeouts_recovered (events ((if ?c then _ else _) _ _)) => destruct c
  end.

Lemma init_modem_and_lte_recovers env bld h g :
  timeouts_recovered (events (init_modem_and_lte env bld h g)).
Proof.
  unfold init_modem_and_lte. revert h g.
  assert (Hcert : silent is_timeout (cert_provision env bld))
    by (unfold cert_provision; silence).
  intros h g. recover_step. recover_step. { repeat recover_step. }
  apply recovered_bind; [apply recovered_silent, Hcert | intros e2 h2 g2].
  recover_step. { repeat recover_step. }
  recover_step. cbv zeta. recover_step. { repeat recover_step. }
  recover_step. recover_step. { repeat recover_step. }
  recover_step.
  apply recovered_bind; [apply connect_loop_recovers | intros [v|] h6 g6].
  - recover_step.
  - repeat recover_step.
Qed.

(** C2: whenever a wait on [lte_connected] ends with [-EAGAIN] (the
    attempt did not register within [REGISTER_TIMEOUT_MS]), the bring-up
    goes on with the TIMEOUT notice, [lte_lc_offline] and [lte_lc_deinit],
    in this order; so both calls lie before any later [lte_lc_init]. *)
Theorem timeout_offline_deinit_before_next_init
    (env : Env) (bld : build) (h : trace) (g : globals)
    (pre post : trace) (ms : Z) :
  events (init_modem_and_lte env bld h g) = pre ++ EvSemTake ms (- EAGAIN) :: post ->
  (exists rest,
      post = EvUartBrokerPrint ("TIMEOUT" +++ CRLF)
             :: EvLteLcOffline :: EvLteLcDeinit :: rest) /\
  (forall mid ret post',
      post = mid ++ EvLteLcInit ret :: post' ->
      exists mid',
        mid = EvUartBrokerPrint ("TIMEOUT" +++ CRLF)
              :: EvLteLcOffline :: EvLteLcDeinit :: mid').
Proof.
  intros Hsplit.
  destruct (init_modem_and_lte_recovers env bld h g pre _ post Hsplit) as (rest & Hpost).
  { reflexivity. }
  split; [exists rest; exact Hpost|].
  intros mid ret post' Hmid. rewrite Hpost in Hmid.
  destruct mid as [|m1 [|m2 [|m3 mid']]]; cbn [app] in Hmid; try discriminate.
  injection Hmid as <- <- <- _. eexists. reflexivity.
Qed.

Lemma timeout_offline_deinit_before_next_init_witness :
  let es := events (init_modem_and_lte slow_attach_env sample_build [] boot_globals) in
  nth_error es 15 = Some (EvSemTake 120000 (- EAGAIN)) /\
  exists mid', firstn 4 (skipn 16 es) =
    EvUartBrokerPrint ("TIMEOUT" +++ CRLF) :: EvLteLcOffline :: EvLteLcDeinit :: mid'.
Proof.
  intros es. split; [vm_compute; reflexivity|].
  refine (proj2 (timeout_offline_deinit_before_next_init slow_attach_env sample_build
                   [] boot_globals (firstn 15 es) (skipn 16 es) 120000 _)
                (firstn 4 (skipn 16 es)) 0 (skipn 21 es) _);
    vm_compute; reflexivity.
Defined.
(** ** The authentication loop within the boot *)

Lemma filter_orb_silent (a b : event -> bool) (t : trace) :
  filter b t = [] -> filter (fun e => a e || b e) t = filter a t.
Proof.
  induction t as [|e t IH]; [reflexivity|]. cbn [filter].
  destruct (b e) eqn:Eb; [discriminate|]. intros Ht.
  rewrite orb_false_r, (IH Ht). reflexivity.
Qed.

(** The bring-up shows one granted wait when it returns 0 and none
    otherwise, and no step of the authentication loop. *)
Lemma init_modem_and_lte_auth_phase env bld (h : trace) (g : globals) :
  let r := init_modem_and_lte env bld h g in
  (result r <> 0 /\ filter is_auth_phase (events r) = []) \/
  (result r = 0 /\ exists e, is_granted e = true /\ filter is_auth_phase (events r) = [e]).
Proof.
  cbv zeta.
  assert (Hs : silent is_auth_step (init_modem_and_lte env bld))
    by (unfold init_modem_and_lte, cert_provision, connect_attempt; silence).
  unfold is_auth_phase. rewrite (filter_orb_silent _ _ _ (Hs h g)).
  destruct (init_modem_and_lte_attach env bld h g) as (_ & _ & H3). cbv zeta in H3.
  rewrite count_filter_sub in H3
    by (intros e He; unfold is_attach; destruct e; try discriminate; reflexivity).
  unfold count in H3.
  destruct (Z.eqb_spec (result (init_modem_and_lte env bld h g)) 0) as [E | E].
  - right. split; [exact E|].
    destruct (filter is_granted (events (init_modem_and_lte env bld h g)))
      as [|e [|e' l]] eqn:Ef; try discriminate H3.
    exists e. split; [|reflexivity].
    assert (Hin : In e (filter is_granted (events (init_modem_and_lte env bld h g))))
      by (rewrite Ef; left; reflexivity).
    apply filter_In in Hin. apply Hin.
  - left. split; [exact E|].
    now destruct (filter is_granted (events (init_modem_and_lte env bld h g))).
Qed.

Lemma auth_phase_retry_blocks cap fails :
  filter is_auth_phase (List.concat (map (auth_retry_block cap) fails))
  = List.concat (map (auth_retry_steps cap) fails).
Proof.
  induction fails as [|[[st u] p] fails IH]; [reflexivity|].
  cbn [map List.concat]. rewrite filter_app, IH. reflexivity.
Qed.

Lemma auth_phase_ok_block cap a :
  filter is_auth_phase (auth_ok_block cap a) = auth_ok_steps cap a.
Proof. destruct a as [[st u] p]. reflexivity. Qed.

Lemma silent_auth_phase_operate env fuel : silent is_auth_phase (operate env fuel).
Proof.
  unfold operate, operate_round.
  repeat first
    [ apply silent_cb_fileDownload; intros; reflexivity
    | progress silence ].
Qed.

(** The registration and the authentication steps of a boot, by the phase
    it has reached. *)
Lemma main_auth_phase env bld fuel (h : trace) (g : globals) :
  let r := main env bld fuel h g in
  let cap := sizeof (user_name g) in
  let es := filter is_auth_phase (events r) in
  (es = [] /\ result r = ErrorIndicator) \/
  exists e fails,
    is_granted e = true /\ Forall (fun a => fst (fst a) < 0) fails /\
    ((result r = Authenticating /\ List.length fails = fuel /\
      es = e :: List.concat (map (auth_retry_steps cap) fails)) \/
     (exists st u p,
         0 <= st /\ result r <> Authenticating /\ (List.length fails < fuel)%nat /\
         es = e :: List.concat (map (auth_retry_steps cap) fails)
                ++ auth_ok_steps cap (st, u, p))).
Proof.
  cbv zeta. unfold main.
  skip_all. skip_all_with ltac:(unfold banner; silence) ltac:(unfold banner; framing).
  skip_all_with ltac:(unfold led_init; silence) ltac:(unfold led_init; framing).
  skip_all.
  skip_all_with ltac:(unfold button_init; silence) ltac:(unfold button_init; framing).
  assert (Herr : forall h' g', filter is_auth_phase (events (err_label fuel h' g')) = []).
  { intros h' g'. rewrite err_label_events. unfold blink.
    clear. induction fuel as [|n IH]; [reflexivity | exact IH]. }
  destruct (nonzero _).
  { skip_all. rewrite err_label_result, Herr. left. split; reflexivity. }
  rewrite bind_result, bind_events, filter_app.
  destruct (init_modem_and_lte_auth_phase env bld h g)
    as [(Hne & HL) | (Hz & e & He & HL)]; cbv zeta in *; rewrite HL.
  { destruct (nonzero (result (init_modem_and_lte env bld h g))) eqn:E.
    - rewrite err_label_result, Herr. left. split; reflexivity.
    - unfold nonzero in E. apply negb_false_iff, Z.eqb_eq in E. contradiction. }
  rewrite Hz, (frame_init_modem_and_lte env bld h g). cbn [nonzero Z.eqb negb app].
  generalize (h ++ events (init_modem_and_lte env bld h g)). clear Hz HL h. intros h.
  right. exists e.
  rewrite bind_result, bind_events, filter_app.
  destruct (auth_loop_shape env fuel h g)
    as (fails & Hf & _ & [(Hres & Hlen & Hev) | (st & u & p & Hst & Hres & Hlen & Hev & _)]);
    cbv zeta in *; exists fails; (split; [exact He|]); (split; [exact Hf|]).
  - left. rewrite Hres, Hev. cbn [result events ret fst snd filter].
    rewrite app_nil_r, auth_phase_retry_blocks. repeat split. exact Hlen.
  - right. exists st, u, p. rewrite Hres, Hev. cbv beta iota.
    rewrite filter_app, auth_phase_retry_blocks, auth_phase_ok_block.
    rewrite bind_result, bind_events, filter_app.
    assert (Hset : forall h' g', filter is_auth_phase
                                   (events (SipfClientHttpSetAuthInfo env h' g')) = [])
      by (intros; reflexivity).
    rewrite Hset. cbn [app].
    split; [exact Hst|].
    match goal with
    | |- context [if ?c then _ else _] => destruct c
    end.
    + rewrite err_label_result, Herr, app_nil_r. repeat split; [discriminate | exact Hlen].
    + rewrite operate_result, silent_auth_phase_operate, app_nil_r.
      repeat split; [discriminate | exact Hlen].
Qed.

Lemma auth_steps_of_retry_steps cap fails (rest : trace) :
  filter is_auth_step (List.concat (map (auth_retry_steps cap) fails) ++ rest)
  = List.concat (map (auth_retry_steps cap) fails) ++ filter is_auth_step rest /\
  filter is_granted (List.concat (map (auth_retry_steps cap) fails) ++ rest)
  = filter is_granted rest.
Proof.
  induction fails as [|[[st u] p] fails [IH1 IH2]]; [split; reflexivity|].
  cbn [map List.concat]. rewrite <- app_assoc.
  rewrite (filter_app is_auth_step (auth_retry_steps cap (st, u, p))),
    (filter_app is_granted (auth_retry_steps cap (st, u, p))), IH1, IH2.
  split; [rewrite app_assoc|]; reflexivity.
Qed.

(** C4: a boot that registered runs the authentication loop, and its steps
    are a run of refused rounds, each made of the announcement, a request
    answered with a negative status, the retry notice and a 10 s sleep,
    directly followed by the next round.  Whatever the number [fuel] of
    rounds considered, either all [fuel] of them were refused and [main]
    is still authenticating, or the loop was left, and then by a request
    answered with a non-negative status.  A boot that did not register
    ends in the error loop without any of these steps. *)
Theorem auth_retries_without_bound
    (env : Env) (bld : build) (fuel : nat) (h : trace) (g : globals) :
  let r := main env bld fuel h g in
  let cap := sizeof (user_name g) in
  (count is_granted (events r) = 0%nat /\
   auth_steps (events r) = [] /\ result r = ErrorIndicator) \/
  (count is_granted (events r) = 1%nat /\
   exists fails : list (Z * list byte * list byte),
     Forall (fun a => fst (fst a) < 0) fails /\
     ((result r = Authenticating /\ List.length fails = fuel /\
       auth_steps (events r) = List.concat (map (auth_retry_steps cap) fails))
      \/
      (exists st u p,
          0 <= st /\ result r <> Authenticating /\ (List.length fails < fuel)%nat /\
          auth_steps (events r)
          = List.concat (map (auth_retry_steps cap) fails)
            ++ auth_ok_steps cap (st, u, p)))).
Proof.
  intros r cap. subst r cap.
  assert (Hg : forall t, count is_granted t = count is_granted (filter is_auth_phase t)).
  { intros t. symmetry. apply count_filter_sub.
    intros e He. unfold is_auth_phase. now rewrite He. }
  assert (Hs : forall t, auth_steps t = filter is_auth_step (filter is_auth_phase t)).
  { intros t. unfold auth_steps. symmetry. apply filter_filter_sub.
    intros e He. unfold is_auth_phase. rewrite He. apply orb_true_r. }
  rewrite Hg, Hs.
  destruct (main_auth_phase env bld fuel h g) as [(-> & Hres) | (e & fails & He & Hf & Hc)];
    cbv zeta in *.
  - left. repeat split. exact Hres.
  - right.
    assert (He' : is_auth_step e = false)
      by (destruct e; try discriminate He; reflexivity).
    destruct Hc as [(Hres & Hlen & ->) | (st & u & p & Hst & Hres & Hlen & ->)].
    + destruct (auth_steps_of_retry_steps (sizeof (user_name g)) fails []) as [H1 H2].
      rewrite app_nil_r in H1, H2.
      split; [unfold count; cbn [filter]; rewrite He, H2; reflexivity|].
      exists fails. split; [exact Hf|]. left.
      cbn [filter]. rewrite He', H1. cbn [filter]. rewrite app_nil_r. auto.
    + destruct (auth_steps_of_retry_steps (sizeof (user_name g)) fails
                  (auth_ok_steps (sizeof (user_name g)) (st, u, p))) as [H1 H2].
      split; [unfold count; cbn [filter]; rewrite He, H2; reflexivity|].
      exists fails. split; [exact Hf|]. right. exists st, u, p.
      cbn [filter]. rewrite He', H1. auto.
Qed.

(** A service that refuses every request keeps [main] authenticating for as
    many rounds as one cares to look at: a request, a notice and a 10 s
    sleep per round. *)
Example boot_never_gives_up :
  let r := main refusing_env sample_build 50 [] boot_globals in
  result r = Authenticating /\
  count is_auth_request (events r) = 50%nat /\
  count (fun e => match e with EvSleep 10000 => true | _ => false end) (events r) = 50%nat /\
  List.length (auth_steps (events r)) = 200%nat.
Proof. vm_compute. auto. Qed.

(** ** The operational loop *)

Lemma traffic_SipfFileDownload env name cap buff_cb h g :
  (forall buff len, silent is_button_traffic (buff_cb buff len)) ->
  filter is_button_traffic (events (SipfFileDownload env name cap buff_cb h g))
  = [EvSipfFileDownload name cap].
Proof.
  intros Hcb. unfold SipfFileDownload. rewrite bind_events, filter_app.
  cbn [emit events snd filter is_button_traffic is_download orb app]. f_equal.
  assert (Hs : silent is_button_traffic
                 (deliver buff_cb (fst (env_SipfFileDownload env
                                          (h ++ [EvSipfFileDownload name cap]) name cap)) ;;
                  emit (EvSipfFileDownloadDone
                          (snd (env_SipfFileDownload env
                                  (h ++ [EvSipfFileDownload name cap]) name cap))) ;;
                  ret (snd (env_SipfFileDownload env
                              (h ++ [EvSipfFileDownload name cap]) name cap)))).
  { apply silent_bind; [now apply silent_deliver | intros _]. silence. }
  apply Hs.
Qed.

Lemma result_then_ret {A B} (m : M A) (b : B) h g :
  result ((m ;; ret b) h g) = b.
Proof. rewrite bind_result. reflexivity. Qed.

(** The body of the rising-edge branch shows one download request. *)
Lemma traffic_download_branch env (h : trace) (g : globals) :
  filter is_button_traffic
    (events
       ((UartBrokerPuts ("File download Button Pushed" +++ CRLF) ;;
         gpio_pin_set_dt led_state 1 ;;
         recv_len <- SipfFileDownload env "sipf_file_sample.txt" sizeof_work_buff
                       cb_fileDownload ;;
         (if recv_len <? 0 then UartBrokerPuts ("FAILED" +++ CRLF)
          else UartBrokerPrint ("Received: " +++ fmt_d recv_len +++ " bytes." +++ CRLF)) ;;
         gpio_pin_set_dt led_state 0) h g))
  = [EvSipfFileDownload "sipf_file_sample.txt" sizeof_work_buff].
Proof.
  skip. skip. rewrite filter_bind_silent_r by (intros; silence).
  apply traffic_SipfFileDownload. intros. apply silent_cb_fileDownload; reflexivity.
Qed.

(** One round, seen through its button traffic: the read, answered [v];
    a download request exactly when the stored level is 0 and [v] is 1;
    and the level stored afterwards, which is [v] unless the read failed. *)
Lemma operate_round_traffic env (s : Z * Z) (h : trace) (g : globals) :
  let r := operate_round env s h g in
  exists v t',
    filter is_button_traffic (events r)
    = EvGpioPinGet btn_send v
      :: (if (snd s =? 0) && (v =? 1)
          then [EvSipfFileDownload "sipf_file_sample.txt" sizeof_work_buff]
          else []) /\
    result r = inl (t', if v <? 0 then snd s else v).
Proof.
  cbv zeta. unfold operate_round.
  apply (skip_prefix is_button_traffic _ _
           (fun res es => exists v t',
                es = EvGpioPinGet btn_send v
                     :: (if (snd s =? 0) && (v =? 1)
                         then [EvSipfFileDownload "sipf_file_sample.txt" sizeof_work_buff]
                         else []) /\
                res = inl (t', if v <? 0 then snd s else v)));
    [silence | framing |].
  intros ms_now h1.
  apply (skip_prefix is_button_traffic _ _
           (fun res es => exists v t',
                es = EvGpioPinGet btn_send v
                     :: (if (snd s =? 0) && (v =? 1)
                         then [EvSipfFileDownload "sipf_file_sample.txt" sizeof_work_buff]
                         else []) /\
                res = inl (t', if v <? 0 then snd s else v)));
    [silence | framing |].
  intros ms_timeout h2.
  set (v := env_gpio_pin_get_dt env h2 btn_send).
  rewrite bind_result, bind_events, filter_app.
  change (result (gpio_pin_get_dt env btn_send h2 g)) with v.
  change (events (gpio_pin_get_dt env btn_send h2 g)) with [EvGpioPinGet btn_send v].
  change (final (gpio_pin_get_dt env btn_send h2 g)) with g.
  cbv beta. cbn [filter is_button_traffic is_download is_button_read orb app].
  exists v, ms_timeout.
  rewrite bind_result, filter_bind_silent_r by (intros; silence).
  rewrite result_then_ret.
  destruct (Z.ltb_spec v 0) as [Hneg | Hpos].
  - replace (v =? 1) with false by (symmetry; apply Z.eqb_neq; lia).
    rewrite andb_false_r. rewrite result_then_ret. split; reflexivity.
  - rewrite result_then_ret, filter_bind_silent_r by (intros; silence).
    destruct ((snd s =? 0) && (v =? 1)).
    + rewrite traffic_download_branch. split; reflexivity.
    + split; reflexivity.
Qed.

Lemma button_levels_app (t u : trace) :
  button_levels (t ++ u) = button_levels t ++ button_levels u.
Proof.
  induction t as [|e t IH]; [reflexivity|].
  destruct e; cbn [app button_levels]; try exact IH.
  destruct dev; try exact IH.
  match goal with |- context [if ?c then _ else _] => destruct c end;
    [exact IH | now rewrite IH].
Qed.

Lemma button_levels_traffic (t : trace) :
  button_levels (filter is_button_traffic t) = button_levels t.
Proof.
  induction t as [|e t IH]; [reflexivity|].
  destruct e; cbn; try exact IH.
  destruct dev; cbn; try exact IH.
  match goal with |- context [if ?c then _ else _] => destruct c end;
    [exact IH | now rewrite IH].
Qed.

Lemma last_cons (l : list Z) :
  forall v d, last (v :: l) d = last l v.
Proof.
  induction l as [|w l IH]; intros v d; [reflexivity|].
  change (last (v :: w :: l) d) with (last (w :: l) d).
  now rewrite (IH w d), (IH w v).
Qed.

Lemma rising_edges_app (p : Z) (l1 l2 : list Z) :
  rising_edges p (l1 ++ l2)
  = (rising_edges p l1 + rising_edges (last l1 p) l2)%nat.
Proof.
  revert p. induction l1 as [|v l1 IH]; intros p; [reflexivity|].
  cbn [app rising_edges]. rewrite IH, last_cons.
  destruct ((p =? 0) && (v =? 1)); reflexivity.
Qed.

Lemma last_app_nested (l1 l2 : list Z) (d : Z) :
  last (l1 ++ l2) d = last l2 (last l1 d).
Proof.
  revert d. induction l1 as [|v l1 IH]; intros d; [reflexivity|].
  cbn [app]. now rewrite !last_cons, IH.
Qed.

(** One round: the read, the levels it shows, the downloads it requests
    and the level it stores. *)
Lemma operate_round_summary env (s : Z * Z) (h : trace) (g : globals) :
  let r := operate_round env s h g in
  exists v t',
    filter is_button_read (events r) = [EvGpioPinGet btn_send v] /\
    button_levels (events r) = (if v <? 0 then [] else [v]) /\
    count is_download (events r)
    = (if (snd s =? 0) && (v =? 1) then 1%nat else 0%nat) /\
    result r = inl (t', if v <? 0 then snd s else v).
Proof.
  cbv zeta. destruct (operate_round_traffic env s h g) as (v & t' & Htr & Hres).
  cbv zeta in *. exists v, t'.
  assert (Hread : filter is_button_read (events (operate_round env s h g))
                  = filter is_button_read (filter is_button_traffic
                                             (events (operate_round env s h g)))).
  { rewrite filter_filter_sub; [reflexivity|].
    intros e He. unfold is_button_traffic. rewrite He. apply orb_true_r. }
  rewrite Hread, <- button_levels_traffic, <- (count_filter_sub is_download is_button_traffic)
    by (intros e He; unfold is_button_traffic; now rewrite He).
  rewrite Htr. repeat split.
  - destruct ((snd s =? 0) && (v =? 1)); reflexivity.
  - cbn [button_levels]. destruct ((snd s =? 0) && (v =? 1)); destruct (v <? 0); reflexivity.
  - destruct ((snd s =? 0) && (v =? 1)); reflexivity.
  - exact Hres.
Qed.

(** Any number of rounds: as many download requests as rising edges among
    the levels read, and the stored level is the last level read. *)
Lemma operate_loop_summary env :
  forall (fuel : nat) (s : Z * Z) (h : trace) (g : globals),
    let r := forever (R := unit) fuel (operate_round env) s h g in
    count is_download (events r) = rising_edges (snd s) (button_levels (events r)) /\
    exists t', result r = inl (t', last (button_levels (events r)) (snd s)).
Proof.
  induction fuel as [|fuel IH]; intros s h g r; subst r.
  - cbn. split; [reflexivity|]. exists (fst s). now destruct s.
  - cbn [forever]. rewrite bind_result, bind_events.
    destruct (operate_round_summary env s h g) as (v & t' & _ & Hlev & Hcnt & Hres).
    cbv zeta in *. rewrite Hres. cbv beta iota.
    match goal with
    | |- context [forever fuel _ ?s' ?h' ?g'] =>
        destruct (IH s' h' g') as (IHc & t'' & IHr)
    end.
    cbv zeta in *. cbn [snd] in IHc, IHr.
    rewrite count_app, button_levels_app, rising_edges_app, last_app_nested, Hcnt, Hlev, IHc.
    split.
    + destruct (Z.ltb_spec v 0) as [Hneg | Hpos]; cbn [rising_edges last].
      * replace (v =? 1) with false by (symmetry; apply Z.eqb_neq; lia).
        rewrite andb_false_r. reflexivity.
      * destruct ((snd s =? 0) && (v =? 1)); reflexivity.
    + exists t''. rewrite IHr. destruct (v <? 0); reflexivity.
Qed.

(** Any number of rounds: one read of the button per round. *)
Lemma operate_loop_polls env :
  forall (fuel : nat) (s : Z * Z) (h : trace) (g : globals),
    count is_button_read (events (forever (R := unit) fuel (operate_round env) s h g))
    = fuel.
Proof.
  induction fuel as [|fuel IH]; intros s h g; [reflexivity|].
  cbn [forever]. rewrite bind_events, count_app.
  destruct (operate_round_summary env s h g) as (v & t' & Hread & _ & _ & Hres).
  cbv zeta in *. rewrite Hres. cbv beta iota. rewrite IH.
  unfold count. rewrite Hread. reflexivity.
Qed.

(** The operational phase: [fuel] rounds, a read of the button in each,
    and as many download requests as rising edges among the levels read,
    starting from level 0. *)
Lemma operate_polls_and_fires env (fuel : nat) (h : trace) (g : globals) :
  let es := filter is_button_traffic (events (operate env fuel h g)) in
  count is_button_read es = fuel /\
  count is_download es = rising_edges 0 (button_levels es).
Proof.
  cbv zeta. unfold operate. skip. skip. skip.
  rewrite filter_bind_silent_r by (intros; silence).
  rewrite !count_filter_sub
    by (intros e He; unfold is_button_traffic; rewrite He; auto using orb_true_r).
  rewrite button_levels_traffic. split.
  - apply operate_loop_polls.
  - match goal with
    | |- context [forever fuel _ ?s0 h g] =>
        apply (operate_loop_summary env fuel s0 h g)
    end.
Qed.

(** C7: in a round of the operational loop the button is read once and the
    download is requested exactly when the stored level is 0 and the level
    read is 1.  The operational phase runs one such round after the other,
    so over [fuel] rounds the button is read [fuel] times and there are as
    many requests as rising edges in the sequence of levels read, starting
    from level 0.  This is what [main] does once it is operational; a boot
    that is not operational neither reads the button nor downloads. *)
Theorem download_once_per_rising_edge (env : Env) :
  (forall (s : Z * Z) (h : trace) (g : globals),
      let r := operate_round env s h g in
      exists v,
        filter is_button_read (events r) = [EvGpioPinGet btn_send v] /\
        ((snd s = 0 /\ v = 1 /\ count is_download (events r) = 1%nat) \/
         (~ (snd s = 0 /\ v = 1) /\ count is_download (events r) = 0%nat))) /\
  (forall (fuel : nat) (h : trace) (g : globals),
      let r := operate env fuel h g in
      count is_button_read (events r) = fuel /\
      count is_download (events r) = rising_edges 0 (button_levels (events r))) /\
  (forall (bld : build) (fuel : nat) (h : trace) (g : globals),
      let r := main env bld fuel h g in
      (result r = Operational ->
       count is_button_read (events r) = fuel /\
       count is_download (events r) = rising_edges 0 (button_levels (events r))) /\
      (result r <> Operational ->
       filter is_button_traffic (events r) = [])).
Proof.
  assert (Hb : forall t, count is_button_read (filter is_button_traffic t)
                         = count is_button_read t)
    by (intros; apply count_filter_sub; intros e He; unfold is_button_traffic;
        rewrite He; apply orb_true_r).
  assert (Hd : forall t, count is_download (filter is_button_traffic t)
                         = count is_download t)
    by (intros; apply count_filter_sub; intros e He; unfold is_button_traffic;
        now rewrite He).
  split; [|split].
  - intros s h g r. subst r.
    destruct (operate_round_summary env s h g) as (v & t' & Hread & _ & Hcnt & _).
    cbv zeta in *. exists v. split; [exact Hread|]. rewrite Hcnt.
    destruct (Z.eqb_spec (snd s) 0) as [E1 | E1]; destruct (Z.eqb_spec v 1) as [E2 | E2];
      cbn [andb]; [left; auto | right | right | right]; (split; [tauto | reflexivity]).
  - intros fuel h g r. subst r.
    pose proof (operate_polls_and_fires env fuel h g) as H. cbv zeta in H.
    now rewrite Hb, Hd, button_levels_traffic in H.
  - intros bld fuel h g r. subst r.
    rewrite <- Hb, <- Hd, <- button_levels_traffic.
    set (Q := fun (res : phase) (es : trace) =>
                (res = Operational ->
                 count is_button_read es = fuel /\
                 count is_download es = rising_edges 0 (button_levels es)) /\
                (res <> Operational -> es = [])).
    change (Q (result (main env bld fuel h g))
              (filter is_button_traffic (events (main env bld fuel h g)))).
    assert (Herr : forall h' g',
               Q (result (err_label fuel h' g'))
                 (filter is_button_traffic (events (err_label fuel h' g')))).
    { intros h' g'. rewrite err_label_result.
      assert (Hs : silent is_button_traffic (err_label fuel))
        by (apply silent_err_label; reflexivity).
      rewrite Hs. split; [discriminate | reflexivity]. }
    unfold main.
    apply skip_prefix_any; [silence | intros _ h1 g1].
    apply skip_prefix_any; [unfold banner; silence | intros _ h2 g2].
    apply skip_prefix_any; [unfold led_init; silence | intros _ h3 g3].
    apply skip_prefix_any; [silence | intros _ h4 g4].
    apply skip_prefix_any; [unfold button_init; silence | intros b h5 g5].
    destruct (nonzero b).
    { apply skip_prefix_any; [silence | intros _ h6 g6]. apply Herr. }
    apply skip_prefix_any;
      [unfold init_modem_and_lte, cert_provision, connect_attempt; silence
      | intros err h6 g6].
    destruct (nonzero err); [apply Herr|].
    apply skip_prefix_any; [unfold auth_round; silence | intros a h7 g7].
    destruct a as [[]|st]; [split; [discriminate | reflexivity]|].
    apply skip_prefix_any; [silence | intros sr h8 g8].
    destruct (sr <? 0); [apply Herr|].
    rewrite operate_result. split; [intros _ | intros H; now contradiction H].
    apply (operate_polls_and_fires env fuel h8 g8).
Qed.

(** A held button fires once; a falling edge does not fire. *)
Example held_button_fires_once : rising_edges 0 [1; 1; 1; 1] = 1%nat.
Proof. reflexivity. Qed.

Example falling_edge_does_not_fire : rising_edges 1 [0; 0] = 0%nat.
Proof. reflexivity. Qed.

Example two_presses_fire_twice : rising_edges 0 [0; 1; 1; 0; 1] = 2%nat.
Proof. reflexivity. Qed.

(** Scenario E5 on the bench: the button goes up at the second read and
    stays up; one download, whose two bytes are printed in hexadecimal. *)
Example happy_boot_downloads_once :
  let es := events (main happy_env sample_build 6 [] boot_globals) in
  button_levels es = [0; 1; 1; 1; 1; 1] /\ count is_download es = 1%nat.
Proof. vm_compute. auto. Qed.

(** C10: a round whose button read reports an error (a negative value)
    keeps the stored level and requests no download; over any number of
    rounds the stored level is the last level that was read successfully. *)
Theorem failed_button_read_keeps_level
    (env : Env) (s : Z * Z) (h : trace) (g : globals) (v : Z) :
  In (EvGpioPinGet btn_send v) (events (operate_round env s h g)) ->
  v < 0 ->
  (exists t', result (operate_round env s h g) = inl (t', snd s)) /\
  count is_download (events (operate_round env s h g)) = 0%nat /\
  (forall (fuel : nat) (h' : trace) (g' : globals),
      let r := forever (R := unit) fuel (operate_round env) s h' g' in
      exists t', result r = inl (t', last (button_levels (events r)) (snd s))).
Proof.
  intros Hin Hneg.
  destruct (operate_round_summary env s h g) as (v0 & t' & Hread & _ & Hcnt & Hres).
  cbv zeta in *.
  assert (Hv : v0 = v).
  { assert (Hin' : In (EvGpioPinGet btn_send v)
                      (filter is_button_read (events (operate_round env s h g))))
      by (apply filter_In; split; [exact Hin | reflexivity]).
    rewrite Hread in Hin'. destruct Hin' as [Heq | []]. now injection Heq. }
  subst v0. split; [|split].
  - exists t'. rewrite Hres. destruct (Z.ltb_spec v 0); [reflexivity | lia].
  - rewrite Hcnt. replace (v =? 1) with false by (symmetry; apply Z.eqb_neq; lia).
    now rewrite andb_false_r.
  - intros fuel h' g'. apply (operate_loop_summary env fuel s h' g').
Qed.

Lemma failed_button_read_keeps_level_witness :
  let r := operate_round glitch_env (1000, 1) [EvGpioPinGet btn_send 1] boot_globals in
  (exists t', result r = inl (t', 1)) /\ count is_download (events r) = 0%nat.
Proof.
  intros r.
  destruct (failed_button_read_keeps_level glitch_env (1000, 1)
              [EvGpioPinGet btn_send 1] boot_globals (-5)) as (H1 & H2 & _).
  - vm_compute. auto.
  - lia.
  - split; [exact H1 | exact H2].
Defined.

(** The glitch on the bench: pressed, a failed read, still pressed.  The
    failed read neither fires nor makes the next read look like an edge. *)
Example glitch_does_not_refire :
  let r := forever (R := unit) 3 (operate_round glitch_env) (0, 0) [] boot_globals in
  button_levels (events r) = [1; 1] /\ count is_download (events r) = 1%nat.
Proof. vm_compute. auto. Qed.

(** ** Peripheral initialization *)

(** [led_init] succeeds exactly when both LED ports are ready, and has then
    configured both LEDs as inactive outputs. *)
Lemma led_init_cases env (h : trace) (g : globals) :
  let r := led_init env h g in
  (result r = 0 /\
   events r = [ EvDeviceIsReady led_boot true;
                EvGpioPinConfigure led_boot GPIO_OUTPUT_INACTIVE;
                EvDeviceIsReady led_state true;
                EvGpioPinConfigure led_state GPIO_OUTPUT_INACTIVE ]) \/
  (result r = - ENODEV /\
   (events r = [EvDeviceIsReady led_boot false] \/
    events r = [ EvDeviceIsReady led_boot true;
                 EvGpioPinConfigure led_boot GPIO_OUTPUT_INACTIVE;
                 EvDeviceIsReady led_state false ])).
Proof.
  cbv zeta. unfold led_init, bind, device_is_ready, gpio_pin_configure_dt, ask, emit, ret,
    result, events.
  cbn [fst snd app].
  destruct (env_device_is_ready env h led_boot); cbn [negb fst snd app]; [|auto].
  destruct (env_device_is_ready env _ led_state); cbn [negb fst snd app]; auto.
Qed.

(** [button_init] succeeds exactly when the button port is ready, and has
    then configured the button as an input. *)
Lemma button_init_cases env (h : trace) (g : globals) :
  let r := button_init env h g in
  (result r = 0 /\
   events r = [EvDeviceIsReady btn_send true; EvGpioPinConfigure btn_send GPIO_INPUT]) \/
  (result r = - ENODEV /\ events r = [EvDeviceIsReady btn_send false]).
Proof.
  cbv zeta. unfold button_init, bind, device_is_ready, gpio_pin_configure_dt, ask, emit, ret,
    result, events.
  cbn [fst snd app].
  destruct (env_device_is_ready env h btn_send); cbn [negb fst snd app]; auto.
Qed.

(** A button port that is not ready sends the boot to the error indicator,
    before the modem is touched. *)
Lemma button_not_ready_is_fatal env bld fuel (h : trace) (g : globals) :
  (forall h', env_device_is_ready env h' btn_send = false) ->
  result (main env bld fuel h g) = ErrorIndicator /\
  count (fun e => match e with EvNrfModemLibInit _ => true | _ => false end)
        (events (main env bld fuel h g)) = 0%nat.
Proof.
  intros Hbtn. split.
  - revert h g. change (returns (main env bld fuel) (fun ph => ph = ErrorIndicator)).
    unfold main. do 4 returns_step.
    eapply (returns_bind _ _ (fun b => b = - ENODEV)).
    { intros h g. destruct (button_init_cases env h g) as [(_ & He) | (Hr & _)];
        cbv zeta in *; [|exact Hr].
      unfold button_init, bind, device_is_ready, ask, events in He.
      rewrite Hbtn in He. discriminate. }
    intros b ->. cbn [nonzero ENODEV Z.eqb negb Z.opp].
    returns_step. unfold err_label. returns_step. apply returns_ret. reflexivity.
  - apply count_silent. revert h g.
    change (silent (fun e => match e with EvNrfModemLibInit _ => true | _ => false end)
                   (main env bld fuel)).
    unfold main.
    apply silent_bind; [silence | intros _].
    apply silent_bind; [unfold banner; silence | intros _].
    apply silent_bind; [unfold led_init; silence | intros _].
    apply silent_bind; [silence | intros _].
    intros h g. rewrite bind_events, filter_app.
    assert (Hs : silent (fun e => match e with EvNrfModemLibInit _ => true | _ => false end)
                        (button_init env)) by (unfold button_init; silence).
    rewrite Hs. cbn [app].
    destruct (button_init_cases env
                (h) g) as [(_ & He) | (Hr & _)]; cbv zeta in *.
    + unfold button_init, bind, device_is_ready, ask, events in He.
      rewrite Hbtn in He. discriminate.
    + rewrite Hr. cbn [nonzero ENODEV Z.eqb negb Z.opp].
      assert (Hs' : silent (fun e => match e with EvNrfModemLibInit _ => true | _ => false end)
                          (gpio_pin_set_dt led_boot 0 ;; err_label fuel)).
      { apply silent_bind; [silence | intros _]. apply silent_err_label; reflexivity. }
      apply Hs'.
Qed.

(** C9, on the code: with the boot LED's port not ready, [led_init] fails
    with [-ENODEV], but [main] does not look at what [led_init] returns;
    the boot goes on through the modem bring-up and the authentication and
    reaches the operational loop. *)
Theorem led_not_ready_boot_proceeds :
  let r := main led_down_env sample_build 2 [] boot_globals in
  result (led_init led_down_env
            [EvUartBrokerInit;
             EvUartBrokerPrint ("*** SIPF SDK Sample for nRFConnect" +++ CRLF)]
            boot_globals) = - ENODEV /\
  result r = Operational /\
  In (EvDeviceIsReady led_boot false) (events r) /\
  In (EvNrfModemLibInit 0) (events r) /\
  In (EvUartBrokerPuts ("+++ Ready +++" +++ CRLF)) (events r) /\
  count (fun e => match e with EvGpioPinToggle led_boot => true | _ => false end)
        (events r) = 0%nat.
Proof.
  vm_compute. repeat split; auto 40.
Qed.

(** ** The order of a boot *)

Lemma cert_provision_milestones env bld (h : trace) (g : globals) :
  let r := cert_provision env bld h g in
  (result r <> 0 /\
   (milestones (events r) = [] \/
    exists w, milestones (events r) = [cert_write_event bld w]))
  \/ (result r = 0 /\ milestones (events r) = [cert_write_event bld 0]).
Proof.
  cbv zeta. unfold cert_provision, milestones, cert_write_event.
  unfold bind, modem_key_mgmt_exists, modem_key_mgmt_delete, modem_key_mgmt_write,
    LOG, ask, emit, ret, nonzero, result, events.
  destruct (env_modem_key_mgmt_exists env h TLS_SEC_TAG MODEM_KEY_MGMT_CRED_TYPE_CA_CHAIN)
    as [e present]. cbn [fst snd].
  destruct (Z.eqb_spec e 0) as [-> | Hne]; cbn [negb fst snd app].
  2:{ left. split; [exact Hne | left; reflexivity]. }
  destruct present; cbn [fst snd app];
    try destruct (env_modem_key_mgmt_delete env _ _ _ =? 0); cbn [negb fst snd app];
    match goal with
    | |- context [env_modem_key_mgmt_write env ?a ?b ?c ?d ?e =? 0] =>
        destruct (Z.eqb_spec (env_modem_key_mgmt_write env a b c d e) 0) as [Hw | Hw]
    end; cbn [negb fst snd app filter is_milestone is_key_write is_granted
                is_auth_request is_set_auth is_ready_print is_download orb];
    try (right; split; [reflexivity | rewrite Hw; reflexivity]);
    try (left; split; [exact Hw | right; eexists; reflexivity]).
Qed.

Lemma milestones_timeout_blocks (l : list Z) :
  milestones (List.concat (map timeout_block l)) = [].
Proof.
  induction l as [|j l IH]; [reflexivity|].
  cbn [map List.concat]. unfold milestones in *. now rewrite filter_app, IH.
Qed.

Lemma milestones_final_block i v last :
  final_block i v last ->
  milestones last = if v =? 0 then [registered_event] else [].
Proof.
  intros Hfb. destruct Hfb as [e He | e He | psm | e He1 He2];
    try destruct (psm =? 0); unfold milestones, is_milestone; cbn;
    try (destruct (Z.eqb_spec e 0); [contradiction | reflexivity]); reflexivity.
Qed.

Lemma connect_loop_milestones env (n : nat) (i : Z) (h : trace) (g : globals) :
  let r := for_range n i (connect_attempt env) h g in
  milestones (events r)
  = match result r with
    | Some v => if v =? 0 then [registered_event] else []
    | None => []
    end.
Proof.
  cbv zeta.
  destruct (connect_loop_shape env n i h g)
    as (k & [(Hr & _ & He) | (v & last & _ & Hr & Hfb & He)]); cbv zeta in *;
    rewrite Hr, He.
  - apply milestones_timeout_blocks.
  - unfold milestones. rewrite filter_app.
    fold (milestones (List.concat (map timeout_block (rounds i k)))).
    fold (milestones last).
    now rewrite milestones_timeout_blocks, (milestones_final_block _ _ _ Hfb).
Qed.

Lemma init_modem_and_lte_milestones env bld (h : trace) (g : globals) :
  let r := init_modem_and_lte env bld h g in
  bringup_milestones bld (result r) (milestones (events r)).
Proof.
  cbv zeta. unfold milestones, init_modem_and_lte.
  assert (Hfail : forall (text : string) v (L : trace) h,
             nonzero v = true ->
             (L = [] \/ exists w, L = [cert_write_event bld w]) ->
             bringup_milestones bld
               (result ((LOG LOG_ERR text ;; ret v) h g))
               (L ++ filter is_milestone (events ((LOG LOG_ERR text ;; ret v) h g)))).
  { intros text v L h' Hv HL. cbn. rewrite app_nil_r. left.
    split; [apply nonzero_true, Hv | exact HL]. }
  skip_all. destruct (nonzero z) eqn:E1; [apply (Hfail _ _ [] h E1); auto|].
  rewrite bind_result, bind_events, filter_app.
  assert (Hfc : frame (cert_provision env bld)) by (unfold cert_provision; framing).
  rewrite (Hfc h g).
  destruct (cert_provision_milestones env bld h g) as [(Hne & HL) | (Hz & HL)];
    cbv zeta in *; unfold milestones in HL.
  { destruct (nonzero (result (cert_provision env bld h g))) eqn:E2.
    - apply nonzero_true in E2.
      destruct HL as [-> | (w & ->)]; cbn; left; split; auto.
      right. exists w. reflexivity.
    - unfold nonzero in E2. apply negb_false_iff, Z.eqb_eq in E2. contradiction. }
  rewrite Hz, HL. cbn [nonzero Z.eqb negb].
  generalize (h ++ events (cert_provision env bld h g)). clear Hz HL h. intros h.
  change (bringup_milestones bld ?r ([cert_write_event bld 0] ++ ?es))
    with ((fun res es' => bringup_milestones bld res ([cert_write_event bld 0] ++ es')) r es).
  apply skip_prefix; [silence | framing |]. intros r3 h3. cbv zeta.
  destruct (nonzero (fst r3)) eqn:E3.
  { apply (Hfail _ _ [cert_write_event bld 0] h3 E3). right. eexists. reflexivity. }
  apply skip_prefix; [silence | framing |]. intros e4 h4.
  destruct (nonzero e4) eqn:E4.
  { apply (Hfail _ _ [cert_write_event bld 0] h4 E4). right. eexists. reflexivity. }
  apply skip_prefix; [silence | framing |]. intros _ h5.
  rewrite bind_result, bind_events, filter_app.
  pose proof (connect_loop_milestones env (Z.to_nat REGISTER_TRY) 0 h5 g) as Hloop.
  cbv zeta in Hloop. unfold milestones in Hloop. rewrite Hloop.
  destruct (result (for_range _ 0 _ h5 g)) as [v|].
  - cbn [result events ret fst snd filter app]. rewrite app_nil_r.
    clear Hloop. destruct (Z.eqb_spec v 0) as [Hv | Hv].
    + right. split; [exact Hv | reflexivity].
    + left. split; [exact Hv | right; eexists; reflexivity].
  - cbn. left. split; [lia | right; eexists; reflexivity].
Qed.

Lemma filter_narrow (p q : event -> bool) (t : trace) :
  (forall e, q e = true -> p e = true) ->
  filter (fun e => p e && negb (q e)) t = [] ->
  filter p t = filter q t.
Proof.
  intros Hqp. induction t as [|e t IH]; [reflexivity|]. cbn [filter].
  destruct (p e) eqn:Ep; destruct (q e) eqn:Eq; cbn [andb negb]; intros H.
  - now rewrite IH.
  - discriminate.
  - apply Hqp in Eq. congruence.
  - now apply IH.
Qed.

(** The download requests of any number of rounds, as a list. *)
Lemma operate_loop_downloads env :
  forall (fuel : nat) (s : Z * Z) (h : trace) (g : globals),
    exists k,
      filter is_download (events (forever (R := unit) fuel (operate_round env) s h g))
      = repeat download_event k.
Proof.
  induction fuel as [|fuel IH]; intros s h g.
  - exists 0%nat. reflexivity.
  - cbn [forever]. rewrite bind_events, filter_app.
    destruct (operate_round_traffic env s h g) as (v & t' & Htr & Hres).
    cbv zeta in *. rewrite Hres. cbv beta iota.
    match goal with
    | |- context [forever fuel _ ?s' ?h' ?g'] => destruct (IH s' h' g') as (k & Hk)
    end.
    rewrite Hk.
    rewrite <- (filter_filter_sub is_download is_button_traffic)
      by (intros e He; unfold is_button_traffic; now rewrite He).
    rewrite Htr. cbn [filter is_download].
    destruct ((snd s =? 0) && (v =? 1)).
    + exists (S k). reflexivity.
    + exists k. reflexivity.
Qed.

Lemma operate_milestones env fuel (h : trace) (g : globals) :
  exists k,
    milestones (events (operate env fuel h g))
    = EvUartBrokerPuts ready_line :: repeat download_event k.
Proof.
  unfold milestones, operate. rewrite bind_events, filter_app.
  unfold UartBrokerPuts at 1 2 3. cbn [emit events result final fst snd filter app].
  change (is_milestone (EvUartBrokerPuts ("+++ Ready +++" +++ CRLF))) with true.
  cbv iota. generalize (h ++ [EvUartBrokerPuts ("+++ Ready +++" +++ CRLF)]).
  clear h. intros h.
  skip. skip. rewrite filter_bind_silent_r by (intros; silence).
  match goal with
  | |- context [forever fuel _ ?s h g] =>
      destruct (operate_loop_downloads env fuel s h g) as (k & Hk);
      exists k; fold ready_line; cbn [app]; f_equal; rewrite <- Hk;
      apply filter_narrow;
      [ intros e He; unfold is_milestone; rewrite He; now rewrite !orb_true_r
      | assert (Hs : silent (fun e => is_milestone e && negb (is_download e))
                            (forever (R := unit) fuel (operate_round env) s))
          by (unfold operate_round; silence);
        apply Hs ]
  end.
Qed.

Lemma milestones_retry_blocks cap fails :
  milestones (List.concat (map (auth_retry_block cap) fails))
  = map (auth_request_event cap) fails.
Proof.
  induction fails as [|[[st u] p] fails IH]; [reflexivity|].
  cbn [map List.concat]. unfold milestones in *.
  rewrite filter_app, IH. reflexivity.
Qed.

Lemma milestones_ok_block cap a :
  milestones (auth_ok_block cap a) = [auth_request_event cap a].
Proof. destruct a as [[st u] p]. reflexivity. Qed.

(** The milestones of a boot, by the phase it has reached. *)
Lemma main_milestones env bld fuel (h : trace) (g : globals) :
  let r := main env bld fuel h g in
  boot_milestones bld (sizeof (user_name g)) (result r) (milestones (events r)).
Proof.
  cbv zeta. unfold milestones, main.
  skip_all. skip_all_with ltac:(unfold banner; silence) ltac:(unfold banner; framing).
  skip_all_with ltac:(unfold led_init; silence) ltac:(unfold led_init; framing).
  skip_all.
  skip_all_with ltac:(unfold button_init; silence) ltac:(unfold button_init; framing).
  assert (Herr : forall h' g', filter is_milestone (events (err_label fuel h' g')) = [])
    by (apply silent_err_label; reflexivity).
  destruct (nonzero _).
  { skip_all. rewrite err_label_result, Herr. left. reflexivity. }
  rewrite bind_result, bind_events, filter_app, (frame_init_modem_and_lte env bld h g).
  destruct (init_modem_and_lte_milestones env bld h g) as [(Hne & HL) | (Hz & HL)];
    cbv zeta in *; unfold milestones in HL.
  { destruct (nonzero (result (init_modem_and_lte env bld h g))) eqn:E.
    - rewrite err_label_result, Herr, app_nil_r.
      destruct HL as [-> | (w & ->)]; cbn [boot_milestones];
        [left; reflexivity | right; left; eauto].
    - unfold nonzero in E. apply negb_false_iff, Z.eqb_eq in E. contradiction. }
  rewrite Hz, HL. cbn [nonzero Z.eqb negb].
  generalize (h ++ events (init_modem_and_lte env bld h g)). clear Hz HL h. intros h.
  rewrite bind_result, bind_events, filter_app.
  destruct (auth_loop_shape env fuel h g)
    as (fails & _ & _ & [(Hres & _ & Hev) | (st & u & p & Hst & Hres & _ & Hev & Hu & Hp)]);
    cbv zeta in *.
  - rewrite Hres, Hev. cbn [result events ret fst snd filter]. rewrite app_nil_r.
    fold (milestones (List.concat (map (auth_retry_block (sizeof (user_name g))) fails))).
    rewrite milestones_retry_blocks. exists fails. reflexivity.
  - rewrite Hres, Hev. cbv beta iota.
    rewrite filter_app.
    fold (milestones (List.concat (map (auth_retry_block (sizeof (user_name g))) fails))).
    fold (milestones (auth_ok_block (sizeof (user_name g)) (st, u, p))).
    rewrite milestones_retry_blocks, milestones_ok_block.
    unfold auth_request_event at 2. cbn [fst snd].
    rewrite bind_result, bind_events, filter_app.
    unfold SipfClientHttpSetAuthInfo at 1 2 3 4 5.
    cbn [events result final fst snd filter is_milestone is_key_write is_granted
           is_auth_request is_set_auth is_ready_print is_download orb].
    rewrite Hu, Hp.
    match goal with
    | |- context [env_SipfClientHttpSetAuthInfo env ?hh u p] =>
        generalize (hh ++ [EvSipfClientHttpSetAuthInfo u p
                             (env_SipfClientHttpSetAuthInfo env hh u p)]);
        generalize (env_SipfClientHttpSetAuthInfo env hh u p)
    end.
    intros sr h'.
    destruct (Z.ltb_spec sr 0) as [Hneg | Hpos].
    + rewrite err_label_result, Herr. cbn [boot_milestones].
      right; right. exists fails, st, u, p, sr.
      split; [exact Hneg|]. split; [exact Hst|]. cbn [app].
      now rewrite <- app_assoc.
    + rewrite operate_result.
      match goal with
      | |- context [operate env fuel ?hh ?g'] =>
          destruct (operate_milestones env fuel hh g') as (k & Hk)
      end.
      unfold milestones in Hk. rewrite Hk. cbn [boot_milestones].
      exists fails, st, u, p, sr, k.
      split; [exact Hpos|]. split; [exact Hst|]. cbn [app].
      now rewrite <- app_assoc.
Qed.

Lemma split_after_prefix (p : event -> bool) (A L pre : trace) (e : event) (post : trace) :
  A ++ L = pre ++ e :: post -> p e = true -> filter p A = [] ->
  exists l, pre = A ++ l.
Proof.
  intros Heq He HA. apply app_eq_app in Heq.
  destruct Heq as (l & [(HA' & Hl) | (Hpre & _)]).
  - destruct l as [|x l]; cbn [app] in Hl.
    + exists []. rewrite app_nil_r in HA'. now rewrite HA', app_nil_r.
    + exfalso. injection Hl as <- _. rewrite HA', filter_app in HA.
      cbn [filter] in HA. rewrite He in HA. now destruct (filter p pre).
  - exists l. exact Hpre.
Qed.

Lemma filter_split (p : event -> bool) (pre : trace) (e : event) (post : trace) :
  p e = true -> filter p (pre ++ e :: post) = filter p pre ++ e :: filter p post.
Proof. intros He. rewrite filter_app. cbn [filter]. now rewrite He. Qed.

Lemma in_filter_in (p : event -> bool) (x : event) (t : trace) :
  In x (filter p t) -> In x t.
Proof. intros H. now apply filter_In in H. Qed.

Lemma auth_request_events_not (q : event -> bool) cap fails :
  (forall a, q (auth_request_event cap a) = false) ->
  filter q (map (auth_request_event cap) fails) = [].
Proof.
  intros Hq. induction fails as [|a l IH]; [reflexivity|].
  cbn [map filter]. now rewrite Hq.
Qed.

(** X1: authentication is requested only after the certificate was written
    successfully and the modem registered. *)
Theorem auth_request_after_certificate_and_registration
    (env : Env) (bld : build) (fuel : nat) (h : trace) (g : globals)
    (pre : trace) (e : event) (post : trace) :
  events (main env bld fuel h g) = pre ++ e :: post ->
  is_auth_request e = true ->
  In (EvKeyWrite 42 MODEM_KEY_MGMT_CRED_TYPE_CA_CHAIN (cert bld)
        (wrap_size_t (sizeof_cert bld - 1)) 0) pre /\
  In (EvSemTake 120000 0) pre.
Proof.
  intros Hsplit He.
  assert (Hm : is_milestone e = true)
    by (unfold is_milestone; rewrite He; now rewrite ?orb_true_r).
  pose proof (main_milestones env bld fuel h g) as Hms. cbv zeta in Hms.
  unfold milestones in Hms. rewrite Hsplit, (filter_split _ _ _ _ Hm) in Hms.
  assert (Hgoal : forall rest,
             filter is_milestone pre ++ e :: filter is_milestone post
             = [cert_write_event bld 0; registered_event] ++ rest ->
             In (cert_write_event bld 0) pre /\ In registered_event pre).
  { intros rest Heq. symmetry in Heq.
    destruct (split_after_prefix is_auth_request _ _ _ _ _ Heq He eq_refl) as (l & Hl).
    split; apply (in_filter_in is_milestone); rewrite Hl; cbn; auto. }
  assert (Hnil : filter is_milestone pre ++ e :: filter is_milestone post <> [])
    by (now destruct (filter is_milestone pre)).
  destruct (result (main env bld fuel h g)); cbn [boot_milestones] in Hms.
  - destruct Hms as (fails & Hms). exact (Hgoal _ Hms).
  - destruct Hms as (fails & st & u & p & sr & k & _ & _ & Hms). exact (Hgoal _ Hms).
  - destruct Hms as [Hms | [(w & Hms) | (fails & st & u & p & sr & _ & _ & Hms)]].
    + contradiction.
    + destruct (filter is_milestone pre) as [|x [|y t]]; cbn [app] in Hms;
        try discriminate.
      injection Hms as -> _. discriminate.
    + exact (Hgoal _ Hms).
Qed.

Lemma auth_request_after_certificate_and_registration_witness :
  let es := events (main happy_env sample_build 1 [] boot_globals) in
  nth_error es 27 = Some (EvSipfAuthRequest 255 255 0 [x75; x31; x00] [x70; x31; x00]) /\
  In (EvKeyWrite 42 MODEM_KEY_MGMT_CRED_TYPE_CA_CHAIN (sample_pem ++ [x00]) 5 0)
     (firstn 27 es) /\
  In (EvSemTake 120000 0) (firstn 27 es).
Proof.
  intros es. split; [vm_compute; reflexivity|].
  exact (auth_request_after_certificate_and_registration happy_env sample_build 1 []
           boot_globals (firstn 27 es)
           (EvSipfAuthRequest 255 255 0 [x75; x31; x00] [x70; x31; x00])
           (skipn 28 es) eq_refl eq_refl).
Defined.

(** X2: a download is requested only after the HTTP client accepted the
    credentials and the Ready line was written. *)
Theorem download_after_credentials_and_ready
    (env : Env) (bld : build) (fuel : nat) (h : trace) (g : globals)
    (pre : trace) (e : event) (post : trace) :
  events (main env bld fuel h g) = pre ++ e :: post ->
  is_download e = true ->
  (exists u p sr, 0 <= sr /\ In (EvSipfClientHttpSetAuthInfo u p sr) pre) /\
  In (EvUartBrokerPuts ("+++ Ready +++" +++ CRLF)) pre.
Proof.
  intros Hsplit He.
  assert (Hm : is_milestone e = true)
    by (unfold is_milestone; rewrite He; now rewrite ?orb_true_r).
  pose proof (main_milestones env bld fuel h g) as Hms. cbv zeta in Hms.
  unfold milestones in Hms. rewrite Hsplit, (filter_split _ _ _ _ Hm) in Hms.
  assert (Hcount : forall L,
             filter is_milestone pre ++ e :: filter is_milestone post = L ->
             filter is_download L <> []).
  { intros L <-. rewrite filter_app. cbn [filter]. rewrite He.
    now destruct (filter is_download (filter is_milestone pre)). }
  assert (Hreq : forall fails,
             filter is_download
               (map (auth_request_event (sizeof (user_name g))) fails) = [])
    by (intros; now apply auth_request_events_not).
  destruct (result (main env bld fuel h g)); cbn [boot_milestones] in Hms.
  - destruct Hms as (fails & Hms). apply Hcount in Hms. exfalso. apply Hms.
    cbn [app filter cert_write_event registered_event is_download]. apply Hreq.
  - destruct Hms as (fails & st & u & p & sr & k & Hsr & _ & Hms).
    rewrite !app_assoc in Hms. symmetry in Hms.
    destruct (split_after_prefix is_download _ _ _ _ _ Hms He) as (l & Hl).
    { rewrite !filter_app. cbn [filter cert_write_event registered_event is_download app].
      now rewrite Hreq. }
    split.
    + exists u, p, sr. split; [exact Hsr|].
      apply (in_filter_in is_milestone). rewrite Hl.
      apply in_or_app. left. apply in_or_app. right. cbn. auto.
    + apply (in_filter_in is_milestone). rewrite Hl.
      apply in_or_app. left. apply in_or_app. right. cbn. auto.
  - exfalso.
    destruct Hms as [Hms | [(w & Hms) | (fails & st & u & p & sr & _ & _ & Hms)]];
      apply Hcount in Hms; apply Hms; try reflexivity.
    rewrite !filter_app. cbn [filter cert_write_event registered_event is_download app].
    now rewrite Hreq.
Qed.

Lemma download_after_credentials_and_ready_witness :
  let es := events (main happy_env sample_build 3 [] boot_globals) in
  nth_error es 41 = Some (EvSipfFileDownload "sipf_file_sample.txt" 1024) /\
  In (EvUartBrokerPuts ("+++ Ready +++" +++ CRLF)) (firstn 41 es).
Proof.
  intros es. split; [vm_compute; reflexivity|].
  exact (proj2 (download_after_credentials_and_ready happy_env sample_build 3 []
                  boot_globals (firstn 41 es)
                  (EvSipfFileDownload "sipf_file_sample.txt" 1024)
                  (skipn 42 es) eq_refl eq_refl)).
Defined.

(** *** The terminal error loop *)

Lemma ends_blinking_bind {A} fuel (m : M A) (f : A -> M phase) h g :
  (forall a h' g',
      result (f a h' g') = ErrorIndicator ->
      exists pre, events (f a h' g') = pre ++ blink fuel) ->
  result (bind m f h g) = ErrorIndicator ->
  exists pre, events (bind m f h g) = pre ++ blink fuel.
Proof.
  intros Hf. rewrite bind_result, bind_events. intros Hr.
  destruct (Hf _ _ _ Hr) as (pre & ->). eexists. now rewrite app_assoc.
Qed.

(** X3: once [main] is in the loop at [err:], nothing of the operational phase
    has happened (no Ready line, no drive of the state LED, no download),
    and the trace ends with the blinking of the boot LED: a toggle and a
    100 ms sleep per round, and nothing else. *)
Theorem error_indicator_is_terminal
    (env : Env) (bld : build) (fuel : nat) (h : trace) (g : globals) :
  result (main env bld fuel h g) = ErrorIndicator ->
  filter is_operational_sign (events (main env bld fuel h g)) = [] /\
  exists pre, events (main env bld fuel h g) = pre ++ blink fuel.
Proof.
  intros Hres. split.
  - revert Hres.
    change ((fun res es => res = ErrorIndicator -> es = [])
              (result (main env bld fuel h g))
              (filter is_operational_sign (events (main env bld fuel h g)))).
    assert (Herr : forall h' g',
               filter is_operational_sign (events (err_label fuel h' g')) = []).
    { intros h' g'. rewrite err_label_events. unfold blink.
      induction fuel as [|n IH]; [reflexivity | exact IH]. }
    unfold main.
    apply skip_prefix_any; [silence | intros _ h1 g1].
    apply skip_prefix_any; [unfold banner; silence | intros _ h2 g2].
    apply skip_prefix_any; [unfold led_init; silence | intros _ h3 g3].
    apply skip_prefix_any; [silence | intros _ h4 g4].
    apply skip_prefix_any; [unfold button_init; silence | intros b h5 g5].
    destruct (nonzero b).
    { apply skip_prefix_any; [silence | intros _ h6 g6]. intros _. apply Herr. }
    apply skip_prefix_any;
      [unfold init_modem_and_lte, cert_provision, connect_attempt; silence
      | intros err h6 g6].
    destruct (nonzero err); [intros _; apply Herr|].
    apply skip_prefix_any; [unfold auth_round; silence | intros a h7 g7].
    destruct a as [[]|st]; [discriminate|].
    apply skip_prefix_any; [silence | intros sr h8 g8].
    destruct (sr <? 0); [intros _; apply Herr|].
    rewrite operate_result. discriminate.
  - revert Hres. unfold main.
    assert (Herr : forall h' g',
               result (err_label fuel h' g') = ErrorIndicator ->
               exists pre, events (err_label fuel h' g') = pre ++ blink fuel).
    { intros h' g' _. exists []. apply err_label_events. }
    apply ends_blinking_bind; intros _ h1 g1.
    apply ends_blinking_bind; intros _ h2 g2.
    apply ends_blinking_bind; intros _ h3 g3.
    apply ends_blinking_bind; intros _ h4 g4.
    apply ends_blinking_bind; intros b h5 g5.
    destruct (nonzero b).
    { apply ends_blinking_bind; intros _ h6 g6. apply Herr. }
    apply ends_blinking_bind; intros err h6 g6.
    destruct (nonzero err); [apply Herr|].
    apply ends_blinking_bind; intros a h7 g7.
    destruct a as [[]|st]; [discriminate|].
    apply ends_blinking_bind; intros sr h8 g8.
    destruct (sr <? 0); [apply Herr|].
    rewrite operate_result. discriminate.
Qed.

Lemma error_indicator_is_terminal_witness :
  let r := main button_down_env sample_build 2 [] boot_globals in
  result r = ErrorIndicator /\
  filter is_operational_sign (events r) = [] /\
  exists pre, events r = pre ++ blink 2.
Proof.
  intros r. split; [reflexivity|].
  exact (error_indicator_is_terminal button_down_env sample_build 2 [] boot_globals eq_refl).
Defined.

(** ** The heartbeat *)

Lemma wrap_s64_small (z : Z) : - 2 ^ 63 <= z < 2 ^ 63 -> wrap_s64 z = z.
Proof. intros Hz. unfold wrap_s64. rewrite Z.mod_small; lia. Qed.

Lemma toggle_times_heartbeat (latest : Z) (t : trace) :
  toggle_times latest (filter is_heartbeat t) = toggle_times latest t.
Proof.
  revert latest. induction t as [|e t IH]; intros latest; [reflexivity|].
  destruct e; cbn [filter is_heartbeat toggle_times]; try apply IH.
  destruct dev; cbn [toggle_times]; rewrite ?IH; reflexivity.
Qed.

(** One round, seen through its heartbeat traffic: the clock is read once;
    the LED is toggled exactly when the deadline lies before that reading,
    and the deadline then moves to 500 ms after the reading. *)
Lemma operate_round_heartbeat env (s : Z * Z) (h : trace) (g : globals) :
  let r := operate_round env s h g in
  exists now bp,
    filter is_heartbeat (events r)
    = EvUptimeGet now
      :: (if wrap_s64 (fst s - now) <? 0 then [EvGpioPinToggle led_state] else []) /\
    result r
    = inl (if wrap_s64 (fst s - now) <? 0 then wrap_s64 (now + LED_HEARTBEAT_MS) else fst s,
           bp).
Proof.
  cbv zeta. unfold operate_round.
  set (now := env_k_uptime_get env h).
  rewrite bind_result, bind_events, filter_app.
  change (result (k_uptime_get env h g)) with now.
  change (events (k_uptime_get env h g)) with [EvUptimeGet now].
  change (final (k_uptime_get env h g)) with g.
  cbv beta. cbn [filter is_heartbeat app].
  exists now.
  rewrite bind_result, bind_events, filter_app.
  rewrite filter_bind_silent_r by (intros; silence).
  rewrite bind_result. 
  assert (Hs : forall h' g', filter is_heartbeat (events (gpio_pin_get_dt env btn_send h' g')) = [])
    by (intros; reflexivity).
  rewrite Hs, app_nil_r.
  rewrite bind_result.
  match goal with
  | |- context [result ((k_sleep 10 ;; ret (inl (?t, ?b))) ?hh ?gg)] =>
      change (result ((k_sleep 10 ;; ret (inl (t, b))) hh gg)) with (@inl (Z * Z) unit (t, b));
      exists b
  end.
  destruct (wrap_s64 (fst s - now) <? 0); split; reflexivity.
Qed.

Lemma uptime_in_range_reading (t : trace) (now : Z) :
  uptime_in_range t = true -> In (EvUptimeGet now) t -> 0 <= now < 2 ^ 62.
Proof.
  unfold uptime_in_range. intros Hall Hin.
  rewrite forallb_forall in Hall. specialize (Hall _ Hin). cbn beta iota in Hall.
  apply andb_true_iff in Hall. destruct Hall as [H1 H2].
  apply Z.leb_le in H1. apply Z.ltb_lt in H2. lia.
Qed.

(** X4: toggles of the state LED are more than [LED_HEARTBEAT_MS] apart: each
    one happens at a clock reading that lies after the deadline, and the
    next deadline is 500 ms after that reading.  (Clock readings are taken
    to be plausible uptimes, so that the [int64_t] arithmetic is exact.) *)
Theorem heartbeat_toggles_are_spaced (env : Env) :
  forall (fuel : nat) (s : Z * Z) (h : trace) (g : globals) (latest : Z),
    0 <= fst s < 2 ^ 62 + LED_HEARTBEAT_MS ->
    uptime_in_range (events (forever (R := unit) fuel (operate_round env) s h g)) = true ->
    spaced (fst s)
      (toggle_times latest (events (forever (R := unit) fuel (operate_round env) s h g))).
Proof.
  induction fuel as [|fuel IH]; intros s h g latest Hdl Hrange; [exact I|].
  cbn [forever] in *. rewrite bind_events in *.
  destruct (operate_round_heartbeat env s h g) as (now & bp & Hhb & Hres).
  cbv zeta in Hhb, Hres.
  unfold uptime_in_range in Hrange. rewrite forallb_app in Hrange.
  apply andb_true_iff in Hrange. destruct Hrange as [Hr1 Hr2].
  assert (Hnow : 0 <= now < 2 ^ 62).
  { apply (uptime_in_range_reading (events (operate_round env s h g))); [exact Hr1|].
    apply (in_filter_in is_heartbeat). rewrite Hhb. left. reflexivity. }
  unfold LED_HEARTBEAT_MS in *.
  rewrite (wrap_s64_small (fst s - now)) in Hhb, Hres by lia.
  rewrite (wrap_s64_small (now + 500)) in Hres by lia.
  rewrite Hres in *. cbv beta iota in *.
  rewrite <- toggle_times_heartbeat, filter_app, Hhb.
  destruct (Z.ltb_spec (fst s - now) 0) as [Hlt | Hge];
    cbn [app toggle_times spaced]; rewrite toggle_times_heartbeat.
  - split; [lia|]. unfold LED_HEARTBEAT_MS.
    apply (IH (now + 500, bp)); [cbn [fst]; lia | exact Hr2].
  - apply (IH (fst s, bp)); [cbn [fst]; lia | exact Hr2].
Qed.

Lemma heartbeat_toggles_are_spaced_witness :
  let r := forever (R := unit) 40 (operate_round happy_env) (0, 0) [] boot_globals in
  (2 <= List.length (toggle_times 0 (events r)))%nat /\
  spaced 0 (toggle_times 0 (events r)).
Proof.
  intros r. split; [vm_compute; lia|].
  apply (heartbeat_toggles_are_spaced happy_env 40 (0, 0) [] boot_globals 0).
  - cbn. lia.
  - vm_compute. reflexivity.
Defined.

(** ** Downloads *)

Lemma deliver_cons (cb : list byte -> Z -> M Z) buff len rest h g :
  events (deliver cb ((buff, len) :: rest) h g)
  = events (cb buff len h g)
    ++ events (deliver cb rest (h ++ events (cb buff len h g)) (final (cb buff len h g))).
Proof. cbn [deliver]. now rewrite bind_events. Qed.

Lemma is_lower_hex_crlf :
  forallb is_lower_hex (list_ascii_of_string CRLF) = false.
Proof. reflexivity. Qed.

Lemma string_app_assoc (a b c : string) : (a +++ b) +++ c = a +++ b +++ c.
Proof. induction a as [|x a IH]; cbn; [reflexivity | now rewrite IH]. Qed.

Lemma string_app_empty (a : string) : a +++ "" = a.
Proof. induction a as [|x a IH]; cbn; [reflexivity | now rewrite IH]. Qed.

(** X5: what a download writes to the console is the text of its chunks, one
    after the other: every byte as two hexadecimal digits, and a CR-LF
    after each chunk shorter than 1024 bytes.  So the output is free of
    line breaks exactly when no chunk is short: a file whose last chunk
    fills the buffer is printed without a final CR-LF. *)
Theorem download_console_text
    (chunks : list (list byte * Z)) (h : trace) (g : globals) :
  Forall well_formed_chunk chunks ->
  console (events (deliver cb_fileDownload chunks h g)) = chunks_text chunks /\
  (forallb is_lower_hex
     (list_ascii_of_string (console (events (deliver cb_fileDownload chunks h g)))) = true
   <-> Forall (fun c => sizeof_work_buff <= snd c) chunks).
Proof.
  intros Hwf.
  assert (Htext : forall h g,
             console (events (deliver cb_fileDownload chunks h g)) = chunks_text chunks).
  { induction Hwf as [|[buff len] rest Hc Hrest IH]; intros h' g'; [reflexivity|].
    rewrite deliver_cons, console_app, IH.
    unfold well_formed_chunk in Hc. cbn [fst snd] in Hc.
    rewrite (cb_fileDownload_run buff len h' g' Hc).
    cbn [events snd chunks_text]. f_equal.
    rewrite console_app, console_prints. unfold chunk_text. cbn [fst snd].
    destruct (len <? sizeof_work_buff); cbn [console]; [|reflexivity].
    now rewrite string_app_empty. }
  split; [apply Htext|]. rewrite Htext. clear Htext Hwf.
  induction chunks as [|[buff len] rest IH].
  - split; [constructor | reflexivity].
  - cbn [chunks_text]. rewrite list_ascii_of_string_app, forallb_app.
    unfold chunk_text. cbn [fst snd].
    rewrite list_ascii_of_string_app, forallb_app, hex_text_lower. cbn [andb].
    destruct (Z.ltb_spec len sizeof_work_buff) as [Hlt | Hge].
    + rewrite is_lower_hex_crlf. cbn [andb]. split; [discriminate|].
      intros Hall. inversion Hall; subst. cbn [snd] in *. lia.
    + cbn [list_ascii_of_string forallb andb]. rewrite IH. split.
      * intros Hrest. constructor; [exact Hge | exact Hrest].
      * intros Hall. now inversion Hall.
Qed.

Lemma download_console_text_witness :
  console (events (deliver cb_fileDownload
                     [(repeat x61 1024, 1024); ([x68; x69; x00], 2)] [] boot_globals))
  = hex_text (repeat x61 1024) +++ "6869" +++ CRLF.
Proof.
  refine (eq_trans (proj1 (download_console_text
                             [(repeat x61 1024, 1024); ([x68; x69; x00], 2)]
                             [] boot_globals _)) _).
  - repeat constructor; unfold well_formed_chunk; cbn; lia.
  - vm_compute. reflexivity.
Defined.

Lemma deliver_console_only (chunks : list (list byte * Z)) (h : trace) (g : globals) :
  Forall (fun e => is_console e = true) (events (deliver cb_fileDownload chunks h g)).
Proof.
  assert (Hs : silent (fun e => negb (is_console e)) (deliver cb_fileDownload chunks))
    by (apply silent_deliver; intros; apply silent_cb_fileDownload; reflexivity).
  specialize (Hs h g). revert Hs.
  induction (events (deliver cb_fileDownload chunks h g)) as [|e t IH]; intros Hs;
    [constructor|].
  cbn [filter] in Hs. destruct (is_console e) eqn:E; cbn [negb] in Hs; [|discriminate].
  constructor; auto.
Qed.

(** X6: a round that requests a download brackets it with the state LED: the
    LED is lit before the request and put out after the report, whether
    the download failed ([FAILED]) or not ([Received: n bytes.]); between
    request and completion only the callback writes to the console; the
    round then sleeps as any other. *)
Theorem download_round_is_bracketed
    (env : Env) (s : Z * Z) (h : trace) (g : globals) :
  count is_download (events (operate_round env s h g)) = 1%nat ->
  exists pre cb_es recv_len,
    events (operate_round env s h g)
    = pre
      ++ [ EvUartBrokerPuts ("File download Button Pushed" +++ CRLF);
           EvGpioPinSet led_state 1;
           EvSipfFileDownload "sipf_file_sample.txt" 1024 ]
      ++ cb_es
      ++ [ EvSipfFileDownloadDone recv_len;
           download_report recv_len;
           EvGpioPinSet led_state 0;
           EvSleep 10 ] /\
    Forall (fun e => is_console e = true) cb_es.
Proof.
  unfold operate_round, SipfFileDownload.
  unfold bind, k_uptime_get, gpio_pin_toggle_dt, gpio_pin_get_dt, gpio_pin_set_dt,
    UartBrokerPuts, UartBrokerPrint, LOG, k_sleep, ask, emit, ret, events.
  cbn [fst snd app].
  destruct (wrap_s64 _ <? 0); cbn [fst snd app];
    match goal with
    | |- context [env_gpio_pin_get_dt env ?hh btn_send <? 0] =>
        set (v := env_gpio_pin_get_dt env hh btn_send)
    end;
    (destruct (v <? 0); cbn [fst snd app]; [intros Hc; discriminate Hc|]);
    (destruct ((snd s =? 0) && (v =? 1)); cbn [fst snd app];
     [|intros Hc; discriminate Hc]);
    match goal with
    | |- context [deliver cb_fileDownload ?cs ?hh ?gg] =>
        pose proof (deliver_console_only cs hh gg) as Hcb;
        destruct (deliver cb_fileDownload cs hh gg) as [[a g1] es1]
    end;
    cbn [events fst snd app] in *; intros _;
    match goal with
    | |- context [EvSipfFileDownloadDone ?r] => set (recv_len := r)
    end;
    destruct (recv_len <? 0) eqn:Er; cbn [fst snd app];
    first
      [ exists [EvUptimeGet (env_k_uptime_get env h); EvGpioPinToggle led_state;
                EvGpioPinGet btn_send v], es1, recv_len;
        split; [|exact Hcb];
        unfold download_report; rewrite Er; cbn [app]; rewrite <- ?app_assoc;
        reflexivity
      | exists [EvUptimeGet (env_k_uptime_get env h); EvGpioPinGet btn_send v],
          es1, recv_len;
        split; [|exact Hcb];
        unfold download_report; rewrite Er; cbn [app]; rewrite <- ?app_assoc;
        reflexivity ].
Qed.

Lemma download_round_is_bracketed_witness :
  exists pre cb_es recv_len,
    events (operate_round happy_env (1000, 0) [EvGpioPinGet btn_send 0] boot_globals)
    = pre
      ++ [ EvUartBrokerPuts ("File download Button Pushed" +++ CRLF);
           EvGpioPinSet led_state 1;
           EvSipfFileDownload "sipf_file_sample.txt" 1024 ]
      ++ cb_es
      ++ [ EvSipfFileDownloadDone recv_len;
           download_report recv_len;
           EvGpioPinSet led_state 0;
           EvSleep 10 ] /\
    Forall (fun e => is_console e = true) cb_es.
Proof.
  exact (download_round_is_bracketed happy_env (1000, 0) [EvGpioPinGet btn_send 0]
           boot_globals eq_refl).
Defined.

(** ** The steps of the bring-up *)

(** In [H : a :: l = pre ++ e :: post] with [a] visibly different from
    [e], moves [a] into [pre]. *)
Ltac peel H pre :=
  repeat (let x := fresh "x" in
          destruct pre as [|x pre]; cbn [app] in H;
          [ discriminate H | injection H as <- H ]).

Ltac provisioned :=
  split; [cbn [app]; reflexivity|];
  split; [unfold wrap_u8; apply Z.mod_pos_bound; lia | repeat constructor].

(** X7: [lte_lc_init] is called only after the modem library was initialized,
    the certificate was written and a PDN context was created and bound to
    the APN "sakura" (IPv4), each with status 0, and in this order: what
    precedes any [lte_lc_init] starts with [nrf_modem_lib_init], goes on
    with the query (and deletion) of the key store, the write, then
    [pdn_ctx_create] and right after it [pdn_ctx_configure] of the
    context just created, an 8-bit id. *)
Theorem lte_init_after_modem_certificate_and_pdn
    (env : Env) (bld : build) (h : trace) (g : globals)
    (pre : trace) (status : Z) (post : trace) :
  events (init_modem_and_lte env bld h g) = pre ++ EvLteLcInit status :: post ->
  exists ks cid rest,
    pre = EvNrfModemLibInit 0
          :: ks
          ++ EvKeyWrite 42 MODEM_KEY_MGMT_CRED_TYPE_CA_CHAIN (cert bld)
               (wrap_size_t (sizeof_cert bld - 1)) 0
          :: EvPdnCtxCreate 0 cid
          :: EvPdnCtxConfigure cid "sakura" PDN_FAM_IPV4 0
          :: rest /\
    0 <= cid < 256 /\
    Forall (fun e => is_key_query e = true) ks.
Proof.
  unfold init_modem_and_lte, cert_provision.
  unfold bind, nrf_modem_lib_init, modem_key_mgmt_exists, modem_key_mgmt_delete,
    modem_key_mgmt_write, pdn_ctx_create, pdn_ctx_configure, LOG, ask, emit, ret,
    nonzero, events, TLS_SEC_TAG.
  cbn [fst snd app Z.eqb negb].
  repeat match goal with
         | |- context [negb (?x =? 0)] =>
             lazymatch x with
             | context [negb _] => fail
             | _ =>
                 let E := fresh "E" in
                 destruct (Z.eqb_spec x 0) as [E | E]; [rewrite ?E|];
                 cbn [negb fst snd app Z.eqb]
             end
         | |- context [if snd ?x then _ else _] =>
             destruct (snd x); cbn [fst snd app Z.eqb negb]
         | |- context [for_range ?n ?i ?b ?hh ?gg] =>
             let r1 := fresh "r" in
             destruct (for_range n i b hh gg) as [[r1 ?] ?]; destruct r1;
             cbn [fst snd app Z.eqb negb]
         end;
    intros H; peel H pre;
    try (destruct pre; discriminate H);
    try (exfalso;
         match goal with
         | H1 : ?a <> 0, H2 : ?b = 0 |- _ => apply H1; exact H2
         end).
  all: first
         [ solve [ eexists [_; _], _, _; provisioned ]
         | solve [ eexists [_; _; _], _, _; provisioned ]
         | solve [ eexists [_; _; _; _], _, _; provisioned ] ].
Qed.

Lemma lte_init_after_modem_certificate_and_pdn_witness :
  let es := events (init_modem_and_lte happy_env sample_build [] boot_globals) in
  nth_error es 8 = Some (EvLteLcInit 0) /\
  exists ks cid rest,
    firstn 8 es
    = EvNrfModemLibInit 0
      :: ks
      ++ EvKeyWrite 42 MODEM_KEY_MGMT_CRED_TYPE_CA_CHAIN (sample_pem ++ [x00]) 5 0
      :: EvPdnCtxCreate 0 cid
      :: EvPdnCtxConfigure cid "sakura" PDN_FAM_IPV4 0
      :: rest /\
    0 <= cid < 256.
Proof.
  intros es. split; [reflexivity|].
  destruct (lte_init_after_modem_certificate_and_pdn happy_env sample_build []
              boot_globals (firstn 8 es) 0 (skipn 9 es) eq_refl)
    as (ks & cid & rest & Heq & Hcid & _).
  exists ks, cid, rest. split; [exact Heq | exact Hcid].
Defined.

(** *** The LTE traffic of the bring-up *)

Lemma lte_control_timeout_blocks (l : list Z) :
  filter is_lte_control (List.concat (map timeout_block l))
  = List.concat (repeat lte_timeout_round (List.length l)).
Proof.
  induction l as [|j l IH]; [reflexivity|].
  cbn [map List.concat List.length repeat]. now rewrite filter_app, IH.
Qed.

Lemma lte_control_final_block i v last :
  final_block i v last -> lte_final v (filter is_lte_control last).
Proof.
  intros Hfb. destruct Hfb as [e He | e He | psm | e He1 He2];
    try destruct (psm =? 0); cbn; now constructor.
Qed.

Lemma connect_loop_protocol env (n : nat) (i : Z) (h : trace) (g : globals) :
  let r := for_range n i (connect_attempt env) h g in
  lte_protocol n (match result r with Some v => v | None => -1 end)
    (filter is_lte_control (events r)).
Proof.
  cbv zeta.
  destruct (connect_loop_shape env n i h g)
    as (k & [(Hr & Hk & He) | (v & last & Hk & Hr & Hfb & He)]); cbv zeta in *;
    rewrite Hr, He.
  - exists k, []. rewrite lte_control_timeout_blocks, rounds_length, app_nil_r.
    repeat split; [lia | constructor; lia | left; reflexivity].
  - exists k, (filter is_lte_control last).
    rewrite filter_app, lte_control_timeout_blocks, rounds_length.
    repeat split; [lia | eapply lte_control_final_block, Hfb | right; exact Hk].
Qed.

(** The LTE traffic of [init_modem_and_lte], by its return value. *)
Lemma init_modem_and_lte_protocol env bld (h : trace) (g : globals) :
  let r := init_modem_and_lte env bld h g in
  lte_protocol (Z.to_nat REGISTER_TRY) (result r) (filter is_lte_control (events r)).
Proof.
  cbv zeta. unfold init_modem_and_lte. revert h.
  assert (Hfail : forall (text : string) v h,
             nonzero v = true ->
             lte_protocol (Z.to_nat REGISTER_TRY)
               (result ((LOG LOG_ERR text ;; ret v) h g))
               (filter is_lte_control (events ((LOG LOG_ERR text ;; ret v) h g)))).
  { intros text v h Hv. cbn. exists 0%nat, [].
    repeat split; [lia | constructor; apply nonzero_true, Hv | left; reflexivity]. }
  intros h. apply skip_prefix; [silence | framing |]. intros e1 h1.
  destruct (nonzero e1) eqn:E1; [apply Hfail, E1|].
  apply skip_prefix;
    [unfold cert_provision; silence | unfold cert_provision; framing |].
  intros e2 h2.
  destruct (nonzero e2) eqn:E2; [apply Hfail, E2|].
  apply skip_prefix; [silence | framing |]. intros r3 h3. cbv zeta.
  destruct (nonzero (fst r3)) eqn:E3; [apply Hfail, E3|].
  apply skip_prefix; [silence | framing |]. intros e4 h4.
  destruct (nonzero e4) eqn:E4; [apply Hfail, E4|].
  apply skip_prefix; [silence | framing |]. intros _ h5.
  rewrite bind_result, bind_events, filter_app.
  pose proof (connect_loop_protocol env (Z.to_nat REGISTER_TRY) 0 h5 g) as Hloop.
  cbv zeta in Hloop.
  destruct (result (for_range _ 0 _ h5 g)) as [v|]; cbn [result events ret fst snd];
    cbn [filter is_lte_control]; rewrite app_nil_r; exact Hloop.
Qed.

Lemma filter_concat_repeat (p : event -> bool) (block : trace) (k : nat) :
  filter p (List.concat (repeat block k)) = List.concat (repeat (filter p block) k).
Proof.
  induction k as [|k IH]; [reflexivity|].
  cbn [repeat List.concat]. now rewrite filter_app, IH.
Qed.

Lemma concat_repeat_nil {A} (k : nat) : List.concat (repeat (@nil A) k) = [].
Proof. induction k as [|k IH]; [reflexivity | exact IH]. Qed.

(** X8: power saving is requested exactly when the modem registered: once,
    with [true], right after the wait that got the permit; and whatever
    the request answers, the bring-up still returns 0. *)
Theorem psm_requested_exactly_after_registration
    (env : Env) (bld : build) (h : trace) (g : globals) :
  let r := init_modem_and_lte env bld h g in
  let traffic := filter (fun e => is_granted e || is_psm_req e) (events r) in
  (result r = 0 ->
   exists psm, traffic = [EvSemTake 120000 0; EvLteLcPsmReq true psm]) /\
  (result r <> 0 -> traffic = []).
Proof.
  intros r traffic. subst traffic r.
  rewrite <- (filter_filter_sub _ is_lte_control)
    by (intros e He; destruct e; try discriminate; reflexivity).
  destruct (init_modem_and_lte_protocol env bld h g) as (k & last & _ & -> & Hfin & _).
  rewrite filter_app, filter_concat_repeat. cbn [lte_timeout_round filter].
  change (is_granted (EvSemTake REGISTER_TIMEOUT_MS (- EAGAIN))
          || is_psm_req (EvSemTake REGISTER_TIMEOUT_MS (- EAGAIN))) with false.
  cbn [is_granted is_psm_req orb]. rewrite concat_repeat_nil. cbn [app].
  destruct Hfin as [v Hv | e He | e He | psm | e He1 He2]; cbn [filter is_granted is_psm_req orb].
  - split; [contradiction | reflexivity].
  - split; [contradiction | reflexivity].
  - split; [contradiction | reflexivity].
  - split; [intros _; exists psm; reflexivity | contradiction].
  - split; [contradiction|]. intros _.
    destruct (Z.eqb_spec e 0); [contradiction | reflexivity].
Qed.

(** X9: taking the modem offline and de-initializing it is the recovery from a
    timed-out wait and nothing else: the two calls follow each timeout, in
    this order, and are made neither after a registration nor after a
    failed [lte_lc_init], [lte_lc_connect_async] or wait. *)
Theorem offline_and_deinit_only_after_timeout
    (env : Env) (bld : build) (h : trace) (g : globals) :
  exists k,
    (k <= 3)%nat /\
    filter is_recovery (events (init_modem_and_lte env bld h g))
    = List.concat
        (repeat [EvSemTake 120000 (- EAGAIN); EvLteLcOffline; EvLteLcDeinit] k).
Proof.
  rewrite <- (filter_filter_sub _ is_lte_control)
    by (intros e He; destruct e; try discriminate; reflexivity).
  destruct (init_modem_and_lte_protocol env bld h g) as (k & last & Hk & -> & Hfin & _).
  exists k. split; [exact Hk|].
  rewrite filter_app, filter_concat_repeat.
  assert (Hlast : filter is_recovery last = []).
  { destruct Hfin as [v Hv | e He | e He | psm | e He1 He2]; try reflexivity.
    cbn. unfold EAGAIN in He2. destruct (Z.eqb_spec e (- 11)); [contradiction | reflexivity]. }
  rewrite Hlast, app_nil_r. reflexivity.
Qed.

(** X10: every [lte_lc_connect_async] comes right after
    [lte_lc_modem_events_enable], which comes right after an [lte_lc_init]
    that returned 0; a failed [lte_lc_init] ends the bring-up, and so does
    a failed [lte_lc_connect_async]. *)
Theorem connect_follows_init_and_events_enable
    (env : Env) (bld : build) (h : trace) (g : globals) :
  exists k tail,
    (k <= 3)%nat /\
    filter is_connect_step (events (init_modem_and_lte env bld h g))
    = List.concat
        (repeat [EvLteLcInit 0; EvLteLcModemEventsEnable; EvLteLcConnectAsync 0] k)
      ++ tail /\
    (tail = [] \/
     (exists e, e <> 0 /\ tail = [EvLteLcInit e]) \/
     (exists c, tail = [EvLteLcInit 0; EvLteLcModemEventsEnable; EvLteLcConnectAsync c])).
Proof.
  rewrite <- (filter_filter_sub _ is_lte_control)
    by (intros e He; destruct e; try discriminate; reflexivity).
  destruct (init_modem_and_lte_protocol env bld h g) as (k & last & Hk & -> & Hfin & _).
  exists k, (filter is_connect_step last). split; [exact Hk|].
  rewrite filter_app, filter_concat_repeat. split; [reflexivity|].
  destruct Hfin as [v Hv | e He | e He | psm | e He1 He2]; cbn.
  - left. reflexivity.
  - right; left. exists e. split; [exact He | reflexivity].
  - right; right. exists e. reflexivity.
  - right; right. exists 0. reflexivity.
  - right; right. exists 0. reflexivity.
Qed.

(** A refused power-saving request is logged and the bring-up succeeds. *)
Example psm_refusal_is_not_fatal :
  let r := init_modem_and_lte psm_refused_env sample_build [] boot_globals in
  result r = 0 /\
  In (EvLteLcPsmReq true (- 5)) (events r) /\
  In (EvLog LOG_ERR "PSM request failed, error: -5") (events r).
Proof. vm_compute. auto 40. Qed.
(** ** The phase a boot reaches *)

(** X13: the answer of the HTTP client to the hand-off decides the phase: a
    refusal sends [main] to the loop at [err:], anything else makes it
    operational. *)
Theorem handoff_decides_the_phase
    (env : Env) (bld : build) (fuel : nat) (h : trace) (g : globals)
    (u p : list byte) (sr : Z) :
  In (EvSipfClientHttpSetAuthInfo u p sr) (events (main env bld fuel h g)) ->
  result (main env bld fuel h g) = (if sr <? 0 then ErrorIndicator else Operational).
Proof.
  intros Hin.
  assert (Hm : In (EvSipfClientHttpSetAuthInfo u p sr)
                 (milestones (events (main env bld fuel h g))))
    by (apply filter_In; split; [exact Hin | reflexivity]).
  pose proof (main_milestones env bld fuel h g) as Hms. cbv zeta in Hms.
  assert (Hreq : forall fails,
             ~ In (EvSipfClientHttpSetAuthInfo u p sr)
                 (map (auth_request_event (sizeof (user_name g))) fails)).
  { intros fails H. apply in_map_iff in H. destruct H as (a & H & _). discriminate H. }
  destruct (result (main env bld fuel h g)); cbn [boot_milestones] in Hms.
  - exfalso. destruct Hms as (fails & Hms). rewrite Hms in Hm.
    cbn [app] in Hm. destruct Hm as [H | [H | H]]; try discriminate H.
    exact (Hreq _ H).
  - destruct Hms as (fails & st & u' & p' & sr' & k & Hsr & _ & Hms).
    rewrite Hms in Hm. cbn [app] in Hm.
    destruct Hm as [H | [H | H]]; try discriminate H.
    apply in_app_or in H. destruct H as [H | H]; [exfalso; exact (Hreq _ H)|].
    cbn [app] in H. destruct H as [H | [H | [H | H]]]; try discriminate H.
    + injection H as -> -> ->. destruct (Z.ltb_spec sr 0); [lia | reflexivity].
    + exfalso. apply repeat_spec in H. discriminate H.
  - destruct Hms as [Hms | [(w & Hms) | (fails & st & u' & p' & sr' & Hsr & _ & Hms)]];
      rewrite Hms in Hm.
    + contradiction.
    + destruct Hm as [H | []]. discriminate H.
    + cbn [app] in Hm. destruct Hm as [H | [H | H]]; try discriminate H.
      apply in_app_or in H. destruct H as [H | H]; [exfalso; exact (Hreq _ H)|].
      destruct H as [H | [H | []]]; try discriminate H.
      injection H as -> -> ->. destruct (Z.ltb_spec sr 0); [reflexivity | lia].
Qed.

Lemma handoff_decides_the_phase_witness :
  result (main happy_env sample_build 1 [] boot_globals) = Operational.
Proof.
  apply (handoff_decides_the_phase happy_env sample_build 1 [] boot_globals
           [x75; x31; x00] [x70; x31; x00] 0).
  vm_compute. auto 60.
Defined.

(** ** The boot LED *)

Lemma silent_boot_led_operate env fuel : silent is_boot_led_drive (operate env fuel).
Proof.
  unfold operate, operate_round.
  repeat first
    [ apply silent_cb_fileDownload; intros; reflexivity
    | progress silence ].
Qed.

Lemma boot_led_err_label fuel (h : trace) (g : globals) :
  filter is_boot_led_drive (events (err_label fuel h g))
  = repeat (EvGpioPinToggle led_boot) fuel.
Proof.
  rewrite err_label_events. unfold blink.
  induction fuel as [|n IH]; [reflexivity|]. cbn. f_equal. exact IH.
Qed.

(** X14: the boot LED is lit once, before the modem or the network is touched,
    and stays lit while [main] authenticates and operates; it is driven
    again only on the way to the loop at [err:], where it is toggled once
    per round, after having been put out when it is the button that is
    missing. *)
Theorem boot_led_lit_until_error
    (env : Env) (bld : build) (fuel : nat) (h : trace) (g : globals) :
  let r := main env bld fuel h g in
  boot_led_drives fuel (result r) (filter is_boot_led_drive (events r)) /\
  exists pre post,
    events r = pre ++ EvGpioPinSet led_boot 1 :: post /\
    filter is_network pre = [].
Proof.
  cbv zeta. split.
  - set (Q := fun res es => boot_led_drives fuel res es).
    change (Q (result (main env bld fuel h g))
              (filter is_boot_led_drive (events (main env bld fuel h g)))).
    unfold main.
    apply skip_prefix_any; [silence | intros _ h1 g1].
    apply skip_prefix_any; [unfold banner; silence | intros _ h2 g2].
    apply skip_prefix_any; [unfold led_init; silence | intros _ h3 g3].
    rewrite bind_result, bind_events, filter_app.
    change (filter is_boot_led_drive (events (gpio_pin_set_dt led_boot 1 h3 g3)))
      with [EvGpioPinSet led_boot 1].
    set (Q' := fun res es => Q res ([EvGpioPinSet led_boot 1] ++ es)).
    match goal with
    | |- Q (result ?x) (_ ++ filter _ (events ?x)) =>
        change (Q' (result x) (filter is_boot_led_drive (events x)))
    end.
    apply skip_prefix_any; [unfold button_init; silence | intros b h4 g4].
    destruct (nonzero b).
    + rewrite bind_result, bind_events, filter_app, err_label_result, boot_led_err_label.
      exists [EvGpioPinSet led_boot 0]. split; [right; reflexivity | reflexivity].
    + apply skip_prefix_any;
        [unfold init_modem_and_lte, cert_provision, connect_attempt; silence
        | intros err h5 g5].
      destruct (nonzero err).
      * rewrite err_label_result, boot_led_err_label.
        exists []. split; [left; reflexivity | reflexivity].
      * apply skip_prefix_any; [unfold auth_round; silence | intros a h6 g6].
        destruct a as [[]|z]; [reflexivity|].
        apply skip_prefix_any; [silence | intros sr h7 g7].
        destruct (sr <? 0).
        -- rewrite err_label_result, boot_led_err_label.
           exists []. split; [left; reflexivity | reflexivity].
        -- rewrite operate_result, (silent_boot_led_operate env fuel h7 g7).
           reflexivity.
  - unfold main. do 4 rewrite bind_events.
    match goal with
    | |- exists pre post, ?A ++ ?B ++ ?C ++ ?D ++ ?E = _ /\ _ =>
        exists (A ++ B ++ C), E;
        change D with [EvGpioPinSet led_boot 1]
    end.
    split.
    + rewrite <- !app_assoc. reflexivity.
    + rewrite !filter_app.
      match goal with
      | |- filter _ (events (?a _ _)) ++ filter _ (events (?b _ _))
           ++ filter _ (events (?c _ _)) = [] =>
          assert (Ha : silent is_network a) by silence;
          assert (Hb : silent is_network b) by (unfold banner; silence);
          assert (Hc : silent is_network c) by (unfold led_init; silence)
      end.
      rewrite Ha, Hb, Hc. reflexivity.
Qed.
(** ** The status of a failed bring-up *)

Lemma calls_app (t u : trace) : calls (t ++ u) = calls t ++ calls u.
Proof. apply filter_app. Qed.

Lemma caused_after (v : Z) (t u : trace) :
  caused_by_last_call v u -> caused_by_last_call v (t ++ u).
Proof.
  intros (pre & e & Hc & He). exists (calls t ++ pre), e.
  rewrite calls_app, Hc, app_assoc. split; [reflexivity | exact He].
Qed.

Lemma caused_before_log (v : Z) (t : trace) lvl text :
  caused_by_last_call v t -> caused_by_last_call v (t ++ [EvLog lvl text]).
Proof.
  intros (pre & e & Hc & He). exists pre, e.
  rewrite calls_app, Hc. change (calls [EvLog lvl text]) with (@nil event).
  rewrite app_nil_r. split; [reflexivity | exact He].
Qed.

Lemma reports_ask {A} (st : A -> Z) (answer : trace -> A) (ev : A -> event) :
  (forall a, is_call (ev a) = true) ->
  (forall a, call_status (ev a) = Some (st a)) ->
  reports_failure st (ask answer ev).
Proof.
  intros Hc Hs h g _. exists [], (ev (answer h)).
  unfold ask, calls. cbn. rewrite Hc. split; [reflexivity | left; apply Hs].
Qed.

(** [a = m(); if (st a) { LOG_ERR(...); return st a; } rest] *)
Lemma reports_checked {A} (st : A -> Z) (m : M A) (text : A -> string)
    (rest : A -> M Z) :
  reports_failure st m ->
  (forall a, reports_failure id (rest a)) ->
  reports_failure id
    (a <- m ;;
     if nonzero (st a) then LOG LOG_ERR (text a) ;; ret (st a) else rest a).
Proof.
  intros Hm Hrest h g. unfold id. rewrite bind_result, bind_events.
  destruct (nonzero (st (result (m h g)))) eqn:E.
  - rewrite bind_result, bind_events. cbn [LOG emit ret result events fst snd].
    rewrite app_nil_r. intros _. apply caused_before_log, Hm.
    apply nonzero_true, E.
  - intros Hv. apply caused_after. apply (Hrest _ _ _ Hv).
Qed.

Lemma reports_ret_0 : reports_failure id (ret 0).
Proof. intros h g Hv. now contradiction Hv. Qed.

Lemma reports_after {A} (m : M A) (rest : A -> M Z) :
  (forall a, reports_failure id (rest a)) ->
  reports_failure id (a <- m ;; rest a).
Proof.
  intros Hrest h g. unfold id. rewrite bind_result, bind_events.
  intros Hv. apply caused_after. apply (Hrest _ _ _ Hv).
Qed.

Lemma reports_cert_provision env bld : reports_failure id (cert_provision env bld).
Proof.
  unfold cert_provision.
  apply (reports_checked fst _
           (fun r => "Failed to check for certificates err " +++ fmt_d (fst r))).
  - apply reports_ask; reflexivity.
  - intros r. apply reports_after. intros _. apply reports_after. intros _.
    apply (reports_checked id _
             (fun err => "Failed to provision certificate, err " +++ fmt_d err)
             (fun _ => ret 0)).
    + apply reports_ask; reflexivity.
    + intros _ h g Hv. now contradiction Hv.
Qed.

Lemma calls_timeout_block (i : Z) :
  exists pre, calls (timeout_block i) = pre ++ [EvLteLcDeinit].
Proof.
  exists (removelast (calls (timeout_block i))).
  change [EvLteLcDeinit] with [last (calls (timeout_block i)) EvLteLcDeinit].
  apply app_removelast_last. discriminate.
Qed.

Lemma caused_timeouts (k : nat) (i : Z) :
  caused_by_last_call (-1) (List.concat (map timeout_block (rounds i (S k)))).
Proof.
  revert i. induction k as [|k IH]; intros i; rewrite rounds_S; cbn [map List.concat].
  - destruct (calls_timeout_block i) as (pre & Hpre). exists pre, EvLteLcDeinit.
    change (List.concat (map timeout_block (rounds (i + 1) 0))) with (@nil event).
    rewrite app_nil_r. split; [exact Hpre | right; split; reflexivity].
  - apply caused_after, IH.
Qed.

Lemma caused_final_block (i v : Z) (last : trace) :
  final_block i v last -> v <> 0 -> caused_by_last_call v last.
Proof.
  intros Hfb Hv. destruct Hfb as [e He | e He | psm | e He1 He2].
  - exists [], (EvLteLcInit e). split; [reflexivity | left; reflexivity].
  - apply caused_after. exists [], (EvLteLcConnectAsync e).
    split; [reflexivity | left; reflexivity].
  - contradiction.
  - apply caused_after. exists [EvLteLcConnectAsync 0], (EvSemTake REGISTER_TIMEOUT_MS e).
    split; [reflexivity | left; reflexivity].
Qed.

Lemma reports_connect_loop env (n : nat) (i : Z) :
  reports_failure status_of_loop (for_range (S n) i (connect_attempt env)).
Proof.
  intros h g.
  destruct (connect_loop_shape env (S n) i h g) as (k & Hk). cbv zeta in Hk.
  destruct Hk as [(Hr & Hkn & He) | (v & last & Hkn & Hr & Hfb & He)];
    rewrite Hr, He; cbn [status_of_loop]; intros Hv.
  - rewrite Hkn. apply caused_timeouts.
  - apply caused_after. exact (caused_final_block _ _ _ Hfb Hv).
Qed.

Lemma reports_init_modem_and_lte env bld :
  reports_failure id (init_modem_and_lte env bld).
Proof.
  unfold init_modem_and_lte.
  apply (reports_checked id _ (fun _ => "Failed to initialize modem library!"));
    [apply reports_ask; reflexivity | intros _].
  apply (reports_checked id _ (fun err => "Faild to cert_provision(): " +++ fmt_d err));
    [apply reports_cert_provision | intros _].
  apply (reports_checked fst _
           (fun r => "Failed to pdn_ctx_create(), err " +++ fmt_d (fst r)));
    [apply reports_ask; reflexivity | intros r].
  apply (reports_checked id _
           (fun err => "Failed to pdn_ctx_configure(), err " +++ fmt_d err));
    [apply reports_ask; reflexivity | intros _].
  apply reports_after. intros _ h g. unfold id.
  rewrite bind_result, bind_events.
  pose proof (reports_connect_loop env 2 0 h g) as Hloop.
  change (Z.to_nat REGISTER_TRY) with 3%nat.
  destruct (result (for_range 3 0 (connect_attempt env) h g)) as [v|];
    cbn [status_of_loop] in Hloop.
  - cbn [ret result events fst snd]. rewrite app_nil_r. exact Hloop.
  - rewrite bind_result, bind_events. cbn [LOG emit ret result events fst snd].
    rewrite app_nil_r. intros Hv. apply caused_before_log, Hloop. discriminate.
Qed.

(** X11: a bring-up that fails returns the status of the call that made it
    fail, and makes no call after it: the last call of the trace (only log
    lines follow it) is one that answered the returned status, or, when the
    budget of attempts ran out, the [lte_lc_deinit] of the last attempt,
    and the status is then -1. *)
Theorem failed_bringup_returns_status_of_last_call
    (env : Env) (bld : build) (h : trace) (g : globals) :
  let r := init_modem_and_lte env bld h g in
  result r <> 0 ->
  exists pre e,
    calls (events r) = pre ++ [e] /\
    (call_status e = Some (result r) \/ (e = EvLteLcDeinit /\ result r = -1)).
Proof.
  intros r Hv. exact (reports_init_modem_and_lte env bld h g Hv).
Qed.

Lemma failed_bringup_returns_status_of_last_call_witness :
  let r := init_modem_and_lte wait_fault_env sample_build [] boot_globals in
  result r = -4 /\
  exists pre e,
    calls (events r) = pre ++ [e] /\
    (call_status e = Some (result r) \/ (e = EvLteLcDeinit /\ result r = -1)).
Proof.
  intros r. split; [vm_compute; reflexivity|].
  apply (failed_bringup_returns_status_of_last_call wait_fault_env sample_build []
           boot_globals).
  vm_compute. discriminate.
Defined.

(** ** A button that is not there *)

Lemma button_init_not_ready env (h : trace) (g : globals) :
  env_device_is_ready env h btn_send = false ->
  button_init env h g = (- ENODEV, g, [EvDeviceIsReady btn_send false]).
Proof.
  intros Hbtn. unfold button_init, bind, device_is_ready, ask, ret.
  rewrite Hbtn. reflexivity.
Qed.

(** X12: when the button's port is not ready the boot stops there: the boot LED
    is put out, [main] enters the loop at [err:], and neither the modem nor
    the network nor the cloud has been touched. *)
Theorem button_not_ready_stops_boot
    (env : Env) (bld : build) (fuel : nat) (h : trace) (g : globals) :
  (forall h', env_device_is_ready env h' btn_send = false) ->
  let r := main env bld fuel h g in
  result r = ErrorIndicator /\
  filter is_network (events r) = [] /\
  exists pre,
    events r
    = pre ++ EvDeviceIsReady btn_send false :: EvGpioPinSet led_boot 0 :: blink fuel.
Proof.
  intros Hbtn. cbv zeta.
  assert (Htail : forall h' g',
             let x := (b <- button_init env ;;
                       if nonzero b then gpio_pin_set_dt led_boot 0 ;; err_label fuel
                       else
                         (err <- init_modem_and_lte env bld ;;
                          if nonzero err then err_label fuel
                          else
                            (a <- forever fuel (auth_round env) tt ;;
                             match a with
                             | inl _ => ret Authenticating
                             | inr _ =>
                                 err0 <- SipfClientHttpSetAuthInfo env ;;
                                 if err0 <? 0 then err_label fuel else operate env fuel
                             end))) h' g' in
             result x = ErrorIndicator /\
             events x = EvDeviceIsReady btn_send false
                        :: EvGpioPinSet led_boot 0 :: blink fuel).
  { intros h' g' x. subst x.
    rewrite bind_result, bind_events, (button_init_not_ready env h' g' (Hbtn h')).
    cbn [result final events fst snd nonzero ENODEV Z.opp Z.eqb negb app].
    rewrite bind_result, bind_events, err_label_result, err_label_events.
    split; reflexivity. }
  assert (Hblink : filter is_network (blink fuel) = []).
  { unfold blink. clear. induction fuel as [|n IH]; [reflexivity | exact IH]. }
  assert (H12 : (fun res es => res = ErrorIndicator /\ es = [])
                  (result (main env bld fuel h g))
                  (filter is_network (events (main env bld fuel h g)))).
  { unfold main.
    apply skip_prefix_any; [silence | intros _ h1 g1].
    apply skip_prefix_any; [unfold banner; silence | intros _ h2 g2].
    apply skip_prefix_any; [unfold led_init; silence | intros _ h3 g3].
    apply skip_prefix_any; [silence | intros _ h4 g4].
    destruct (Htail h4 g4) as (Hr & He). cbv zeta in Hr, He.
    split; [exact Hr|]. rewrite He. cbn [filter is_network]. exact Hblink. }
  destruct H12 as (H1 & H2). split; [exact H1|]. split; [exact H2|].
  unfold main. do 4 rewrite bind_events.
  match goal with
  | |- context [events ((b <- button_init env ;; _) ?hh ?gg)] =>
      destruct (Htail hh gg) as (_ & He)
  end.
  cbv zeta in He. rewrite He. eexists. rewrite !app_assoc. reflexivity.
Qed.

Lemma button_not_ready_stops_boot_witness :
  let r := main button_down_env sample_build 2 [] boot_globals in
  result r = ErrorIndicator /\ filter is_network (events r) = [].
Proof.
  intros r.
  destruct (button_not_ready_stops_boot button_down_env sample_build 2 [] boot_globals)
    as (H1 & H2 & _).
  - intros h'. reflexivity.
  - split; [exact H1 | exact H2].
Defined.

(** ** The operational phase and the buffers *)

Lemma frame_forever {St R} (body : St -> M (St + R)) :
  (forall s, frame (body s)) -> forall fuel s, frame (forever fuel body s).
Proof.
  intros Hb. induction fuel as [|n IH]; intros s; cbn [forever].
  - apply frame_ret.
  - apply frame_bind; [apply Hb|]. intros [s'|v]; [apply IH | apply frame_ret].
Qed.

Lemma frame_deliver (cb : list byte -> Z -> M Z) :
  (forall buff len, frame (cb buff len)) -> forall chunks, frame (deliver cb chunks).
Proof.
  intros Hcb. induction chunks as [|[buff len] rest IH]; cbn [deliver].
  - apply frame_ret.
  - apply frame_bind; [apply Hcb | intros _; apply IH].
Qed.

Lemma frame_cb_fileDownload buff len : frame (cb_fileDownload buff len).
Proof. unfold cb_fileDownload. framing. Qed.

Lemma frame_SipfFileDownload env name cap :
  frame (SipfFileDownload env name cap cb_fileDownload).
Proof.
  unfold SipfFileDownload. apply frame_bind; [apply frame_emit | intros _].
  intros h g. apply frame_bind; [apply frame_deliver, frame_cb_fileDownload | intros _].
  framing.
Qed.

Lemma frame_operate env fuel : frame (operate env fuel).
Proof.
  unfold operate. apply frame_bind; [framing | intros _].
  apply frame_bind; [framing | intros _].
  apply frame_bind; [framing | intros now].
  apply frame_bind; [|intros; apply frame_ret].
  apply frame_forever. intros s. unfold operate_round.
  repeat first
    [ apply frame_SipfFileDownload
    | apply frame_ret | apply frame_emit | apply frame_ask
    | apply frame_bind; [ | intros ]
    | match goal with |- frame (if ?c then _ else _) => destruct c end
    | progress unfold LOG, UartBrokerPrint, UartBrokerPuts, gpio_pin_set_dt,
        gpio_pin_toggle_dt, gpio_pin_get_dt, k_sleep, k_uptime_get ].
Qed.

Lemma skip_prefix_final {A B} p (m : M A) (f : A -> M B)
    (Q : B -> globals -> trace -> Prop) h g :
  silent p m ->
  (forall a h' g',
      Q (result (f a h' g')) (final (f a h' g')) (filter p (events (f a h' g')))) ->
  Q (result (bind m f h g)) (final (bind m f h g)) (filter p (events (bind m f h g))).
Proof.
  intros Hs HQ.
  rewrite bind_result, bind_final, (filter_bind_silent p m f h g Hs). apply HQ.
Qed.

(** X15: while [main] is operational the two buffers hold what was handed to the
    HTTP client: there was one hand-off, it was accepted, and nothing has
    written [user_name] or [password] since. *)
Theorem credentials_untouched_after_handoff
    (env : Env) (bld : build) (fuel : nat) (h : trace) (g : globals) :
  let r := main env bld fuel h g in
  result r = Operational ->
  exists sr,
    0 <= sr /\
    filter is_set_auth (events r)
    = [EvSipfClientHttpSetAuthInfo (buf_data (user_name (final r)))
         (buf_data (password (final r))) sr].
Proof.
  cbv zeta.
  change ((fun res fin es =>
             res = Operational ->
             exists sr, 0 <= sr /\
               es = [EvSipfClientHttpSetAuthInfo (buf_data (user_name fin))
                       (buf_data (password fin)) sr])
            (result (main env bld fuel h g)) (final (main env bld fuel h g))
            (filter is_set_auth (events (main env bld fuel h g)))).
  unfold main.
  apply skip_prefix_final; [silence | intros _ h1 g1].
  apply skip_prefix_final; [unfold banner; silence | intros _ h2 g2].
  apply skip_prefix_final; [unfold led_init; silence | intros _ h3 g3].
  apply skip_prefix_final; [silence | intros _ h4 g4].
  apply skip_prefix_final; [unfold button_init; silence | intros b h5 g5].
  destruct (nonzero b).
  { rewrite bind_result, err_label_result. discriminate. }
  apply skip_prefix_final;
    [unfold init_modem_and_lte, cert_provision, connect_attempt; silence
    | intros err h6 g6].
  destruct (nonzero err); [rewrite err_label_result; discriminate|].
  apply skip_prefix_final; [unfold auth_round; silence | intros a h7 g7].
  destruct a as [[]|st]; [discriminate|].
  rewrite bind_result, bind_final, bind_events, filter_app.
  set (sr := env_SipfClientHttpSetAuthInfo env h7 (buf_data (user_name g7))
               (buf_data (password g7))).
  change (result (SipfClientHttpSetAuthInfo env h7 g7)) with sr.
  change (final (SipfClientHttpSetAuthInfo env h7 g7)) with g7.
  change (events (SipfClientHttpSetAuthInfo env h7 g7))
    with [EvSipfClientHttpSetAuthInfo (buf_data (user_name g7))
            (buf_data (password g7)) sr].
  cbn [filter is_set_auth app].
  destruct (Z.ltb_spec sr 0) as [Hneg | Hpos];
    [rewrite err_label_result; discriminate|].
  intros _. exists sr. split; [exact Hpos|].
  rewrite frame_operate.
  assert (Hs : silent is_set_auth (operate env fuel))
    by (apply silent_operate; intros e He; destruct e; try reflexivity; discriminate).
  now rewrite Hs.
Qed.

Lemma credentials_untouched_after_handoff_witness :
  let r := main happy_env sample_build 3 [] boot_globals in
  buf_data (user_name (final r)) = [x75; x31; x00] /\
  exists sr,
    0 <= sr /\
    filter is_set_auth (events r)
    = [EvSipfClientHttpSetAuthInfo (buf_data (user_name (final r)))
         (buf_data (password (final r))) sr].
Proof.
  intros r. split; [reflexivity|].
  exact (credentials_untouched_after_handoff happy_env sample_build 3 [] boot_globals
           eq_refl).
Defined.

Lemma operate_round_sleeps env (s : Z * Z) (h : trace) (g : globals) :
  filter is_pacing_sleep (events (operate_round env s h g)) = [EvSleep 10].
Proof.
  unfold operate_round. skip. skip. skip.
  skip_with ltac:(silence; apply silent_cb_fileDownload; reflexivity)
            ltac:(repeat first
                    [ apply frame_SipfFileDownload
                    | apply frame_ret | apply frame_emit
                    | apply frame_bind; [ | intros ]
                    | match goal with |- frame (if ?c then _ else _) => destruct c end
                    | progress unfold LOG, UartBrokerPrint, UartBrokerPuts,
                        gpio_pin_set_dt ]).
  reflexivity.
Qed.

(** X16: every round of the operational loop reads the clock once, reads the
    button once and sleeps 10 ms once, whatever else it does: the loop
    never runs a round without pausing. *)
Theorem operational_loop_paces (env : Env) :
  forall (fuel : nat) (s : Z * Z) (h : trace) (g : globals),
    let r := forever (R := unit) fuel (operate_round env) s h g in
    count is_uptime_read (events r) = fuel /\
    count is_button_read (events r) = fuel /\
    count is_pacing_sleep (events r) = fuel.
Proof.
  induction fuel as [|fuel IH]; intros s h g r; subst r; [repeat split|].
  cbn [forever]. rewrite bind_events, !count_app.
  destruct (operate_round_summary env s h g) as (v & t' & Hread & _ & _ & Hres).
  destruct (operate_round_heartbeat env s h g) as (now & bp & Hhb & _).
  cbv zeta in *. rewrite Hres. cbv beta iota.
  match goal with
  | |- context [forever fuel _ ?s' ?h' ?g'] =>
      destruct (IH s' h' g') as (I1 & I2 & I3)
  end.
  cbv zeta in *. rewrite I1, I2, I3.
  assert (H1 : count is_uptime_read (events (operate_round env s h g)) = 1%nat).
  { rewrite <- (count_filter_sub is_uptime_read is_heartbeat)
      by (intros e He; destruct e; try discriminate; reflexivity).
    rewrite Hhb. destruct (wrap_s64 (fst s - now) <? 0); reflexivity. }
  assert (H2 : count is_button_read (events (operate_round env s h g)) = 1%nat)
    by (unfold count; now rewrite Hread).
  assert (H3 : count is_pacing_sleep (events (operate_round env s h g)) = 1%nat)
    by (unfold count; now rewrite operate_round_sleeps).
  rewrite H1, H2, H3. repeat split.
Qed.

(** ** The LTE event handler *)

Lemma permits_given_app (a b : list handler_call) :
  permits_given (a ++ b) = (permits_given a + permits_given b)%nat.
Proof.
  induction a as [|c a IH]; [reflexivity|].
  destruct c; cbn [app permits_given]; rewrite IH; reflexivity.
Qed.

Lemma handler_console_app (a b : list handler_call) :
  handler_console (a ++ b) = handler_console a +++ handler_console b.
Proof.
  induction a as [|c a IH]; [reflexivity|].
  destruct c; cbn [app handler_console]; rewrite IH; try reflexivity.
  symmetry. apply string_app_assoc.
Qed.

(** One event: a permit exactly for a registration report, and the line of
    the event on the console. *)
Lemma lte_handler_one_event (hdr : lte_lc_h) (evt : lte_lc_evt) :
  permits_given (lte_handler hdr evt)
  = (if reports_registration hdr evt then 1%nat else 0%nat) /\
  handler_console (lte_handler hdr evt) = handler_line hdr evt.
Proof.
  unfold lte_handler, handler_line, reports_registration, reports_searching.
  destruct (evt_type evt =? LTE_LC_EVT_NW_REG_STATUS hdr); cbn [andb].
  - destruct (evt_nw_reg_status evt =? LTE_LC_NW_REG_SEARCHING hdr); cbn [negb andb];
      [split; reflexivity|].
    destruct ((evt_nw_reg_status evt =? LTE_LC_NW_REG_REGISTERED_HOME hdr)
              || (evt_nw_reg_status evt =? LTE_LC_NW_REG_REGISTERED_ROAMING hdr));
      split; reflexivity.
  - destruct (evt_type evt =? LTE_LC_EVT_CELL_UPDATE hdr); [split; reflexivity|].
    destruct (evt_type evt =? LTE_LC_EVT_LTE_MODE_UPDATE hdr); [split; reflexivity|].
    destruct (evt_type evt =? LTE_LC_EVT_MODEM_EVENT hdr); split; reflexivity.
Qed.

(** X17: over any sequence of LTE events, and whatever numbers the header
    gives its enumerators, the handler gives [lte_connected] as many
    permits as there are events whose type is [LTE_LC_EVT_NW_REG_STATUS]
    and whose status is [REGISTERED_HOME] or [REGISTERED_ROAMING] (and not
    the searching status, which is tested first); the console shows, event
    by event, SEARCHING for a searching status, REGISTERD for these
    registration reports, and nothing for any other event. *)
Theorem lte_handler_gives_permit_on_registration
    (hdr : lte_lc_h) (evts : list lte_lc_evt) :
  permits_given (handle_all hdr evts)
  = List.length (filter (reports_registration hdr) evts) /\
  handler_console (handle_all hdr evts)
  = String.concat "" (map (handler_line hdr) evts).
Proof.
  unfold handle_all. induction evts as [|evt evts [IH1 IH2]]; [split; reflexivity|].
  cbn [flat_map filter map]. rewrite permits_given_app, handler_console_app, IH1, IH2.
  destruct (lte_handler_one_event hdr evt) as [H1 H2]. rewrite H1, H2. split.
  - destruct (reports_registration hdr evt); reflexivity.
  - destruct evts as [|evt' evts']; cbn [map String.concat]; [|reflexivity].
    apply string_app_empty.
Qed.

(** With the numbers of the SDK: searching, registered at home, a cell
    update in between, then registered again while roaming. *)
Example handler_session :
  let evts := [ nw_reg_status_evt sdk_numbers 2;
                nw_reg_status_evt sdk_numbers 1;
                mkLteLcEvt 4 0 440 10 0 0;
                nw_reg_status_evt sdk_numbers 5;
                nw_reg_status_evt sdk_numbers 3 ] in
  permits_given (handle_all sdk_numbers evts) = 2%nat /\
  handler_console (handle_all sdk_numbers evts)
  = "SEARCHING" +++ CRLF +++ "REGISTERD" +++ CRLF +++ "REGISTERD" +++ CRLF.
Proof. vm_compute. auto. Qed.
